(** * TDAD convergence-and-verification engine: a shallow embedding

    The development follows the Python sources of the repository:

    - [tdadlib/harness/trace.py]            : [ToolCall], [ToolTrace]
    - [tdadlib/mutationsmith/predicates.py] : the predicate evaluator
    - [scripts/compile_prompt.py]           : [extract_failing_test_ids],
                                              [focused_inner_loop], [compile_loop]
    - [scripts/testsmith.py]                : [classify_test_failures],
                                              [parse_pytest_summary]
    - [scripts/run_mutation_testing.py]     : [run_mutation_test], the score
    - [tdadlib/assertions/tool_calls.py],
      [tdadlib/assertions/branching.py]     : the trace assertions
    - [tdadlib/runtime/prompt_loader.py]    : the override channel
    - [scripts/testsmith.py]                : [validate_generated_tests]
    - [tdadlib/mutationsmith/probe.py]      : the activation probe
    - [tdadlib/mutationsmith/generator.py]  : the decoding of the reply
    - [tdadlib/runtime/runner.py]           : [_normalize_allowed_tools]

    Python [str] values are modelled as Rocq strings (sequences of 8-bit
    characters, i.e. ASCII text); Python [int] as [Z] or [nat]; the
    quotient of two [int]s, seconds and costs as rationals; [dict] and
    [set] as stdpp's [gmap] and [gset]; a raised exception as the left
    summand of a result, or as [None] where a call has one way to fail.
    The external collaborators (the generator, the probe runner, the test
    harness, the repair agent) are functions that pass an opaque world
    along; what the engines do to the outside is kept in a log. *)

From Stdlib Require Import ZArith QArith Ascii String List Bool Lia.
From stdpp Require Import base gmap strings list pretty stringmap.

Set Warnings "-register-all".

Local Open Scope string_scope.
Local Open Scope list_scope.

(** ** Python string primitives *)

Module PyStr.

Definition LF : ascii := ascii_of_nat 10.
Definition nl : string := String LF "".

(** [str.isspace] on the ASCII range: TAB..CR, FS..US and the blank. *)
Definition isspace (c : ascii) : bool :=
  let n := nat_of_ascii c in
  ((9 <=? n)%nat && (n <=? 13)%nat) || ((28 <=? n)%nat && (n <=? 32)%nat).

Definition isdigit (c : ascii) : bool :=
  let n := nat_of_ascii c in (48 <=? n)%nat && (n <=? 57)%nat.

Definition isalpha (c : ascii) : bool :=
  let n := nat_of_ascii c in
  ((65 <=? n)%nat && (n <=? 90)%nat) || ((97 <=? n)%nat && (n <=? 122)%nat).

(** [s.startswith(p)] *)
Definition startswith (p s : string) : bool := String.prefix p s.

(** [sub in s] *)
Fixpoint contains (sub s : string) : bool :=
  String.prefix sub s ||
  match s with
  | EmptyString => false
  | String _ s' => contains sub s'
  end.

(** [s.split(c)] for a one-character separator: never the empty list. *)
Fixpoint split (c : ascii) (s : string) : list string :=
  match s with
  | EmptyString => [EmptyString]
  | String a s' =>
      if Ascii.eqb a c then EmptyString :: split c s'
      else match split c s' with
           | [] => [String a EmptyString]
           | w :: ws => String a w :: ws
           end
  end.

(** [sep.join(l)] *)
Fixpoint join (sep : string) (l : list string) : string :=
  match l with
  | [] => EmptyString
  | [x] => x
  | x :: l' => x +:+ sep +:+ join sep l'
  end.

Fixpoint lstrip (s : string) : string :=
  match s with
  | EmptyString => EmptyString
  | String c s' => if isspace c then lstrip s' else s
  end.

Fixpoint rstrip (s : string) : string :=
  match s with
  | EmptyString => EmptyString
  | String c s' =>
      match rstrip s' with
      | EmptyString => if isspace c then EmptyString else String c EmptyString
      | r => String c r
      end
  end.

(** [s.strip()] *)
Definition strip (s : string) : string := rstrip (lstrip s).

(** [s.replace(old, new)] for a non-empty [old]: occurrences are replaced
    left to right and do not overlap; [skip] counts the characters of the
    current occurrence that are still to be dropped. *)
Fixpoint replace_from (old new : string) (skip : nat) (s : string) : string :=
  match s with
  | EmptyString => EmptyString
  | String c s' =>
      match skip with
      | S k => replace_from old new k s'
      | O =>
          if String.prefix old s
          then new +:+ replace_from old new (Nat.pred (String.length old)) s'
          else String c (replace_from old new 0 s')
      end
  end.

Definition replace (old new s : string) : string := replace_from old new 0 s.

(** Python truthiness of a [str]. *)
Definition truthy (s : string) : bool :=
  match s with EmptyString => false | _ => true end.

End PyStr.

(** ** Decoded YAML / JSON values

    The values the predicate language compares: [None], [bool], [int],
    [str], [list] and [dict] (a dictionary is an association list whose keys
    are pairwise distinct).  Floating-point numbers are left out. *)

Inductive json : Type :=
| JNull
| JBool (b : bool)
| JInt (z : Z)
| JStr (s : string)
| JList (l : list json)
| JDict (kv : list (string * json)).

Module Json.

(** [part in current] / [current[part]] on a dictionary. *)
Fixpoint assoc (k : string) (kv : list (string * json)) : option json :=
  match kv with
  | [] => None
  | (k', v) :: kv' => if String.eqb k k' then Some v else assoc k kv'
  end.

(** Python's [==] on decoded values; [True == 1] and [False == 0]. *)
Fixpoint py_eq (a b : json) {struct a} : bool :=
  match a, b with
  | JNull, JNull => true
  | JBool x, JBool y => Bool.eqb x y
  | JBool x, JInt y => ((if x then 1 else 0) =? y)%Z
  | JInt x, JBool y => (x =? (if y then 1 else 0))%Z
  | JInt x, JInt y => (x =? y)%Z
  | JStr x, JStr y => String.eqb x y
  | JList xs, JList ys =>
      (fix go (xs ys : list json) {struct xs} : bool :=
         match xs, ys with
         | [], [] => true
         | x :: xs', y :: ys' => py_eq x y && go xs' ys'
         | _, _ => false
         end) xs ys
  | JDict d1, JDict d2 =>
      (length d1 =? length d2)%nat &&
      (fix go (d : list (string * json)) {struct d} : bool :=
         match d with
         | [] => true
         | (k, v) :: d' =>
             match assoc k d2 with
             | Some v' => py_eq v v'
             | None => false
             end && go d'
         end) d1
  | _, _ => false
  end.

(** [actual in allowed] *)
Definition py_in (x : json) (l : list json) : bool := existsb (py_eq x) l.

End Json.

(** ** [tdadlib/harness/trace.py] *)

Record ToolCall : Type := mkToolCall {
  name : string;
  args : json;
  result : option json;
  error : option string
}.

(** A [ToolTrace] is its list of calls, oldest first. *)
Definition ToolTrace : Type := list ToolCall.

Module Trace.

Definition record (t : ToolTrace) (n : string) (a : json)
    (r : option json) (e : option string) : ToolTrace :=
  t ++ [mkToolCall n a r e].

Definition names (t : ToolTrace) : list string := map name t.

(** A trace whose calls carry the given names, for examples. *)
Definition of_names (l : list string) : ToolTrace :=
  map (fun n => mkToolCall n (JDict []) None None) l.

End Trace.

(** ** [tdadlib/mutationsmith/predicates.py] *)

Module Predicates.

(** *** The three trace checks *)

Definition _check_trace_called (trace : ToolTrace) (tool_names : list string) : bool :=
  let called : gset string := list_to_set (Trace.names trace) in
  let required : gset string := list_to_set tool_names in
  bool_decide (required ⊆ called).

Definition _check_trace_not_called (trace : ToolTrace) (tool_names : list string) : bool :=
  let called : gset string := list_to_set (Trace.names trace) in
  let forbidden : gset string := list_to_set tool_names in
  bool_decide (size (called ∩ forbidden) = 0%nat).

(** The body of the [for i, name in enumerate(names)] loop: the pair is
    [(a_idx, b_idx)]. *)
Definition first_seen (a b : string) (acc : option nat * option nat)
    (entry : nat * string) : option nat * option nat :=
  let '(a_idx, b_idx) := acc in
  let '(i, name) := entry in
  let a_idx := if String.eqb name a && negb (bool_decide (is_Some a_idx))
               then Some i else a_idx in
  let b_idx := if String.eqb name b && negb (bool_decide (is_Some b_idx))
               then Some i else b_idx in
  (a_idx, b_idx).

Definition enumerate {A : Type} (l : list A) : list (nat * A) :=
  combine (seq 0 (length l)) l.

Definition _check_trace_order_violation (trace : ToolTrace)
    (must_not_happen : list string) : bool :=
  match must_not_happen with
  | [a; b] =>
      match fold_left (first_seen a b) (enumerate (Trace.names trace)) (None, None) with
      | (Some a_idx, Some b_idx) => (a_idx <? b_idx)%nat
      | _ => false
      end
  | _ => false
  end.

(** *** Text checks *)

Definition _check_text_contains_any (text : string) (substrings : list string) : bool :=
  existsb (fun sub => PyStr.contains sub text) substrings.

Definition _check_text_not_contains_any (text : string) (substrings : list string) : bool :=
  negb (existsb (fun sub => PyStr.contains sub text) substrings).

(** *** JSON checks *)

Definition get_json_step (current : option json) (part : string) : option json :=
  match current with
  | Some (JDict kv) => Json.assoc part kv
  | _ => None
  end.

(** [None] is both "a segment is missing" ([return None]) and Python's
    [None] stored in the document; both compare as [JNull]. *)
Definition _get_json_field (data : list (string * json)) (path : string) : json :=
  let parts := PyStr.split "." path in
  default JNull (fold_left get_json_step parts (Some (JDict data))).

Definition _check_json_field_equals (data : list (string * json))
    (field : string) (value : json) : bool :=
  Json.py_eq (_get_json_field data field) value.

Definition _check_json_field_in (data : list (string * json))
    (field : string) (allowed : list json) : bool :=
  Json.py_in (_get_json_field data field) allowed.

(** *** The predicate object ([expect_violation] of mutations.yaml)

    Each namespace is a dictionary; a supported key is a field (absent =
    [None]), every other key of the dictionary is in the [*_unknown] set
    ([set(spec.keys()) - SUPPORTED]). *)

Record order_spec : Type := mkOrder {
  must_not_happen : option (list string)
}.

Record trace_spec : Type := mkTraceSpec {
  called : option (list string);
  not_called : option (list string);
  order_violation : option order_spec;
  trace_unknown : gset string
}.

Record text_spec : Type := mkTextSpec {
  contains_any : option (list string);
  not_contains_any : option (list string);
  text_unknown : gset string
}.

(** [spec.get("field", "")], [spec.get("value")], [spec.get("allowed", [])] *)
Record field_equals_spec : Type := mkFieldEquals {
  fe_field : option string;
  fe_value : option json
}.

Record field_in_spec : Type := mkFieldIn {
  fi_field : option string;
  fi_allowed : option (list json)
}.

Record json_spec : Type := mkJsonSpec {
  field_equals : option field_equals_spec;
  field_in : option field_in_spec;
  json_unknown : gset string
}.

(** [expect_violation.get("trace", {})] and its two siblings: a missing
    namespace reads as the empty dictionary. *)
Record predicate : Type := mkPredicate {
  p_trace : option trace_spec;
  p_text : option text_spec;
  p_json : option json_spec
}.

Definition empty_trace : trace_spec := mkTraceSpec None None None ∅.
Definition empty_text : text_spec := mkTextSpec None None ∅.
Definition empty_json : json_spec := mkJsonSpec None None ∅.

(** *** Reasons

    One constructor per f-string of [evaluate_violation]; the payload is
    what the f-string interpolates. *)

Inductive namespace : Type := NsTrace | NsText | NsJson.

Inductive reason : Type :=
| WarnUnsupported (ns : namespace) (unknown : gset string)
| TraceCalled (required : list string)
| TraceCalledFailed (missing : gset string)
| TraceNotCalled (forbidden : list string)
| TraceNotCalledFailed (found : gset string)
| TraceOrder (a b : string)
| TraceOrderFailed (a b : string)
| TextContainsAny (found : list string)
| TextContainsAnyFailed (substrings : list string)
| TextNotContainsAny
| TextNotContainsAnyFailed (found : list string)
| JsonFieldEquals (field : string) (value : json)
| JsonFieldEqualsFailed (field : string) (actual value : json)
| JsonFieldIn (field : string) (actual : json) (allowed : list json)
| JsonFieldInFailed (field : string) (actual : json) (allowed : list json)
| NoSupportedPredicates.

(** ["; ".join(reasons) if reasons else "no predicates specified"] *)
Inductive reason_text : Type :=
| NoPredicatesSpecified
| Joined (rs : list reason).

Inductive exn : Type := IndexError.

(** The three locals of [evaluate_violation]. *)
Record ev_state : Type := mkEv {
  reasons : list reason;
  all_passed : bool;
  predicates_checked : nat
}.

Definition append (r : reason) (st : ev_state) : ev_state :=
  mkEv (reasons st ++ [r]) (all_passed st) (predicates_checked st).

Definition failed (st : ev_state) : ev_state :=
  mkEv (reasons st) false (predicates_checked st).

Definition checked (st : ev_state) : ev_state :=
  mkEv (reasons st) (all_passed st) (S (predicates_checked st)).

(** [if unknown: reasons.append(WARNING ...)] *)
Definition warn (ns : namespace) (unknown : gset string) (st : ev_state) : ev_state :=
  if bool_decide (unknown = ∅) then st else append (WarnUnsupported ns unknown) st.

Definition eval_called (trace : ToolTrace) (ts : trace_spec) (st : ev_state) : ev_state :=
  match called ts with
  | None => st
  | Some required =>
      let st := checked st in
      if _check_trace_called trace required
      then append (TraceCalled required) st
      else append (TraceCalledFailed
                     (list_to_set required ∖ list_to_set (Trace.names trace)))
                  (failed st)
  end.

Definition eval_not_called (trace : ToolTrace) (ts : trace_spec) (st : ev_state) : ev_state :=
  match not_called ts with
  | None => st
  | Some forbidden =>
      let st := checked st in
      if _check_trace_not_called trace forbidden
      then append (TraceNotCalled forbidden) st
      else append (TraceNotCalledFailed
                     (list_to_set (Trace.names trace) ∩ list_to_set forbidden))
                  (failed st)
  end.

(** [pair[i]] *)
Definition index (l : list string) (i : nat) : exn + string :=
  match nth_error l i with
  | Some x => inr x
  | None => inl IndexError
  end.

Definition eval_order (trace : ToolTrace) (ts : trace_spec) (st : ev_state)
    : exn + ev_state :=
  match order_violation ts with
  | None => inr st
  | Some order_spec =>
      let st := checked st in
      match must_not_happen order_spec with
      | None => inr st
      | Some pair_ =>
          let st := if _check_trace_order_violation trace pair_ then st else failed st in
          match index pair_ 0, index pair_ 1 with
          | inr a, inr b =>
              inr (append (if _check_trace_order_violation trace pair_
                           then TraceOrder a b else TraceOrderFailed a b) st)
          | inl e, _ | _, inl e => inl e
          end
      end
  end.

Definition found_in (text : string) (substrings : list string) : list string :=
  List.filter (fun s => PyStr.contains s text) substrings.

Definition eval_contains_any (text : string) (xs : text_spec) (st : ev_state) : ev_state :=
  match contains_any xs with
  | None => st
  | Some substrings =>
      let st := checked st in
      if _check_text_contains_any text substrings
      then append (TextContainsAny (found_in text substrings)) st
      else append (TextContainsAnyFailed substrings) (failed st)
  end.

Definition eval_not_contains_any (text : string) (xs : text_spec) (st : ev_state)
    : ev_state :=
  match not_contains_any xs with
  | None => st
  | Some substrings =>
      let st := checked st in
      if _check_text_not_contains_any text substrings
      then append TextNotContainsAny st
      else append (TextNotContainsAnyFailed (found_in text substrings)) (failed st)
  end.

Definition eval_field_equals (json_data : list (string * json)) (js : json_spec)
    (st : ev_state) : ev_state :=
  match field_equals js with
  | None => st
  | Some spec =>
      let st := checked st in
      let field := default "" (fe_field spec) in
      let value := default JNull (fe_value spec) in
      if _check_json_field_equals json_data field value
      then append (JsonFieldEquals field value) st
      else append (JsonFieldEqualsFailed field (_get_json_field json_data field) value)
                  (failed st)
  end.

Definition eval_field_in (json_data : list (string * json)) (js : json_spec)
    (st : ev_state) : ev_state :=
  match field_in js with
  | None => st
  | Some spec =>
      let st := checked st in
      let field := default "" (fi_field spec) in
      let allowed := default [] (fi_allowed spec) in
      if _check_json_field_in json_data field allowed
      then append (JsonFieldIn field (_get_json_field json_data field) allowed) st
      else append (JsonFieldInFailed field (_get_json_field json_data field) allowed)
                  (failed st)
  end.

(** [if predicates_checked == 0: all_passed = False; reasons.append(ERROR ...)] *)
Definition close (st : ev_state) : ev_state :=
  match predicates_checked st with
  | O => append NoSupportedPredicates (failed st)
  | S _ => st
  end.

Definition render (st : ev_state) : bool * reason_text :=
  (all_passed st,
   match reasons st with
   | [] => NoPredicatesSpecified
   | rs => Joined rs
   end).

Definition evaluate_violation (expect_violation : predicate) (trace : ToolTrace)
    (assistant_text : string) (assistant_json : option (list (string * json)))
    : exn + (bool * reason_text) :=
  let st := mkEv [] true 0 in
  let trace_spec := default empty_trace (p_trace expect_violation) in
  let st := warn NsTrace (trace_unknown trace_spec) st in
  let st := eval_called trace trace_spec st in
  let st := eval_not_called trace trace_spec st in
  match eval_order trace trace_spec st with
  | inl e => inl e
  | inr st =>
      let text_spec := default empty_text (p_text expect_violation) in
      let st := warn NsText (text_unknown text_spec) st in
      let st := eval_contains_any assistant_text text_spec st in
      let st := eval_not_contains_any assistant_text text_spec st in
      let json_spec := default empty_json (p_json expect_violation) in
      let json_data := default [] assistant_json in
      let st := warn NsJson (json_unknown json_spec) st in
      let st := eval_field_equals json_data json_spec st in
      let st := eval_field_in json_data json_spec st in
      inr (render (close st))
  end.

End Predicates.

(** ** The fragment of Python's [re] the sources use

    A pattern is a sequence of items: one character of a class, a greedy
    one-or-more repetition of a class, an optional character, and the two
    ends of capture group 1.  Matching backtracks as [re] does: a greedy
    repetition first takes as many characters as it can and gives them back
    one at a time. *)

Module Re.

Inductive item : Type :=
| One (p : ascii -> bool)
| Many1 (p : ascii -> bool)
| Opt (p : ascii -> bool)
| Open
| Close.

(** What is left of the subject at the opening of the group, at its
    closing, and after the match. *)
Record mres : Type := mkMres {
  at_open : option string;
  at_close : option string;
  at_end : string
}.

Fixpoint match_here (items : list item) : string -> option mres :=
  match items with
  | [] => fun s => Some (mkMres None None s)
  | One p :: r =>
      fun s =>
        match s with
        | String c s' => if p c then match_here r s' else None
        | EmptyString => None
        end
  | Many1 p :: r =>
      fix go (s : string) : option mres :=
        match s with
        | String c s' =>
            if p c then
              match go s' with
              | Some m => Some m
              | None => match_here r s'
              end
            else None
        | EmptyString => None
        end
  | Opt p :: r =>
      fun s =>
        match s with
        | String c s' =>
            if p c then
              match match_here r s' with
              | Some m => Some m
              | None => match_here r s
              end
            else match_here r s
        | EmptyString => match_here r s
        end
  | Open :: r =>
      fun s =>
        match match_here r s with
        | Some m => Some (mkMres (Some s) (at_close m) (at_end m))
        | None => None
        end
  | Close :: r =>
      fun s =>
        match match_here r s with
        | Some m => Some (mkMres (at_open m) (Some s) (at_end m))
        | None => None
        end
  end.

Fixpoint take (n : nat) (s : string) : string :=
  match n, s with
  | S k, String c s' => String c (take k s')
  | _, _ => EmptyString
  end.

(** [m.group(1)] *)
Definition group1 (m : mres) : string :=
  match at_open m, at_close m with
  | Some o, Some c => take (String.length o - String.length c) o
  | _, _ => EmptyString
  end.

(** [re.search(pattern, s)]: the leftmost match. *)
Fixpoint search (items : list item) (s : string) : option mres :=
  match match_here items s with
  | Some m => Some m
  | None =>
      match s with
      | EmptyString => None
      | String _ s' => search items s'
      end
  end.

(** [re.findall(pattern, s)] for a pattern with one group whose matches
    are never empty: the groups of the successive non-overlapping matches.
    [skip] counts the characters of the last match still to be passed. *)
Fixpoint findall_from (items : list item) (skip : nat) (s : string) : list string :=
  match s with
  | EmptyString => []
  | String _ s' =>
      match skip with
      | S k => findall_from items k s'
      | O =>
          match match_here items s with
          | Some m =>
              group1 m ::
              findall_from items
                (Nat.pred (String.length s - String.length (at_end m))) s'
          | None => findall_from items 0 s'
          end
      end
  end.

Definition findall (items : list item) (s : string) : list string :=
  findall_from items 0 s.

(** Character classes, as they are on ASCII characters. *)
Definition lit (c : ascii) : ascii -> bool := Ascii.eqb c.
Definition word (c : ascii) : bool :=
  PyStr.isalpha c || PyStr.isdigit c || Ascii.eqb c "_".
Definition space : ascii -> bool := PyStr.isspace.
Definition digit : ascii -> bool := PyStr.isdigit.

Fixpoint lits (s : string) : list item :=
  match s with
  | EmptyString => []
  | String c s' => One (lit c) :: lits s'
  end.

End Re.

(** ** The test-outcome classifier *)

Module Outcome.

(** [[\w/\._:-]] *)
Definition node_char (c : ascii) : bool :=
  Re.word c || Ascii.eqb c "/" || Ascii.eqb c "." || Ascii.eqb c "_"
  || Ascii.eqb c ":" || Ascii.eqb c "-".

(** [r'FAILED\s+([\w/\._:-]+::[\w_]+)'] *)
Definition failed_pattern : list Re.item :=
  Re.lits "FAILED" ++
  [Re.Many1 Re.space; Re.Open; Re.Many1 node_char;
   Re.One (Re.lit ":"); Re.One (Re.lit ":"); Re.Many1 Re.word; Re.Close].

(** The deduplication loop of [extract_failing_test_ids]: [seen] is the
    set, [unique] the list built so far. *)
Definition dedup_step (acc : gset string * list string) (m : string)
    : gset string * list string :=
  let '(seen, unique) := acc in
  if bool_decide (m ∈ seen) then acc else ({[m]} ∪ seen, unique ++ [m]).

(** [scripts/compile_prompt.py], [extract_failing_test_ids] *)
Definition extract_failing_test_ids (output : string) : list string :=
  let matches := Re.findall failed_pattern output in
  snd (fold_left dedup_step matches (∅, [])).

(** [r'(\d+)\s+passed'], [r'(\d+)\s+failed'], [r'(\d+)\s+errors?'] *)
Definition count_pattern (w : string) : list Re.item :=
  [Re.Open; Re.Many1 Re.digit; Re.Close; Re.Many1 Re.space] ++ Re.lits w.

Definition passed_pattern : list Re.item := count_pattern "passed".
Definition failed_count_pattern : list Re.item := count_pattern "failed".
Definition errors_pattern : list Re.item :=
  count_pattern "error" ++ [Re.Opt (Re.lit "s")].

(** [int(s)] on a string of decimal digits. *)
Definition int_of_digits (s : string) : nat :=
  fold_left (fun acc c => (10 * acc + (nat_of_ascii c - 48))%nat)
            (list_ascii_of_string s) 0%nat.

(** The filter of the summary lines: ['passed' in l or 'failed' in l or
    'error' in l]. *)
Definition is_summary_line (l : string) : bool :=
  PyStr.contains "passed" l || PyStr.contains "failed" l || PyStr.contains "error" l.

Definition count_of (pattern : list Re.item) (summary : string) : option nat :=
  match Re.search pattern summary with
  | Some m => Some (int_of_digits (Re.group1 m))
  | None => None
  end.

(** [scripts/testsmith.py], [parse_pytest_summary]: [(passed, failed)]. *)
Definition parse_pytest_summary (output : string) : nat * nat :=
  if negb (PyStr.truthy output) then (0, 0)%nat
  else
    let lines := PyStr.split PyStr.LF (PyStr.strip output) in
    let summary_lines := List.filter is_summary_line lines in
    match last summary_lines with
    | None => (0, 0)%nat
    | Some summary =>
        let passed := default 0%nat (count_of passed_pattern summary) in
        let failed := default 0%nat (count_of failed_count_pattern summary) in
        let failed := (failed + default 0 (count_of errors_pattern summary))%nat in
        (passed, failed)
    end.

(** *** [scripts/testsmith.py], [classify_test_failures] *)

Definition infra_patterns : list string :=
  ["AttributeError:"; "NameError:"; "ImportError:"; "ModuleNotFoundError:";
   "TypeError:"; "SyntaxError:"; "IndentationError:"; "fixture '";
   "F821"; "E999"].

(** [any(p in error_text for p in infra_patterns)] *)
Definition is_infra_bug (error_text : string) : bool :=
  existsb (fun p => PyStr.contains p error_text) infra_patterns.

(** [line.startswith("FAILED ") or "::test_" in line and "FAILED" in line] *)
Definition is_header (line : string) : bool :=
  PyStr.startswith "FAILED " line
  || (PyStr.contains "::test_" line && PyStr.contains "FAILED" line).

(** The locals of the loop; [current_test = None] is [None]. *)
Record cls_state : Type := mkCls {
  infrastructure_bugs : list string;
  expected_failures : list string;
  current_test : option string;
  current_error_lines : list string
}.

(** Python truthiness of [current_test] (a [str] or [None]) and of a list. *)
Definition test_truthy (t : option string) : bool :=
  match t with Some s => PyStr.truthy s | None => false end.

Definition list_truthy {A : Type} (l : list A) : bool :=
  match l with [] => false | _ => true end.

(** [if current_test and current_error_lines: ...]: the block that files
    the test under one of the two lists. *)
Definition flush (st : cls_state) : cls_state :=
  if test_truthy (current_test st) && list_truthy (current_error_lines st) then
    let test := default "" (current_test st) in
    let error_text := PyStr.join PyStr.nl (current_error_lines st) in
    if is_infra_bug error_text
    then mkCls (infrastructure_bugs st ++ [test +:+ ":" +:+ PyStr.nl +:+ error_text])
               (expected_failures st) (current_test st) (current_error_lines st)
    else mkCls (infrastructure_bugs st) (expected_failures st ++ [test])
               (current_test st) (current_error_lines st)
  else st.

(** One turn of [for line in lines]. *)
Definition cls_step (st : cls_state) (line : string) : cls_state :=
  if is_header line then
    let st := flush st in
    mkCls (infrastructure_bugs st) (expected_failures st)
          (Some (PyStr.strip (PyStr.replace "FAILED " "" line))) []
  else if test_truthy (current_test st) then
    mkCls (infrastructure_bugs st) (expected_failures st)
          (current_test st) (current_error_lines st ++ [line])
  else st.

(** The loop and the "process last test" block, on the lines. *)
Definition classify_lines (lines : list string) : list string * list string :=
  let st := flush (fold_left cls_step lines (mkCls [] [] None [])) in
  (infrastructure_bugs st, expected_failures st).

Definition classify_test_failures (pytest_output : string) : list string * list string :=
  classify_lines (PyStr.split PyStr.LF pytest_output).

End Outcome.

(** ** [scripts/run_mutation_testing.py] *)

Record MutantArtifacts : Type := mkArtifacts {
  prompt : string;
  tool_descriptions : list (string * string)
}.

Record MutationResult : Type := mkResult {
  mutant_id : string;
  severity : string;
  category : string;
  intent : string;
  activated : bool;
  killed : bool;
  activation_attempts : nat;
  test_output : string
}.

Module Mutation.

(** A path is the string [str(path)] prints.  [dir / name] for a [name]
    without empty, [.] or [..] segments: an absolute right operand
    replaces the left one. *)
Definition path_join (dir name : string) : string :=
  if PyStr.startswith "/" name then name
  else if String.eqb dir "." then name
  else if String.eqb dir "/" then "/" +:+ name
  else dir +:+ "/" +:+ name.

(** What the engine does to the outside, in order.  [RanTests] records the
    override environment and the files as they are when the suite starts. *)
Inductive event : Type :=
| Generated (attempt : nat) (r : option MutantArtifacts)
| Probed (attempt : nat) (m : MutantArtifacts) (r : option bool)
| Saved (path content : string)
| Unlinked (path : string)
| RanTests (cmd : string) (env : gmap string string) (files : gmap string string).

(** An entry of [mutations.yaml] and its [generator] section. *)
Record mutation (Probe : Type) : Type := mkMutation {
  m_id : string;
  m_severity : option string;
  m_category : option string;
  m_intent : string;
  m_activation_probe : Probe
}.
Arguments mkMutation {Probe}.
Arguments m_id {Probe}.
Arguments m_severity {Probe}.
Arguments m_category {Probe}.
Arguments m_intent {Probe}.
Arguments m_activation_probe {Probe}.

Record generator_config : Type := mkGenConfig {
  max_attempts : option Z;
  constraints : option (list string)
}.

(** The files on disk (path to content), the state of the collaborators
    and the log.  A file is keyed by its path as spelled: two spellings
    of one file are two keys. *)
Record state (W : Type) : Type := mkState {
  files : gmap string string;
  world : W;
  log : list event
}.
Arguments mkState {W}.
Arguments files {W}.
Arguments world {W}.
Arguments log {W}.

(** The locals of the attempt loop. *)
Record attempt_state : Type := mkAttempt {
  a_activated : bool;
  a_attempts : nat;
  a_mutant_artifacts : option MutantArtifacts
}.

Section Engine.

Context {W Probe : Type}.

(** The collaborators, at their boundary; [None] is a raised exception.
    The generator and the probe runner read no file of the model; the
    suite reads the files and the override environment.  Their
    [temperature], [model], [verbose] and [stream] arguments, the printing
    and the creation of the cache directory are left out. *)
Variable generate_mutant :
  string -> string -> list string -> list (string * string) ->
  W -> option MutantArtifacts * W.
Variable run_activation_probe_with_prompt :
  string -> Probe -> string -> option string -> list (string * string) ->
  W -> option bool * W.
Variable run_tests :
  string -> string -> gmap string string -> gmap string string ->
  W -> option (Z * string) * W.
(** The name [tempfile.NamedTemporaryFile(suffix=...)] picks. *)
Variable temp_name : string -> gmap string string -> W -> string * W.
Variable yaml_dump : list (string * string) -> string.

Definition emit (e : event) (st : state W) : state W :=
  mkState (files st) (world st) (log st ++ [e]).

(** [save_prompt]: [open(path, 'w')] then [write], taken to succeed: a
    cache directory that cannot be made is not modelled. *)
Definition save_prompt (path content : string) (st : state W) : state W :=
  emit (Saved path content) (mkState (<[path := content]> (files st)) (world st) (log st)).

(** [os.unlink] *)
Definition unlink (path : string) (st : state W) : state W :=
  emit (Unlinked path) (mkState (delete path (files st)) (world st) (log st)).

(** [NamedTemporaryFile(mode='w', suffix=..., delete=False)], one
    [write], and the name. *)
Definition write_temp (suffix content : string) (st : state W) : string * state W :=
  let '(nm, w) := temp_name suffix (files st) (world st) in
  (nm, save_prompt nm content (mkState (files st) w (log st))).

(** [cache_dir / f"{mutant_id}_attempt{attempts}.txt"] *)
Definition cache_file (cache_dir mutant_id : string) (attempts : nat) : string :=
  path_join cache_dir (mutant_id +:+ "_attempt" +:+ pretty attempts +:+ ".txt").

(** [repo_root / "specs" / "core" / spec_name / spec_version / "spec.yaml"] *)
Definition spec_path_of (repo_root spec_name spec_version : string) : string :=
  path_join (path_join (path_join (path_join (path_join repo_root "specs") "core")
                                  spec_name) spec_version) "spec.yaml".

(** The [for attempt in range(max_attempts)] loop; [todo] is what is
    left of the range. *)
Fixpoint attempt_loop (repo_root spec_name spec_version : string)
    (mutation_ : mutation Probe) (base_prompt : string)
    (base_tool_descriptions : list (string * string)) (constraints_ : list string)
    (cache_dir : option string)
    (todo : list nat) (a : attempt_state) (st : state W)
    : attempt_state * state W :=
  match todo with
  | [] => (a, st)
  | attempt :: todo' =>
      let attempts := S attempt in
      let a := mkAttempt (a_activated a) attempts (a_mutant_artifacts a) in
      let '(g, w) := generate_mutant base_prompt (m_intent mutation_) constraints_
                       base_tool_descriptions (world st) in
      let st := emit (Generated attempts g) (mkState (files st) w (log st)) in
      match g with
      | None =>
          (* except Exception: continue *)
          attempt_loop repo_root spec_name spec_version mutation_ base_prompt
            base_tool_descriptions constraints_ cache_dir todo' a st
      | Some mutant_artifacts =>
          let a := mkAttempt (a_activated a) attempts (Some mutant_artifacts) in
          let st :=
            match cache_dir with
            | Some d => save_prompt (cache_file d (m_id mutation_) attempts)
                          (prompt mutant_artifacts) st
            | None => st
            end in
          let spec_path := spec_path_of repo_root spec_name spec_version in
          let '(r, w) := run_activation_probe_with_prompt (prompt mutant_artifacts)
                           (m_activation_probe mutation_) spec_name
                           (if bool_decide (is_Some (files st !! spec_path))
                            then Some spec_path else None)
                           (tool_descriptions mutant_artifacts) (world st) in
          let st := emit (Probed attempts mutant_artifacts r)
                         (mkState (files st) w (log st)) in
          let a := mkAttempt (default false r) attempts (Some mutant_artifacts) in
          if a_activated a then (a, st)
          else attempt_loop repo_root spec_name spec_version mutation_ base_prompt
                 base_tool_descriptions constraints_ cache_dir todo' a st
      end
  end.

(** [run_mutation_test]; [None] when [run_tests] raised (after the
    [finally] block has run). *)
Definition run_mutation_test (repo_root spec_name : string)
    (mutation_ : mutation Probe) (base_prompt : string)
    (base_tool_descriptions : list (string * string))
    (generator_config_ : generator_config) (prompt_path test_cmd : string)
    (cache_dir : option string) (spec_version : string) (st : state W)
    : option MutationResult * state W :=
  let mutant_id_ := m_id mutation_ in
  let severity_ := default "unknown" (m_severity mutation_) in
  let category_ := default "unknown" (m_category mutation_) in
  let intent_ := m_intent mutation_ in
  let max_attempts_ := default 5%Z (max_attempts generator_config_) in
  let constraints_ := default [] (constraints generator_config_) in
  let '(a, st) :=
    attempt_loop repo_root spec_name spec_version mutation_ base_prompt
      base_tool_descriptions constraints_ cache_dir
      (seq 0 (Z.to_nat max_attempts_)) (mkAttempt false 0 None) st in
  match a_activated a, a_mutant_artifacts a with
  | true, Some mutant_artifacts =>
      let '(temp_prompt_path, st) := write_temp ".txt" (prompt mutant_artifacts) st in
      let '(temp_tool_desc_path, st) :=
        write_temp ".yaml" (yaml_dump (tool_descriptions mutant_artifacts)) st in
      let env_override : gmap string string :=
        <["TDAD_TOOL_DESC_OVERRIDE_PATH" := temp_tool_desc_path]>
          (<["TDAD_PROMPT_OVERRIDE_PATH" := temp_prompt_path]> ∅) in
      let '(r, w) := run_tests test_cmd repo_root env_override (files st) (world st) in
      let st := emit (RanTests test_cmd env_override (files st))
                     (mkState (files st) w (log st)) in
      (* finally *)
      let st := unlink temp_prompt_path st in
      let st := unlink temp_tool_desc_path st in
      match r with
      | None => (None, st)
      | Some (exit_code, test_output_) =>
          let killed_ := negb (exit_code =? 0)%Z in
          (Some (mkResult mutant_id_ severity_ category_ intent_ true killed_
                   (a_attempts a) test_output_), st)
      end
  | _, _ =>
      (Some (mkResult mutant_id_ severity_ category_ intent_ false false
               (a_attempts a) ""), st)
  end.

(** The [for mutation in mutations] loop of [main]; it stops at the
    first run that raises. *)
Fixpoint run_all (repo_root spec_name : string) (mutations : list (mutation Probe))
    (base_prompt : string) (base_tool_descriptions : list (string * string))
    (generator_config_ : generator_config) (prompt_path test_cmd : string)
    (cache_dir : option string) (spec_version : string)
    (results : list MutationResult) (st : state W)
    : option (list MutationResult) * state W :=
  match mutations with
  | [] => (Some results, st)
  | mutation_ :: mutations' =>
      match run_mutation_test repo_root spec_name mutation_ base_prompt
              base_tool_descriptions generator_config_ prompt_path test_cmd
              cache_dir spec_version st with
      | (Some result_, st) =>
          run_all repo_root spec_name mutations' base_prompt base_tool_descriptions
            generator_config_ prompt_path test_cmd cache_dir spec_version
            (results ++ [result_]) st
      | (None, st) => (None, st)
      end
  end.

End Engine.

(** *** The statistics of [main] *)

Definition activated_results (results : list MutationResult) : list MutationResult :=
  List.filter activated results.
Definition inconclusive_results (results : list MutationResult) : list MutationResult :=
  List.filter (fun r => negb (activated r)) results.
Definition killed_results (results : list MutationResult) : list MutationResult :=
  List.filter killed (activated_results results).
Definition survived_results (results : list MutationResult) : list MutationResult :=
  List.filter (fun r => negb (killed r)) (activated_results results).

Definition activated_count (results : list MutationResult) : nat :=
  length (activated_results results).
Definition killed_count (results : list MutationResult) : nat :=
  length (killed_results results).

Inductive arith_exn : Type := ZeroDivisionError.

(** Python's [a / b] on two [int]s, as the exact quotient. *)
Definition truediv (a b : nat) : arith_exn + Q :=
  match b with
  | O => inl ZeroDivisionError
  | S _ => inr (Z.of_nat a # Pos.of_nat b)
  end.

(** [killed_count / activated_count if activated_count > 0 else 0.0] *)
Definition mutation_score (results : list MutationResult) : arith_exn + Q :=
  if (0 <? activated_count results)%nat
  then truediv (killed_count results) (activated_count results)
  else inr 0%Q.

End Mutation.

(** ** [scripts/compile_prompt.py]: the convergence loop *)

Module Compile.

(** [str.lower] on ASCII letters. *)
Definition lower_char (c : ascii) : ascii :=
  let n := nat_of_ascii c in
  if (65 <=? n)%nat && (n <=? 90)%nat then ascii_of_nat (n + 32) else c.

Fixpoint lower (s : string) : string :=
  match s with
  | EmptyString => EmptyString
  | String c s' => String (lower_char c) (lower s')
  end.

Definition is_failures_banner (line : string) : bool :=
  PyStr.contains "= FAILURES =" line
  || PyStr.contains "=FAILURES=" (PyStr.replace " " "" line).

Definition is_result_line (line : string) : bool :=
  PyStr.contains "short test summary" (lower line)
  || PyStr.contains "passed" line || PyStr.contains "failed" line
  || PyStr.contains "error" line.

(** The locals of [extract_pytest_failures]. *)
Record xf_state : Type := mkXf {
  result_lines : list string;
  in_failures : bool;
  in_summary : bool
}.

(** One turn of the loop of the outer [extract_pytest_failures]. *)
Definition xf_step (st : xf_state) (line : string) : xf_state :=
  let st :=
    if is_failures_banner line then
      mkXf (result_lines st ++ [line]) true (in_summary st)
    else if in_failures st then
      if PyStr.startswith "=" line && negb (PyStr.contains "FAILURES" line)
      then mkXf (result_lines st) false (in_summary st)
      else mkXf (result_lines st ++ [line]) (in_failures st) (in_summary st)
    else st in
  if is_result_line line then
    if negb (in_failures st)
    then mkXf (result_lines st ++ [line]) (in_failures st) true
    else st
  else if in_summary st && PyStr.truthy (PyStr.strip line)
          && negb (PyStr.startswith "=" line)
  then mkXf (result_lines st ++ [line]) (in_failures st) (in_summary st)
  else st.

(** The inner loop's copy of the function has no [in_summary]. *)
Definition xf_step_inner (st : xf_state) (line : string) : xf_state :=
  let st :=
    if is_failures_banner line then
      mkXf (result_lines st ++ [line]) true (in_summary st)
    else if in_failures st then
      if PyStr.startswith "=" line && negb (PyStr.contains "FAILURES" line)
      then mkXf (result_lines st) false (in_summary st)
      else mkXf (result_lines st ++ [line]) (in_failures st) (in_summary st)
    else st in
  if is_result_line line && negb (in_failures st)
  then mkXf (result_lines st ++ [line]) (in_failures st) (in_summary st)
  else st.

Definition extract_with (step : xf_state -> string -> xf_state) (output : string)
    : string :=
  let lines := PyStr.split PyStr.LF output in
  let st := fold_left step lines (mkXf [] false false) in
  let extracted := PyStr.join PyStr.nl (result_lines st) in
  if PyStr.truthy (PyStr.strip extracted) then extracted else output.

Definition extract_pytest_failures : string -> string := extract_with xf_step.
Definition extract_pytest_failures_inner : string -> string := extract_with xf_step_inner.

(** *** What is sent to and received from the repair agent *)

Inductive test_details : Type :=
| PytestOutput (failure_output : string)
| FailingList (failing_tests : list string).

(** The two [user_msg] f-strings, by what they interpolate. *)
Inductive agent_msg : Type :=
| OuterMsg (i : nat) (max_iters : Z) (failure_output : string)
| InnerMsg (i : nat) (max_inner_iters : Z) (targeted : nat) (details : test_details)
           (candidate_path : string).

Record usage : Type := mkUsage {
  input : Z;
  cache_creation : Z;
  cache_read : Z;
  output : Z
}.

Definition usage_zero : usage := mkUsage 0 0 0 0.

Definition usage_add (a b : usage) : usage :=
  mkUsage (input a + input b) (cache_creation a + cache_creation b)
          (cache_read a + cache_read b) (output a + output b).

(** A message of [client.receive_response()]. *)
Inductive sdk_msg : Type :=
| AssistantMessage
| ToolResultBlock
| ResultMessage (total_cost_usd : option Q) (sdk_usage : option usage).

(** The [async for msg in client.receive_response()] loop: it reads up
    to the first [ResultMessage]. *)
Fixpoint receive (msgs : list sdk_msg) (cost : Q) (u : usage) : Q * usage :=
  match msgs with
  | [] => (cost, u)
  | ResultMessage c su :: _ =>
      (match c with
       | Some c' => if Qeq_bool c' 0 then cost else c'
       | None => cost
       end,
       match su with
       | Some su' => usage_add u su'
       | None => u
       end)
  | _ :: msgs' => receive msgs' cost u
  end.

Inductive event : Type :=
| OuterIteration (i : nat)
| InnerLoopEntered (failing_tests : list string)
| InnerIteration (i : nat)
| RanCmd (cmd : string) (env : gmap string string)
| Queried (msg : agent_msg)
| Copied (src dst : string)
| Unlinked (path : string).

Inductive exn : Type := FileNotFoundError.

Record state (W : Type) : Type := mkState {
  files : gmap string string;
  world : W;
  log : list event
}.
Arguments mkState {W}.
Arguments files {W}.
Arguments world {W}.
Arguments log {W}.

(** A computation that reads and writes the state and may raise. *)
Definition M (W A : Type) : Type := state W -> (exn + A) * state W.

#[global] Instance M_ret {W : Type} : MRet (M W) :=
  fun A x st => (inr x, st).

#[global] Instance M_bind {W : Type} : MBind (M W) :=
  fun A B k c st =>
    match c st with
    | (inr x, st') => k x st'
    | (inl e, st') => (inl e, st')
    end.

Definition raise {W A : Type} (e : exn) : M W A := fun st => (inl e, st).

(** [path.with_name(name)] *)
Definition with_name (path name : string) : string :=
  PyStr.join "/" (removelast (PyStr.split "/" path) ++ [name]).

(** [f"pytest {test_ids} -n auto -v --tb=short"] *)
Definition targeted_cmd_of (failing_tests : list string) : string :=
  "pytest " +:+ PyStr.join " " failing_tests +:+ " -n auto -v --tb=short".

(** The locals of [focused_inner_loop] that change. *)
Record inner_state : Type := mkInner {
  failing_tests : list string;
  targeted_cmd : string;
  inner_test_time : Q;
  inner_cost_usd : Q;
  inner_usage : usage;
  first_iteration : bool
}.

(** The accumulators of [compile_loop]. *)
Record outer_state : Type := mkOuter {
  total_test_time : Q;
  total_cost_usd : Q;
  total_usage : usage
}.

Section Loop.

Context {W : Type}.

(** The test harness: command, override environment, the files as they
    are; it answers the exit code, the combined output and the seconds
    the run took (the difference of the two [time.time()] readings, as a
    rational).  The printing, [repo_root], [spec_path], [model], [verbose]
    and [stream_tests] are left out. *)
Variable run_cmd :
  string -> gmap string string -> gmap string string -> W -> (Z * string * Q) * W.
(** The repair agent: it answers one response stream, a finite list, and
    may edit files. *)
Variable agent :
  agent_msg -> gmap string string -> W -> (list sdk_msg * gmap string string) * W.

Definition emit (e : event) : M W unit :=
  fun st => (inr tt, mkState (files st) (world st) (log st ++ [e])).

Definition run (cmd : string) (env : gmap string string) : M W (Z * string * Q) :=
  fun st =>
    let '(r, w) := run_cmd cmd env (files st) (world st) in
    (inr r, mkState (files st) w (log st ++ [RanCmd cmd env])).

(** [await client.query(user_msg)] and the response stream. *)
Definition query (msg : agent_msg) : M W (list sdk_msg) :=
  fun st =>
    let '(msgs, fs, w) := agent msg (files st) (world st) in
    (inr msgs, mkState fs w (log st ++ [Queried msg])).

(** [shutil.copy(src, dst)] *)
Definition copy (src dst : string) : M W unit :=
  fun st =>
    match files st !! src with
    | Some content =>
        (inr tt, mkState (<[dst := content]> (files st)) (world st)
                         (log st ++ [Copied src dst]))
    | None => (inl FileNotFoundError, st)
    end.

(** [path.unlink()] *)
Definition unlink (path : string) : M W unit :=
  fun st =>
    match files st !! path with
    | Some _ =>
        (inr tt, mkState (delete path (files st)) (world st)
                         (log st ++ [Unlinked path]))
    | None => (inl FileNotFoundError, st)
    end.

Definition exists_ (path : string) : M W bool :=
  fun st => (inr (bool_decide (is_Some (files st !! path))), st).

Definition read_text (path : string) : M W (option string) :=
  fun st => (inr (files st !! path), st).

(** The progress check of the inner loop ([if out: ...]). *)
Definition narrow (original_failing : gset string) (out : string)
    (ist : inner_state) : inner_state :=
  if PyStr.truthy out then
    let still_failing : gset string :=
      list_to_set (Outcome.extract_failing_test_ids out) in
    let newly_passing := original_failing ∖ still_failing in
    if bool_decide (newly_passing = ∅) then ist
    else
      let failing_tests_ := elements (still_failing ∩ original_failing) in
      mkInner failing_tests_ (targeted_cmd_of failing_tests_)
              (inner_test_time ist) (inner_cost_usd ist) (inner_usage ist)
              (first_iteration ist)
  else ist.

(** The [for i in range(1, max_inner_iters + 1)] loop.  The answer is
    [true] when the loop returned from inside (targeted tests passed,
    candidate promoted) and [false] when it ran out or broke. *)
Fixpoint inner_iterations (prompt_path candidate_path outer_loop_output : string)
    (max_inner_iters : Z) (original_failing : gset string)
    (todo : list nat) (ist : inner_state) : M W (bool * inner_state) :=
  match todo with
  | [] => mret (false, ist)
  | i :: todo' =>
      emit (InnerIteration i);;
      '(code, out, ist) ←
        (if first_iteration ist then
           mret (1%Z, outer_loop_output,
                 mkInner (failing_tests ist) (targeted_cmd ist) (inner_test_time ist)
                         (inner_cost_usd ist) (inner_usage ist) false)
         else
           '(code, out, test_elapsed) ←
             run (targeted_cmd ist)
                 (<["TDAD_PROMPT_OVERRIDE_PATH" := candidate_path]> ∅);
           mret (code, out,
                 mkInner (failing_tests ist) (targeted_cmd ist)
                         (inner_test_time ist + test_elapsed)%Q
                         (inner_cost_usd ist) (inner_usage ist) false));
      if (code =? 0)%Z then
        copy candidate_path prompt_path;;
        unlink candidate_path;;
        mret (true, ist)
      else
        let ist := narrow original_failing out ist in
        if (Z.of_nat i =? max_inner_iters)%Z then mret (false, ist)
        else
          msgs ← query (InnerMsg i max_inner_iters (length (failing_tests ist))
                          (if PyStr.truthy out
                           then PytestOutput (extract_pytest_failures_inner out)
                           else FailingList (failing_tests ist))
                          candidate_path);
          let '(c, u) := receive msgs (inner_cost_usd ist) (inner_usage ist) in
          inner_iterations prompt_path candidate_path outer_loop_output
            max_inner_iters original_failing todo'
            (mkInner (failing_tests ist) (targeted_cmd ist) (inner_test_time ist)
                     c u (first_iteration ist))
  end.

(** [focused_inner_loop]: [(success, test_time, cost_usd, usage_tokens)]. *)
Definition focused_inner_loop (prompt_path : string) (failing_tests_ : list string)
    (outer_loop_output : string) (max_inner_iters : Z)
    : M W (bool * Q * Q * usage) :=
  let candidate_path := with_name prompt_path "system_prompt_candidate.txt" in
  copy prompt_path candidate_path;;
  '(returned, ist) ←
    inner_iterations prompt_path candidate_path outer_loop_output max_inner_iters
      (list_to_set failing_tests_) (seq 1 (Z.to_nat max_inner_iters))
      (mkInner failing_tests_ (targeted_cmd_of failing_tests_) 0 0 usage_zero true);
  if returned : bool then
    mret (true, inner_test_time ist, inner_cost_usd ist, inner_usage ist)
  else
    unlink candidate_path;;
    mret (false, inner_test_time ist, inner_cost_usd ist, inner_usage ist).

(** The first part of an outer iteration: the suite's exit code and
    output, from the pre-supplied report on iteration 1 or from a run. *)
Definition obtain (test_cmd : string) (initial_results_content : option string)
    (i : nat) (ost : outer_state) : M W (Z * string * outer_state) :=
  match initial_results_content with
  | Some content =>
      if (i =? 1)%nat && PyStr.truthy content then mret (1%Z, content, ost)
      else
        '(code, out, test_elapsed) ← run test_cmd ∅;
        mret (code, out, mkOuter (total_test_time ost + test_elapsed)%Q
                           (total_cost_usd ost) (total_usage ost))
  | None =>
      '(code, out, test_elapsed) ← run test_cmd ∅;
      mret (code, out, mkOuter (total_test_time ost + test_elapsed)%Q
                         (total_cost_usd ost) (total_usage ost))
  end.

(** [if 0 < len(failing_tests) < inner_loop_threshold] *)
Definition enters_inner (failing_tests_ : list string) (inner_loop_threshold : Z)
    : bool :=
  (0 <? length failing_tests_)%nat
  && (Z.of_nat (length failing_tests_) <? inner_loop_threshold)%Z.

(** The rest of an outer iteration: [inl code] is [return code], [inr]
    goes on with the next iteration. *)
Definition after_run (prompt_path : string) (max_iters inner_loop_threshold
    max_inner_iters : Z) (i : nat) (code : Z) (out : string) (ost : outer_state)
    : M W (Z + outer_state) :=
  if (code =? 0)%Z then mret (inl 0%Z)
  else
    let failing_tests_ := Outcome.extract_failing_test_ids out in
    if enters_inner failing_tests_ inner_loop_threshold then
      emit (InnerLoopEntered failing_tests_);;
      '(success, inner_time, inner_cost, inner_usage_) ←
        focused_inner_loop prompt_path failing_tests_ out max_inner_iters;
      let ost := mkOuter (total_test_time ost + inner_time)%Q
                         (total_cost_usd ost + inner_cost)%Q
                         (usage_add (total_usage ost) inner_usage_) in
      if success : bool then mret (inr ost) else mret (inl 2%Z)
    else
      msgs ← query (OuterMsg i max_iters (extract_pytest_failures out));
      let '(c, u) := receive msgs (total_cost_usd ost) (total_usage ost) in
      mret (inr (mkOuter (total_test_time ost) c u)).

(** The [for i in range(1, max_iters + 1)] loop and the [return 2]
    after it. *)
Fixpoint outer_iterations (prompt_path test_cmd : string)
    (max_iters inner_loop_threshold max_inner_iters : Z)
    (initial_results_content : option string)
    (todo : list nat) (ost : outer_state) : M W Z :=
  match todo with
  | [] => mret 2%Z
  | i :: todo' =>
      emit (OuterIteration i);;
      '(code, out, ost) ← obtain test_cmd initial_results_content i ost;
      r ← after_run prompt_path max_iters inner_loop_threshold max_inner_iters
            i code out ost;
      match r with
      | inl code => mret code
      | inr ost =>
          outer_iterations prompt_path test_cmd max_iters inner_loop_threshold
            max_inner_iters initial_results_content todo' ost
      end
  end.

(** [compile_loop]; the defaults of its signature and of [main]. *)
Definition compile_loop (prompt_path test_cmd : string) (max_iters : Z)
    (inner_loop_threshold max_inner_iters : Z) (initial_results : option string)
    : M W Z :=
  present ← exists_ prompt_path;
  if present : bool then
    initial_results_content ←
      match initial_results with
      | Some path => if PyStr.truthy path then read_text path else mret None
      | None => mret None
      end;
    outer_iterations prompt_path test_cmd max_iters inner_loop_threshold
      max_inner_iters initial_results_content
      (seq 1 (Z.to_nat max_iters)) (mkOuter 0 0 usage_zero)
  else raise FileNotFoundError.

End Loop.

Definition default_max_iters : Z := 6.
Definition default_inner_loop_threshold : Z := 10.
Definition default_max_inner_iters : Z := 8.

End Compile.

(** ** Reading the predicate object clause by clause

    What it means for a clause to hold: each supported key that is
    present, with the check the source applies to it.  An [order_violation]
    entry holds when it carries a [must_not_happen] pair on which the order
    check answers [true]. *)

Module PredicateSpec.

Import Predicates.

Definition holds_if_present {A : Type} (o : option A) (check : A -> bool) : bool :=
  match o with
  | Some x => check x
  | None => true
  end.

Definition present {A : Type} (o : option A) : nat :=
  match o with Some _ => 1 | None => 0 end.

Definition order_clause_holds (trace : ToolTrace) (o : order_spec) : bool :=
  match must_not_happen o with
  | Some pair_ => _check_trace_order_violation trace pair_
  | None => false
  end.

(** What the evaluator does for an [order_violation] entry: without a
    [must_not_happen] key nothing is checked. *)
Definition order_clause_checked (trace : ToolTrace) (o : order_spec) : bool :=
  match must_not_happen o with
  | Some pair_ => _check_trace_order_violation trace pair_
  | None => true
  end.

Definition trace_of (p : predicate) : trace_spec := default empty_trace (p_trace p).
Definition text_of (p : predicate) : text_spec := default empty_text (p_text p).
Definition json_of (p : predicate) : json_spec := default empty_json (p_json p).

(** The number of clauses with a supported key. *)
Definition supported_clauses (p : predicate) : nat :=
  present (called (trace_of p)) + present (not_called (trace_of p))
  + present (order_violation (trace_of p))
  + present (contains_any (text_of p)) + present (not_contains_any (text_of p))
  + present (field_equals (json_of p)) + present (field_in (json_of p)).

Definition field_equals_holds (data : list (string * json)) (s : field_equals_spec)
    : bool :=
  _check_json_field_equals data (default "" (fe_field s)) (default JNull (fe_value s)).

Definition field_in_holds (data : list (string * json)) (s : field_in_spec) : bool :=
  _check_json_field_in data (default "" (fi_field s)) (default [] (fi_allowed s)).

(** The conjunction over the supported clauses that are present, with
    the order clause read by [order]. *)
Definition clauses_with (order : ToolTrace -> order_spec -> bool) (p : predicate)
    (trace : ToolTrace) (text : string) (data : option (list (string * json))) : bool :=
  holds_if_present (called (trace_of p)) (_check_trace_called trace)
  && holds_if_present (not_called (trace_of p)) (_check_trace_not_called trace)
  && holds_if_present (order_violation (trace_of p)) (order trace)
  && holds_if_present (contains_any (text_of p)) (_check_text_contains_any text)
  && holds_if_present (not_contains_any (text_of p)) (_check_text_not_contains_any text)
  && holds_if_present (field_equals (json_of p)) (field_equals_holds (default [] data))
  && holds_if_present (field_in (json_of p)) (field_in_holds (default [] data)).

Definition clauses_hold : predicate -> ToolTrace -> string ->
                          option (list (string * json)) -> bool :=
  clauses_with order_clause_holds.

Definition clauses_checked : predicate -> ToolTrace -> string ->
                             option (list (string * json)) -> bool :=
  clauses_with order_clause_checked.

(** [activated] of a call: a raised exception activates nothing. *)
Definition activated_of (r : exn + (bool * reason_text)) : bool :=
  match r with
  | inr (b, _) => b
  | inl _ => false
  end.

(** The reasons of a call that returned. *)
Definition reasons_of (r : exn + (bool * reason_text)) : list reason :=
  match r with
  | inr (_, Joined rs) => rs
  | _ => []
  end.

(** Two predicate objects with the same supported clauses (their
    unsupported keys may differ). *)
Definition same_supported (p q : predicate) : Prop :=
  called (trace_of p) = called (trace_of q)
  /\ not_called (trace_of p) = not_called (trace_of q)
  /\ order_violation (trace_of p) = order_violation (trace_of q)
  /\ contains_any (text_of p) = contains_any (text_of q)
  /\ not_contains_any (text_of p) = not_contains_any (text_of q)
  /\ field_equals (json_of p) = field_equals (json_of q)
  /\ field_in (json_of p) = field_in (json_of q).

(** What a step of the evaluation does to [all_passed] and to
    [predicates_checked]. *)
Definition adds {A : Type} (o : option A) (check : A -> bool)
    (st st' : ev_state) : Prop :=
  all_passed st' = all_passed st && holds_if_present o check
  /\ predicates_checked st' = (predicates_checked st + present o)%nat.

(** The predicate [{"trace": {"order_violation": {}}}]. *)
Definition order_without_pair : predicate :=
  mkPredicate (Some (mkTraceSpec None None (Some (mkOrder None)) ∅)) None None.

(** The proof of one [adds] fact: case on the key, then on the check. *)
Ltac step_adds :=
  match goal with
  | |- context [match ?o with Some _ => _ | None => _ end] => destruct o
  end; simpl;
  try match goal with
      | |- context [if ?c then _ else _] => destruct c
      end; simpl;
  split; rewrite ?andb_true_r, ?andb_false_r; try reflexivity; lia.

End PredicateSpec.

(** ** Reading a report block by block

    A block is a failure header line with the lines that follow it up to
    the next header. *)

Module OutcomeSpec.

Import Outcome.

Definition block : Type := (string * list string)%type.

Definition well_formed (b : block) : Prop :=
  is_header b.1 = true /\ Forall (fun l => is_header l = false) b.2.

Definition lines_of (bs : list block) : list string :=
  flat_map (fun b : block => b.1 :: b.2) bs.

(** The lines before the first header, and the blocks, of a list of
    lines. *)
Fixpoint blocks_of (lines : list string) : list string * list block :=
  match lines with
  | [] => ([], [])
  | l :: ls =>
      let '(pre, bs) := blocks_of ls in
      if is_header l then ([], (l, pre) :: bs) else (l :: pre, bs)
  end.

(** The test id the source reads off the header. *)
Definition block_name (b : block) : string :=
  PyStr.strip (PyStr.replace "FAILED " "" b.1).

Definition block_error_text (b : block) : string := PyStr.join PyStr.nl b.2.

(** The block has a name and at least one line of error text. *)
Definition block_filed (b : block) : bool :=
  PyStr.truthy (block_name b) && list_truthy b.2.

Definition block_infra (b : block) : bool := is_infra_bug (block_error_text b).

(** The entry of the [infrastructure_bugs] list. *)
Definition block_entry (b : block) : string :=
  block_name b +:+ ":" +:+ PyStr.nl +:+ block_error_text b.

Definition infra_blocks (bs : list block) : list block :=
  List.filter (fun b => block_filed b && block_infra b) bs.

Definition behavioral_blocks (bs : list block) : list block :=
  List.filter (fun b => block_filed b && negb (block_infra b)) bs.

(** The loop's state after the header and the body of block [b], and
    what the next [flush] adds to each list. *)
Definition after_block (i e : list string) (b : block) : cls_state :=
  mkCls i e (Some (block_name b)) (if PyStr.truthy (block_name b) then b.2 else []).

Definition filed_infra (b : block) : list string :=
  if block_filed b && block_infra b then [block_entry b] else [].

Definition filed_behavioral (b : block) : list string :=
  if block_filed b && negb (block_infra b) then [block_name b] else [].

(** The elements of a list at their first occurrence, in order. *)
Fixpoint firsts (l : list string) : list string :=
  match l with
  | [] => []
  | x :: l' => x :: List.filter (fun y => negb (String.eqb y x)) (firsts l')
  end.

(** Membership in the list the deduplication loop has built. *)
Definition among (unique : list string) (y : string) : bool :=
  existsb (String.eqb y) unique.

End OutcomeSpec.

(** ** Sample reports *)

Module Samples.

(** ["FAILED t1\n...\nFAILED t1\n1 failed, 2 passed"] *)
Definition report_A : string :=
  "FAILED t1" +:+ PyStr.nl +:+ "..." +:+ PyStr.nl +:+ "FAILED t1" +:+ PyStr.nl
  +:+ "1 failed, 2 passed".

(** The same report with the id written as a pytest node id. *)
Definition report_A_node : string :=
  "FAILED m::t1" +:+ PyStr.nl +:+ "..." +:+ PyStr.nl +:+ "FAILED m::t1" +:+ PyStr.nl
  +:+ "1 failed, 2 passed".

(** A report whose only line is a failure header. *)
Definition report_header_only : string := "FAILED a.py::test_1".

(** Two headers in a row, as in pytest's short test summary. *)
Definition report_two_headers : string :=
  "FAILED a.py::test_1" +:+ PyStr.nl +:+ "FAILED a.py::test_2" +:+ PyStr.nl
  +:+ "assert 1 == 2".

Definition sample_preamble : list string := ["collected 3 items"].

Definition sample_blocks : list OutcomeSpec.block :=
  [("FAILED a.py::test_1", ["NameError: name 'x' is not defined"]);
   ("FAILED a.py::test_2", ["assert 1 == 2"]);
   ("FAILED a.py::test_3", [])].

Definition sample_report : string :=
  PyStr.join PyStr.nl (sample_preamble ++ OutcomeSpec.lines_of sample_blocks).

End Samples.

(** ** Sample mutation results *)

Module ScoreSamples.

Definition killed_one : MutationResult :=
  mkResult "M1" "high" "auth" "skip verification" true true 1 "1 failed".
Definition survived_one : MutationResult :=
  mkResult "M2" "low" "tone" "drop apology" true false 2 "3 passed".
Definition inconclusive_one : MutationResult :=
  mkResult "M3" "high" "order" "swap tools" false false 5 "".

Definition sample_results : list MutationResult :=
  [killed_one; inconclusive_one; survived_one].

End ScoreSamples.

(** ** Reading the log of a mutation run *)

Module MutationSpec.

Import Mutation.

(** The attempt numbers of the generation requests, in order. *)
Fixpoint generated_attempts (evs : list event) : list nat :=
  match evs with
  | [] => []
  | Generated k _ :: evs' => k :: generated_attempts evs'
  | _ :: evs' => generated_attempts evs'
  end.

(** How many times the suite was started. *)
Fixpoint suite_runs (evs : list event) : nat :=
  match evs with
  | [] => 0
  | RanTests _ _ _ :: evs' => S (suite_runs evs')
  | _ :: evs' => suite_runs evs'
  end.

(** The paths the engine wrote. *)
Fixpoint saved_paths (evs : list event) : list string :=
  match evs with
  | [] => []
  | Saved p _ :: evs' => p :: saved_paths evs'
  | _ :: evs' => saved_paths evs'
  end.

(** What one run of the attempt loop leaves in the log, from attempt
    [k + 1] on. *)
Definition attempts_logged (k : nat) (a' : attempt_state) (evs : list event) : Prop :=
  generated_attempts evs = seq (S k) (a_attempts a' - k)
  /\ suite_runs evs = 0%nat
  /\ (forall i m r, In (Probed i m r) evs -> In (Generated i (Some m)) evs)
  /\ (forall i m r, In (Probed i m r) evs -> (i < a_attempts a')%nat -> r <> Some true)
  /\ (a_activated a' = true ->
      exists m, a_mutant_artifacts a' = Some m
                /\ In (Probed (a_attempts a') m (Some true)) evs)
  /\ (a_activated a' = false ->
      forall i m r, In (Probed i m r) evs -> r <> Some true).

(** Events that are file writes only. *)
Definition quiet (sv : list event) : Prop :=
  Forall (fun e => exists p c, e = Saved p c) sv.

(** *** A scripted world for examples

    The world is a counter of the calls made so far.  The generator
    answers the variant ["MUTANT " ++ n]; the probe activates on the
    second variant; the suite fails; a temporary file gets a name that
    no file has. *)

Definition sample_generate (base_prompt intent_ : string) (cs : list string)
    (tds : list (string * string)) (w : nat) : option MutantArtifacts * nat :=
  (Some (mkArtifacts ("MUTANT " +:+ pretty w) tds), S w).

Definition sample_probe (system_prompt : string) (probe : unit) (spec_name : string)
    (spec_path : option string) (tds : list (string * string)) (w : nat)
    : option bool * nat :=
  (Some (bool_decide (system_prompt = "MUTANT 2")), S w).

(** A probe that activates at once. *)
Definition sample_probe_now (system_prompt : string) (probe : unit) (spec_name : string)
    (spec_path : option string) (tds : list (string * string)) (w : nat)
    : option bool * nat :=
  (Some true, S w).

Definition sample_run_tests (cmd repo_root : string) (env fs : gmap string string)
    (w : nat) : option (Z * string) * nat :=
  (Some (1%Z, "1 failed"), S w).

(** A name no file has yet. *)
Definition sample_temp_name (suffix : string) (fs : gmap string string) (w : nat)
    : string * nat :=
  (fresh_string ("/tmp/tmp" +:+ suffix) fs, S w).

Definition sample_yaml_dump (tds : list (string * string)) : string := "{}".

Definition sample_mutation : mutation unit :=
  mkMutation "M1" (Some "high") (Some "auth") "skip verification" tt.

Definition sample_config : generator_config := mkGenConfig None None.

Definition sample_prompt_path : string := "agent_artifacts/core/supportops/system_prompt.txt".

Definition sample_state : state nat :=
  mkState (<[sample_prompt_path := "ORIGINAL"]> ∅) 0%nat [].

Definition sample_run : option MutationResult * state nat :=
  run_mutation_test sample_generate sample_probe sample_run_tests sample_temp_name
    sample_yaml_dump "." "supportops" sample_mutation "ORIGINAL" [] sample_config
    sample_prompt_path "pytest" None "v1" sample_state.

(** The run in which the prompt given on the command line lies in the
    cache directory under the name of a cached variant. *)
Definition aliased_prompt_path : string := "cache/M1_attempt1.txt".

Definition aliased_state : state nat :=
  mkState (<[aliased_prompt_path := "ORIGINAL"]> ∅) 0%nat [].

Definition aliased_run : option MutationResult * state nat :=
  run_mutation_test sample_generate sample_probe_now sample_run_tests sample_temp_name
    sample_yaml_dump "." "supportops" sample_mutation "ORIGINAL" [] sample_config
    aliased_prompt_path "pytest" (Some "cache") "v1" aliased_state.

End MutationSpec.

(** ** The result of the scripted run *)

Module EngineSamples.

Definition sample_result : MutationResult :=
  mkResult "M1" "high" "auth" "skip verification" true true 2 "1 failed".

(** A pack of two intents run with one attempt each: the probe does not
    activate on the variant of the first intent and activates on the
    variant of the second. *)
Definition one_attempt : Mutation.generator_config := Mutation.mkGenConfig (Some 1%Z) None.

Definition second_mutation : Mutation.mutation unit :=
  Mutation.mkMutation "M2" (Some "low") None "answer rudely" tt.

Definition first_result : MutationResult :=
  mkResult "M1" "high" "auth" "skip verification" false false 1 "".

Definition second_result : MutationResult :=
  mkResult "M2" "low" "unknown" "answer rudely" true true 1 "1 failed".

Definition first_run : option MutationResult * Mutation.state nat :=
  Mutation.run_mutation_test MutationSpec.sample_generate MutationSpec.sample_probe
    MutationSpec.sample_run_tests MutationSpec.sample_temp_name
    MutationSpec.sample_yaml_dump "." "supportops" MutationSpec.sample_mutation
    "ORIGINAL" [] one_attempt MutationSpec.sample_prompt_path "pytest" None "v1"
    MutationSpec.sample_state.

Definition pack_run : option (list MutationResult) * Mutation.state nat :=
  Mutation.run_all MutationSpec.sample_generate MutationSpec.sample_probe
    MutationSpec.sample_run_tests MutationSpec.sample_temp_name
    MutationSpec.sample_yaml_dump "." "supportops"
    [MutationSpec.sample_mutation; second_mutation]
    "ORIGINAL" [] one_attempt MutationSpec.sample_prompt_path "pytest" None "v1" []
    MutationSpec.sample_state.

End EngineSamples.

(** ** Reading the log of a compile session *)

Module CompileSpec.

Import Compile.

Inductive kind : Type :=
| KOuter | KEntry | KInner | KRun | KOuterQuery | KInnerQuery | KCopied | KUnlinked.

Definition kind_of (e : event) : kind :=
  match e with
  | OuterIteration _ => KOuter
  | InnerLoopEntered _ => KEntry
  | InnerIteration _ => KInner
  | RanCmd _ _ => KRun
  | Queried (OuterMsg _ _ _) => KOuterQuery
  | Queried (InnerMsg _ _ _ _ _) => KInnerQuery
  | Copied _ _ => KCopied
  | Unlinked _ => KUnlinked
  end.

Definition kind_eqb (a b : kind) : bool :=
  match a, b with
  | KOuter, KOuter | KEntry, KEntry | KInner, KInner | KRun, KRun
  | KOuterQuery, KOuterQuery | KInnerQuery, KInnerQuery
  | KCopied, KCopied | KUnlinked, KUnlinked => true
  | _, _ => false
  end.

(** 1 when the selection [q] has kind [k], else 0. *)
Definition has (q : kind -> bool) (k : kind) : nat := if q k then 1 else 0.

(** How many events of the selected kinds a log has. *)
Fixpoint count (q : kind -> bool) (evs : list event) : nat :=
  match evs with
  | [] => 0
  | e :: evs' => has q (kind_of e) + count q evs'
  end.

(** A computation adds at most [n] events of the selected kinds. *)
Definition uses {W A : Type} (q : kind -> bool) (n : nat) (c : M W A) : Prop :=
  forall st r st', c st = (r, st') ->
    exists evs, log st' = log st ++ evs /\ (count q evs <= n)%nat.

(** What one inner iteration, one inner loop and the rest of an outer
    iteration can add. *)
Definition per_inner (q : kind -> bool) : nat :=
  has q KInner + has q KRun + has q KCopied + has q KUnlinked + has q KInnerQuery.

Definition per_focused (q : kind -> bool) (n : nat) : nat :=
  has q KCopied + n * per_inner q + has q KUnlinked.

Definition per_after_run (q : kind -> bool) (n : nat) : nat :=
  has q KEntry + per_focused q n + has q KOuterQuery.

Definition per_outer (q : kind -> bool) (n : nat) : nat :=
  has q KOuter + has q KRun + per_after_run q n.

(** Name the counts, compute the per-step bounds of the selected kind. *)
Ltac name_counts :=
  repeat match goal with
         | |- context [count ?q ?e] =>
             let c := fresh "c" in set (c := count q e) in *; clearbody c
         | H : context [count ?q ?e] |- _ =>
             let c := fresh "c" in set (c := count q e) in *; clearbody c
         end.

Ltac kind_bounds :=
  name_counts;
  cbv [per_outer per_after_run per_focused per_inner has kind_eqb] in *;
  nia.

(** *** Scripted worlds for examples

    The world counts the calls.  The harness of [always_failing] reports
    the same twelve failing node ids on every run; the agent answers one
    [ResultMessage] and edits nothing. *)

Fixpoint failed_lines (n : nat) : string :=
  match n with
  | O => "12 failed, 3 passed"
  | S k => "FAILED t.py::test_" +:+ pretty n +:+ PyStr.nl +:+ failed_lines k
  end.

Definition report_B : string := failed_lines 12.

Definition always_failing (cmd : string) (env fs : gmap string string) (w : nat)
    : (Z * string * Q) * nat :=
  ((1%Z, report_B, 1%Q), S w).



Definition quiet_agent (msg : agent_msg) (fs : gmap string string) (w : nat)
    : (list sdk_msg * gmap string string) * nat :=
  (([AssistantMessage; ResultMessage (Some (1 # 100)%Q) None], fs), S w).

Definition sample_prompt : string := "agent_artifacts/core/supportops/system_prompt.txt".

Definition sample_state : state nat :=
  mkState (<[sample_prompt := "PROMPT"]> ∅) 0%nat [].

Definition session_B : (exn + Z) * state nat :=
  compile_loop always_failing quiet_agent sample_prompt "pytest tests_visible"
    default_max_iters default_inner_loop_threshold default_max_inner_iters None
    sample_state.


End CompileSpec.

(** ** One outer iteration of scenario B *)

Module CompileSamples.

Import Compile CompileSpec.


End CompileSamples.

(** ** Sample predicate objects *)

Module PredicateSamples.

Import Predicates.

(** [{"trace": {"called": ["lookup_order"], "not_called": ["verify_identity"]},
     "text": {"contains_any": ["cancelled"]}}] *)
Definition skipped_verification : predicate :=
  mkPredicate
    (Some (mkTraceSpec (Some ["lookup_order"]) (Some ["verify_identity"]) None ∅))
    (Some (mkTextSpec (Some ["cancelled"]) None ∅))
    None.

(** The same object with an unsupported key in each namespace. *)
Definition skipped_verification_noisy : predicate :=
  mkPredicate
    (Some (mkTraceSpec (Some ["lookup_order"]) (Some ["verify_identity"]) None
                       {["called_twice"]}))
    (Some (mkTextSpec (Some ["cancelled"]) None {["matches"]}))
    (Some (mkJsonSpec None None {["field_exists"]})).

(** An object with unsupported keys only. *)
Definition unsupported_only : predicate :=
  mkPredicate (Some (mkTraceSpec None None None {["called_twice"]})) None
              (Some (mkJsonSpec None None {["field_exists"]})).

Definition sample_trace : ToolTrace :=
  Trace.of_names ["lookup_order"; "cancel_order"; "respond"].

Definition sample_text : string := "Your order has been cancelled.".

End PredicateSamples.

(** ** Python list primitives *)

Module PyList.

(** [x in l] *)
Definition mem (x : string) (l : list string) : bool := existsb (String.eqb x) l.

(** [l.index(x, start)]: the first position at or after [start] that holds
    [x]; [None] is [ValueError]. *)
Fixpoint index_from (x : string) (start : nat) (l : list string) : option nat :=
  match l with
  | [] => None
  | y :: l' =>
      match start with
      | O => if String.eqb y x then Some O else S <$> index_from x O l'
      | S k => S <$> index_from x k l'
      end
  end.

(** [l.index(x)] *)
Definition index (x : string) (l : list string) : option nat := index_from x 0 l.

End PyList.

(** ** [tdadlib/harness/trace.py]: the respond call *)

Module TraceQueries.

Inductive exn : Type := ValueError.

(** [for call in reversed(self.calls): if call.name == "respond": return call] *)
Definition get_respond_call (t : ToolTrace) : option ToolCall :=
  List.find (fun c => String.eqb (name c) "respond") (rev t).

Definition get_response (t : ToolTrace) : exn + json :=
  match get_respond_call t with
  | None => inl ValueError
  | Some call => inr (args call)
  end.

(** [__len__] *)
Definition len (t : ToolTrace) : nat := length t.

End TraceQueries.

(** ** [tdadlib/assertions]: the assertions of the test suites

    An assertion returns ([inr tt]) or raises. *)

Module Assertions.

Inductive exn : Type := AssertionError | ValueError.

Definition assert_ (b : bool) : exn + unit :=
  if b then inr tt else inl AssertionError.

(** *** [tool_calls.py] *)

Definition assert_called (trace : ToolTrace) (n : string) : exn + unit :=
  assert_ (existsb (fun c => String.eqb (name c) n) trace).

Definition assert_not_called (trace : ToolTrace) (n : string) : exn + unit :=
  assert_ (forallb (fun c => negb (String.eqb (name c) n)) trace).

(** The loop of [assert_call_order]: [idx] is where the search for the
    next expected name starts. *)
Fixpoint call_order_loop (got : list string) (idx : nat) (expected : list string)
    : exn + unit :=
  match expected with
  | [] => inr tt
  | e :: expected' =>
      match PyList.index_from e idx got with
      | Some j => call_order_loop got (S j) expected'
      | None => inl AssertionError
      end
  end.

(** Both call styles, a list or the names one by one, give
    [expected_in_order]. *)
Definition assert_call_order (trace : ToolTrace) (expected_in_order : list string)
    : exn + unit :=
  call_order_loop (Trace.names trace) 0 expected_in_order.

Definition assert_calls_exactly (trace : ToolTrace) (expected : list string)
    : exn + unit :=
  assert_ (bool_decide (Trace.names trace = expected)).

(** *** [branching.py] *)

(** [calls.index(x)] *)
Definition index (x : string) (calls : list string) : exn + nat :=
  match PyList.index x calls with
  | Some i => inr i
  | None => inl ValueError
  end.

(** [auth_tool in calls and calls.index(auth_tool) < calls.index(action_tool)] *)
Definition auth_first (calls : list string) (action_tool auth_tool : string)
    : exn + bool :=
  if PyList.mem auth_tool calls then
    match index auth_tool calls with
    | inl e => inl e
    | inr i =>
        match index action_tool calls with
        | inl e => inl e
        | inr j => inr (i <? j)%nat
        end
    end
  else inr false.

Definition default_auth_tool : string := "verify_identity".

Definition assert_auth_gate (trace : ToolTrace) (action_tool : string)
    (auth_tool : option string) : exn + unit :=
  let auth_tool := default default_auth_tool auth_tool in
  let calls := Trace.names trace in
  if PyList.mem action_tool calls then
    match auth_first calls action_tool auth_tool with
    | inl e => inl e
    | inr b => assert_ b
    end
  else inr tt.

Definition assert_no_action_without_confirmation (trace : ToolTrace)
    (action_tool : string) (confirmation_seen : bool) : exn + unit :=
  if negb confirmation_seen
  then assert_ (negb (PyList.mem action_tool (Trace.names trace)))
  else inr tt.

End Assertions.

(** ** Reading the reasons of the evaluator *)

Module ReasonSpec.

Import Predicates.

(** The reasons whose text says FAILED or ERROR. *)
Definition is_failure (r : reason) : bool :=
  match r with
  | TraceCalledFailed _ | TraceNotCalledFailed _ | TraceOrderFailed _ _
  | TextContainsAnyFailed _ | TextNotContainsAnyFailed _
  | JsonFieldEqualsFailed _ _ _ | JsonFieldInFailed _ _ _
  | NoSupportedPredicates => true
  | _ => false
  end.

(** The list behind a reason text. *)
Definition reasons_in (rt : reason_text) : list reason :=
  match rt with
  | NoPredicatesSpecified => []
  | Joined rs => rs
  end.

(** [all_passed] is [true] exactly when no reason so far is a failure. *)
Definition explained (st : ev_state) : Prop :=
  all_passed st = negb (existsb is_failure (reasons st)).

End ReasonSpec.

(** ** [tdadlib/runtime/prompt_loader.py]: what the suite loads

    Paths are strings in normal form, as [str(Path(...))] prints them;
    [environ] is [os.environ], [fs] the files on disk. *)

Module PromptLoader.

Inductive exn : Type := FileNotFoundError | YAMLError.

(** Python truthiness of a decoded value. *)
Definition json_truthy (v : json) : bool :=
  match v with
  | JNull => false
  | JBool b => b
  | JInt z => negb (z =? 0)%Z
  | JStr s => PyStr.truthy s
  | JList l => match l with [] => false | _ => true end
  | JDict kv => match kv with [] => false | _ => true end
  end.

(** [os.environ.get(key)] followed by [if value:] *)
Definition env_path (environ : gmap string string) (key : string) : option string :=
  match environ !! key with
  | Some v => if PyStr.truthy v then Some v else None
  | None => None
  end.

(** [path.read_text(encoding="utf-8")] *)
Definition read_text (fs : gmap string string) (path : string) : exn + string :=
  match fs !! path with
  | Some text => inr text
  | None => inl FileNotFoundError
  end.

Section Loader.

(** [yaml.safe_load] of a text; [None] is a raised [YAMLError]. *)
Variable yaml_safe_load : string -> option json.

(** [if override_path.exists(): data = yaml.safe_load(...);
     return data if isinstance(data, dict) else {}] and [return {}] *)
Definition load_overrides_at (fs : gmap string string) (override_path : string)
    : exn + list (string * json) :=
  match fs !! override_path with
  | Some text =>
      match yaml_safe_load text with
      | Some (JDict kv) => inr kv
      | Some _ => inr []
      | None => inl YAMLError
      end
  | None => inr []
  end.

Definition load_tool_description_overrides (environ fs : gmap string string)
    (agent_dir : string) : exn + list (string * json) :=
  match env_path environ "TDAD_TOOL_DESC_OVERRIDE_PATH" with
  | Some env_override_path => load_overrides_at fs env_override_path
  | None => load_overrides_at fs (Mutation.path_join agent_dir "tool_descriptions.yaml")
  end.

(** The [cfg] part of [load_prompt_and_config]:
    [yaml.safe_load(cfg_path.read_text(...)) or {}] when the file exists. *)
Definition load_config (fs : gmap string string) (agent_dir : string) : exn + json :=
  match fs !! Mutation.path_join agent_dir "agent_config.yaml" with
  | Some text =>
      match yaml_safe_load text with
      | Some cfg => inr (if json_truthy cfg then cfg else JDict [])
      | None => inl YAMLError
      end
  | None => inr (JDict [])
  end.

Definition load_prompt_and_config (environ fs : gmap string string)
    (agent_dir : string) : exn + (string * json) :=
  let prompt_path :=
    match env_path environ "TDAD_PROMPT_OVERRIDE_PATH" with
    | Some override_path => override_path
    | None => Mutation.path_join agent_dir "system_prompt.txt"
    end in
  match read_text fs prompt_path with
  | inl e => inl e
  | inr system_prompt =>
      match load_config fs agent_dir with
      | inl e => inl e
      | inr cfg => inr (system_prompt, cfg)
      end
  end.

End Loader.

End PromptLoader.

(** ** The environment of a child process

    [env = os.environ.copy()] and [if env_override: env.update(env_override)]
    of [run_tests] ([run_mutation_testing.py]) and of [run_cmd]
    ([compile_prompt.py]). *)

Module Subprocess.

Definition child_env (environ env_override : gmap string string) : gmap string string :=
  env_override ∪ environ.

End Subprocess.

(** ** [scripts/run_mutation_testing.py]: the summary of [main] *)

Module Summary.

Import Mutation.

Inductive status : Type := INCONCLUSIVE | KILLED | SURVIVED.

(** The status column of the report. *)
Definition status_of (r : MutationResult) : status :=
  if negb (activated r) then INCONCLUSIVE
  else if killed r then KILLED
  else SURVIVED.

(** [return 0 if len(survived_results) == 0 else 1] *)
Definition exit_code (results : list MutationResult) : Z :=
  if (length (survived_results results) =? 0)%nat then 0%Z else 1%Z.

End Summary.

(** ** A scripted run for the override channel *)

Module ChannelSamples.

Import Mutation MutationSpec.

(** A name that no file has and that is not the empty string. *)
Definition sample_temp_name (suffix : string) (fs : gmap string string) (w : nat)
    : string * nat :=
  (fresh_string ("/tmp/tmp" +:+ suffix) (<["" := ""]> fs), S w).

Definition sample_run : option MutationResult * state nat :=
  run_mutation_test sample_generate sample_probe sample_run_tests sample_temp_name
    sample_yaml_dump "." "supportops" sample_mutation "ORIGINAL" [] sample_config
    sample_prompt_path "pytest" (Some "cache") "v1" sample_state.

End ChannelSamples.

(** ** Reading the log of the inner loop *)

Module InnerSpec.

Import Compile.

(** The override environment of a targeted run. *)
Definition candidate_env (candidate_path : string) : gmap string string :=
  <["TDAD_PROMPT_OVERRIDE_PATH" := candidate_path]> ∅.

(** The ids of [original] that the report [out] still lists as FAILED,
    as the progress check of the inner loop keeps them:
    [list(still_failing & original_failing)]. *)
Definition still_listed (original : list string) (out : string) : list string :=
  elements ((list_to_set (Outcome.extract_failing_test_ids out) : gset string)
              ∩ list_to_set original).

(** A report the inner loop narrows on: the output it was called with, or
    an output that the test runner gives, with an exit code other than 0,
    under the candidate override. *)
Definition narrowing_report {W : Type}
    (run_cmd : string -> gmap string string -> gmap string string -> W ->
               (Z * string * Q) * W)
    (candidate_path outer_loop_output out : string) : Prop :=
  out = outer_loop_output
  \/ exists cmd fs w code t w',
       run_cmd cmd (candidate_env candidate_path) fs w = ((code, out, t), w')
       /\ code <> 0%Z.

(** The lists of test ids the inner loop can target: the list it was
    called with, or what a narrowing report leaves of it. *)
Definition target_list {W : Type}
    (run_cmd : string -> gmap string string -> gmap string string -> W ->
               (Z * string * Q) * W)
    (candidate_path outer_loop_output : string) (original l : list string) : Prop :=
  l = original
  \/ exists out,
       narrowing_report run_cmd candidate_path outer_loop_output out
       /\ l = still_listed original out.

(** A run of the log is a run of the inner loop: under the candidate
    override, with the command [pytest <ids> -n auto -v --tb=short] on a
    list of ids the loop can target.  With no id, pytest runs the whole
    suite. *)
Definition targeted {W : Type}
    (run_cmd : string -> gmap string string -> gmap string string -> W ->
               (Z * string * Q) * W)
    (candidate_path outer_loop_output : string) (original : list string) (e : event)
    : Prop :=
  match e with
  | RanCmd cmd env =>
      env = candidate_env candidate_path
      /\ exists l, cmd = targeted_cmd_of l
                   /\ target_list run_cmd candidate_path outer_loop_output original l
  | _ => True
  end.






End InnerSpec.

(** ** Reading the failure extract *)

Module ExtractSpec.

Import Compile.

(** A line that ends the FAILURES section: it starts with [=] and does
    not mention FAILURES. *)
Definition terminator (line : string) : bool :=
  PyStr.startswith "=" line && negb (PyStr.contains "FAILURES" line).

(** What one turn of the loop appends: copies of the line, at least
    one inside the FAILURES section and on its banner. *)
Definition turn_ok (step : xf_state -> string -> xf_state) : Prop :=
  forall st line,
    exists k,
      result_lines (step st line) = result_lines st ++ repeat line k
      /\ (is_failures_banner line = true ->
          in_failures (step st line) = true /\ (1 <= k)%nat)
      /\ (in_failures st = true -> terminator line = false ->
          in_failures (step st line) = true /\ (1 <= k)%nat).

(** A pytest report with a FAILURES section and a summary. *)
Definition sample_output : string :=
  "collected 2 items" +:+ PyStr.nl +:+
  "=== FAILURES ===" +:+ PyStr.nl +:+
  "___ test_a ___" +:+ PyStr.nl +:+
  "E   assert 1 == 2" +:+ PyStr.nl +:+
  "=== short test summary info ===" +:+ PyStr.nl +:+
  "FAILED t.py::test_a" +:+ PyStr.nl +:+
  "1 failed, 1 passed".

End ExtractSpec.

(** ** Paths

    A [pathlib] path is the string [str(path)] prints: relative or with
    the root [/], without empty or [.] segments and without a trailing
    slash; the path [.] is the empty relative path. *)

Module PyPath.

(** [path.name] *)
Definition name (path : string) : string :=
  if String.eqb path "." || String.eqb path "/" then ""
  else default "" (last (PyStr.split "/" path)).

(** [path.parent] *)
Definition parent (path : string) : string :=
  if String.eqb path "." || String.eqb path "/" then path
  else
    match removelast (PyStr.split "/" path) with
    | [] => "."
    | [""] => "/"
    | dirs => PyStr.join "/" dirs
    end.

End PyPath.

(** ** [scripts/testsmith.py]: the validation of generated tests *)

Module TestSmith.

(** The answer of [fix_infrastructure_bugs]:
    [(success, cost_usd, usage_tokens)]. *)
Definition fix_result : Type := (bool * Q * Compile.usage)%type.

Inductive event : Type :=
| RanPytest (cmd : list string) (output : string)
| SeedBaseline (visible_passed visible_failed hidden_passed hidden_failed : nat)
| Saved (path content : string)
| CalledFixer (test_dirs bugs : list string) (answer : fix_result).

Record state (W : Type) : Type := mkState {
  files : gmap string string;
  world : W;
  log : list event
}.
Arguments mkState {W}.
Arguments files {W}.
Arguments world {W}.
Arguments log {W}.

(** The locals of the loop of [validate_generated_tests] that outlive an
    attempt. *)
Record totals : Type := mkTotals {
  total_cost_usd : Q;
  total_usage : Compile.usage;
  latest_visible_output : option string
}.

(** [test_type in ("visible", "all")] and [test_type in ("hidden", "all")] *)
Definition wants (kind test_type : string) : bool :=
  String.eqb test_type kind || String.eqb test_type "all".

Section Validate.

Context {W : Type}.

(** [Path.exists()] on a directory, when [get_test_dirs] is called. *)
Variable dir_exists : string -> bool.
(** [subprocess.run(cmd, capture_output=True, text=True)] on the files
    as they are: [(stdout, stderr, returncode)]. *)
Variable run_pytest :
  list string -> gmap string string -> W -> (string * string * Z) * W.
(** The repair agent behind [fix_infrastructure_bugs]; it may edit
    files. *)
Variable fix_infrastructure_bugs :
  list string -> list string -> gmap string string -> W ->
  (fix_result * gmap string string) * W.

(** [Path(f"tests_{kind}/core/{spec_name}")], then [/ output_version];
    [spec_name] is the name of a path, [output_version] a relative path. *)
Definition test_dir (kind spec_name : string) (output_version : option string)
    : string :=
  let dir := if PyStr.truthy spec_name
             then "tests_" +:+ kind +:+ "/core/" +:+ spec_name
             else "tests_" +:+ kind +:+ "/core" in
  match output_version with
  | Some v => if PyStr.truthy v then Mutation.path_join dir v else dir
  | None => dir
  end.

Definition get_test_dirs (spec_path test_type : string) (output_version : option string)
    : list string :=
  let spec_name := PyPath.name (PyPath.parent (PyPath.parent spec_path)) in
  (if wants "visible" test_type then
     let visible_dir := test_dir "visible" spec_name output_version in
     if dir_exists visible_dir then [visible_dir] else []
   else [])
  ++
  (if wants "hidden" test_type then
     let hidden_dir := test_dir "hidden" spec_name output_version in
     if dir_exists hidden_dir then [hidden_dir] else []
   else []).

Definition emit (e : event) (st : state W) : state W :=
  mkState (files st) (world st) (log st ++ [e]).

(** [["python", "-m", "pytest", "-n", "auto", "--tb=short", "-v", "-m", marker]
     + dirs] *)
Definition pytest_cmd (marker : string) (dirs : list string) : list string :=
  ["python"; "-m"; "pytest"; "-n"; "auto"; "--tb=short"; "-v"; "-m"; marker] ++ dirs.

(** One of the two runs of an attempt: the output ([stdout + stderr])
    and the infrastructure bugs the classifier finds in it; without a
    directory of that kind, or when the kind is not asked for, nothing is
    run and the output is empty. *)
Definition run_kind (kind test_type : string) (dirs : list string) (st : state W)
    : option string * list string * state W :=
  if Outcome.list_truthy dirs && wants kind test_type then
    let '((stdout, stderr, returncode), w) :=
      run_pytest (pytest_cmd kind dirs) (files st) (world st) in
    let output := stdout +:+ stderr in
    (Some output, fst (Outcome.classify_test_failures output),
     emit (RanPytest (pytest_cmd kind dirs) output) (mkState (files st) w (log st)))
  else (None, [], st).

(** The [for attempt in range(1, max_fix_attempts + 1)] loop and the
    [return False, ...] after it. *)
Fixpoint attempts (test_type : string) (visible_dirs hidden_dirs test_dirs : list string)
    (max_fix_attempts : Z) (save_results_to : option string)
    (todo : list nat) (acc : totals) (st : state W)
    : (bool * Q * Compile.usage) * state W :=
  match todo with
  | [] => ((false, total_cost_usd acc, total_usage acc), st)
  | attempt :: todo' =>
      let '(visible_run, visible_infra_bugs, st) :=
        run_kind "visible" test_type visible_dirs st in
      let visible_output := default "" visible_run in
      let acc :=
        match visible_run with
        | Some output => mkTotals (total_cost_usd acc) (total_usage acc) (Some output)
        | None => acc
        end in
      let '(hidden_run, hidden_infra_bugs, st) :=
        run_kind "hidden" test_type hidden_dirs st in
      let hidden_output := default "" hidden_run in
      let infra_bugs := visible_infra_bugs ++ hidden_infra_bugs in
      if negb (Outcome.list_truthy infra_bugs) then
        let '(vis_passed, vis_failed) := Outcome.parse_pytest_summary visible_output in
        let '(hid_passed, hid_failed) := Outcome.parse_pytest_summary hidden_output in
        let st := emit (SeedBaseline vis_passed vis_failed hid_passed hid_failed) st in
        let st :=
          match save_results_to, latest_visible_output acc with
          | Some path, Some output =>
              if PyStr.truthy output
              then emit (Saved path output)
                        (mkState (<[path := output]> (files st)) (world st) (log st))
              else st
          | _, _ => st
          end in
        ((true, total_cost_usd acc, total_usage acc), st)
      else if (Z.of_nat attempt <? max_fix_attempts)%Z then
        let '((success, fix_cost, fix_usage), fs, w) :=
          fix_infrastructure_bugs test_dirs infra_bugs (files st) (world st) in
        let st := emit (CalledFixer test_dirs infra_bugs (success, fix_cost, fix_usage))
                       (mkState fs w (log st)) in
        attempts test_type visible_dirs hidden_dirs test_dirs max_fix_attempts
          save_results_to todo'
          (mkTotals (total_cost_usd acc + fix_cost)%Q
                    (Compile.usage_add (total_usage acc) fix_usage)
                    (latest_visible_output acc)) st
      else ((false, total_cost_usd acc, total_usage acc), st)
  end.

(** [validate_generated_tests]: [(success, cost_usd, usage_tokens)]. *)
Definition validate_generated_tests (spec_path test_type : string)
    (output_version : option string) (max_fix_attempts : Z)
    (save_results_to : option string) (st : state W)
    : (bool * Q * Compile.usage) * state W :=
  let visible_dirs := get_test_dirs spec_path "visible" output_version in
  let hidden_dirs := get_test_dirs spec_path "hidden" output_version in
  let test_dirs :=
    if String.eqb test_type "visible" then visible_dirs
    else if String.eqb test_type "hidden" then hidden_dirs
    else visible_dirs ++ hidden_dirs in
  if negb (Outcome.list_truthy test_dirs) then ((true, 0%Q, Compile.usage_zero), st)
  else
    attempts test_type visible_dirs hidden_dirs test_dirs max_fix_attempts
      save_results_to (seq 1 (Z.to_nat max_fix_attempts))
      (mkTotals 0 Compile.usage_zero None) st.

End Validate.

Definition default_max_fix_attempts : Z := 3.

End TestSmith.

(** ** Reading the log of a validation *)

Module ValidateSpec.

Import TestSmith.

Definition is_run (e : event) : bool :=
  match e with RanPytest _ _ => true | _ => false end.

Definition is_fix (e : event) : bool :=
  match e with CalledFixer _ _ _ => true | _ => false end.

(** The infrastructure bugs the classifier finds in the output of a
    run. *)
Definition bugs_of (e : event) : list string :=
  match e with
  | RanPytest _ output => fst (Outcome.classify_test_failures output)
  | _ => []
  end.

(** The infrastructure bugs of the runs since the last call of the
    fixer, starting from [pending]. *)
Fixpoint pending_bugs (pending : list string) (evs : list event) : list string :=
  match evs with
  | [] => pending
  | CalledFixer _ _ _ :: evs' => pending_bugs [] evs'
  | e :: evs' => pending_bugs (pending ++ bugs_of e) evs'
  end.

(** Every call of the fixer is given the test directories and the
    infrastructure bugs of the runs since the call before it, and there is
    at least one such bug. *)
Fixpoint fixer_fed (test_dirs pending : list string) (evs : list event) : Prop :=
  match evs with
  | [] => True
  | CalledFixer dirs bugs _ :: evs' =>
      dirs = test_dirs /\ bugs = pending /\ bugs <> [] /\ fixer_fed test_dirs [] evs'
  | e :: evs' => fixer_fed test_dirs (pending ++ bugs_of e) evs'
  end.

(** The sum of the costs the fixer reported, from [c] on. *)
Fixpoint fix_costs (c : Q) (evs : list event) : Q :=
  match evs with
  | [] => c
  | CalledFixer _ _ (_, cost, _) :: evs' => fix_costs (c + cost)%Q evs'
  | _ :: evs' => fix_costs c evs'
  end.

(** The output of the last run with the marker [kind]. *)
Fixpoint last_output (kind : string) (found : option string) (evs : list event)
    : option string :=
  match evs with
  | [] => found
  | RanPytest cmd output :: evs' =>
      last_output kind
        (if bool_decide (nth_error cmd 8 = Some kind) then Some output else found) evs'
  | _ :: evs' => last_output kind found evs'
  end.

(** How many events of a kind a log has. *)
Definition count (f : event -> bool) (evs : list event) : nat :=
  length (List.filter f evs).

(** The event and the infrastructure bugs of one run of an attempt, by
    its output ([None]: nothing was run). *)
Definition run_events (kind : string) (dirs : list string)
    (o : option string) : list event :=
  match o with
  | Some output => [RanPytest (pytest_cmd kind dirs) output]
  | None => []
  end.

Definition run_bugs (o : option string) : list string :=
  match o with
  | Some output => fst (Outcome.classify_test_failures output)
  | None => []
  end.

(** A scripted validation: the first visible run reports a test whose
    fixture is missing, the fixer is called, the second run reports an
    assertion failure only. *)
Definition sample_exists (dir : string) : bool :=
  String.eqb dir "tests_visible/core/supportops/v1".

Definition broken_report : string :=
  "FAILED tests_visible/core/supportops/v1/test_a.py::test_a" +:+ PyStr.nl +:+
  "E   fixture 'runner' not found".

Definition failing_report : string :=
  "FAILED tests_visible/core/supportops/v1/test_a.py::test_a" +:+ PyStr.nl +:+
  "E   assert 'DENY' == 'ALLOW'" +:+ PyStr.nl +:+ "1 failed, 2 passed".

Definition sample_pytest (cmd : list string) (fs : gmap string string) (w : nat)
    : (string * string * Z) * nat :=
  ((if (w =? 0)%nat then broken_report else failing_report, "", 1%Z), S w).

Definition sample_fixer (test_dirs bugs : list string) (fs : gmap string string)
    (w : nat) : (fix_result * gmap string string) * nat :=
  (((true, (5 # 100)%Q, Compile.usage_zero), fs), S w).

Definition sample_state : state nat := mkState ∅ 0%nat [].

Definition sample_validation : (bool * Q * Compile.usage) * state nat :=
  validate_generated_tests sample_exists sample_pytest sample_fixer
    "specs/core/supportops/v1/spec.yaml" "visible" (Some "v1")
    default_max_fix_attempts (Some "results/seed.txt") sample_state.

End ValidateSpec.

(** ** The report given to a session *)

Module InitialSpec.

Import Compile.

(** The report that stands for the first run of the suite: the text of
    the file named by [--initial-results], when the option is given, the
    file exists and the text is not empty. *)
Definition initial_report (fs : gmap string string) (initial_results : option string)
    : option string :=
  match initial_results with
  | Some path =>
      if PyStr.truthy path then
        match fs !! path with
        | Some content => if PyStr.truthy content then Some content else None
        | None => None
        end
      else None
  | None => None
  end.

(** A session that starts from the report [CompileSpec.report_B] saved
    by the validation of the tests. *)
Definition seeded_state : state nat :=
  mkState (<["results/seed.txt" := CompileSpec.report_B]>
             (<[CompileSpec.sample_prompt := "PROMPT"]> ∅)) 0%nat [].

Definition seeded_session : (exn + Z) * state nat :=
  compile_loop CompileSpec.always_failing CompileSpec.quiet_agent
    CompileSpec.sample_prompt "pytest tests_visible"
    default_max_iters default_inner_loop_threshold default_max_inner_iters
    (Some "results/seed.txt") seeded_state.

End InitialSpec.

(** ** [tdadlib/mutationsmith/probe.py]: the activation probe *)

Module Probe.

Inductive exn : Type :=
| ValueError      (* unknown spec name *)
| SpecError       (* [load_spec] raised *)
| IndexError.     (* raised by [evaluate_violation] *)

(** The four fixture classes of [tdadlib/harness/fixtures]. *)
Inductive FixtureClass : Type :=
| SupportOpsFixture
| DataInsightsFixture
| IncidentRunbookFixture
| ExpenseGuardFixture.

(** A fixture object, as far as [_build_fixture_from_case] sees it: its
    class and the attributes the function tests with [hasattr]; [None]
    is an attribute the object does not have.  The other attributes keep
    the defaults of the class. *)
Record fixture : Type := mkFixture {
  fixture_class : FixtureClass;
  verified : option bool;
  can_cancel : option bool;
  sql_error : option (option string);
  sql_row_count : option Z;
  severity : option string;
  expense_amount : option Q
}.

(** [FixtureClass()] *)
Definition new_fixture (c : FixtureClass) : fixture :=
  match c with
  | SupportOpsFixture =>
      mkFixture c (Some true) (Some true) None None None None
  | DataInsightsFixture =>
      mkFixture c None None (Some None) (Some 5%Z) None None
  | IncidentRunbookFixture =>
      mkFixture c None None None None (Some "SEV2") None
  | ExpenseGuardFixture =>
      mkFixture c None None None None None None
  end.

(** [_get_fixture_builder] *)
Definition _get_fixture_builder (spec_name : string) : exn + FixtureClass :=
  let spec_name := Compile.lower spec_name in
  if String.eqb spec_name "supportops" then inr SupportOpsFixture
  else if String.eqb spec_name "datainsights" then inr DataInsightsFixture
  else if String.eqb spec_name "incidentrunbook" then inr IncidentRunbookFixture
  else if String.eqb spec_name "expenseguard" then inr ExpenseGuardFixture
  else inl ValueError.

(** Attribute assignments [fx.attr = v]. *)
Definition set_verified (v : bool) (fx : fixture) : fixture :=
  mkFixture (fixture_class fx) (Some v) (can_cancel fx) (sql_error fx)
    (sql_row_count fx) (severity fx) (expense_amount fx).

Definition set_can_cancel (v : bool) (fx : fixture) : fixture :=
  mkFixture (fixture_class fx) (verified fx) (Some v) (sql_error fx)
    (sql_row_count fx) (severity fx) (expense_amount fx).

Definition set_sql_error (v : option string) (fx : fixture) : fixture :=
  mkFixture (fixture_class fx) (verified fx) (can_cancel fx) (Some v)
    (sql_row_count fx) (severity fx) (expense_amount fx).

Definition set_sql_row_count (v : Z) (fx : fixture) : fixture :=
  mkFixture (fixture_class fx) (verified fx) (can_cancel fx) (sql_error fx)
    (Some v) (severity fx) (expense_amount fx).

Definition set_severity (v : string) (fx : fixture) : fixture :=
  mkFixture (fixture_class fx) (verified fx) (can_cancel fx) (sql_error fx)
    (sql_row_count fx) (Some v) (expense_amount fx).

Definition set_expense_amount (v : Q) (fx : fixture) : fixture :=
  mkFixture (fixture_class fx) (verified fx) (can_cancel fx) (sql_error fx)
    (sql_row_count fx) (severity fx) (Some v).

(** The blocks of [_build_fixture_from_case], in their order; [has word]
    is [word in case_lower]. *)
Definition supportops_cases (has : string -> bool) (fx : fixture) : fixture :=
  if bool_decide (is_Some (verified fx)) then
    if has "without_auth" then set_verified true fx
    else if has "ineligible_plan" then set_can_cancel false fx
    else fx
  else fx.

Definition datainsights_cases (has : string -> bool) (fx : fixture) : fixture :=
  let fx :=
    if bool_decide (is_Some (sql_error fx)) then
      if has "sql_error" then set_sql_error (Some "Query execution failed: timeout") fx
      else fx
    else fx in
  if bool_decide (is_Some (sql_row_count fx)) then
    if has "empty_results" then set_sql_row_count 0 fx else fx
  else fx.

Definition incidentrunbook_cases (has : string -> bool) (fx : fixture) : fixture :=
  if bool_decide (is_Some (severity fx)) then
    if has "high_severity" || has "sev1" then set_severity "SEV1" fx
    else if has "sev2" then set_severity "SEV2" fx
    else if has "sev3" || has "minor" || has "low_severity" then set_severity "SEV3" fx
    else fx
  else fx.

Definition expenseguard_cases (has : string -> bool) (fx : fixture) : fixture :=
  if bool_decide (is_Some (expense_amount fx)) then
    if has "over_limit" then set_expense_amount (10000 # 1)%Q fx else fx
  else fx.

(** [_build_fixture_from_case] *)
Definition _build_fixture_from_case (c : FixtureClass) (case_name : string) : fixture :=
  let fx := new_fixture c in
  let case_lower := Compile.lower case_name in
  let has (word : string) : bool := PyStr.contains word case_lower in
  let fx := supportops_cases has fx in
  let fx := datainsights_cases has fx in
  let fx := incidentrunbook_cases has fx in
  let fx := expenseguard_cases has fx in
  fx.

(** An entry of the [tools] list of a spec and the spec, as far as the
    probe reads them. *)
Record tool_entry : Type := mkTool {
  t_name : option string;
  t_input_schema : option json;
  t_description : option string
}.

Record spec : Type := mkSpec {
  tools : option (list tool_entry)
}.

(** The [activation_probe] entry of a mutation. *)
Record probe_spec (Turn : Type) : Type := mkProbeSpec {
  case : option string;
  user_turns : option (list Turn);
  expect_violation : option Predicates.predicate
}.
Arguments mkProbeSpec {Turn}.
Arguments case {Turn}.
Arguments user_turns {Turn}.
Arguments expect_violation {Turn}.

(** What the probe reads of a [TurnResult]. *)
Record TurnResult : Type := mkTurnResult {
  assistant_text : string;
  assistant_json : list (string * json)
}.

Inductive probe_reason : Type :=
| NoUserTurns
| AgentExecutionError
| NoResults
| Evaluated (reason_text : Predicates.reason_text).

Record ProbeResult : Type := mkProbeResult {
  pr_activated : bool;
  pr_reason : probe_reason;
  pr_trace : ToolTrace;
  pr_assistant_text : string;
  pr_assistant_json : option (list (string * json))
}.

(** Truthiness of [tool.get(key)]. *)
Definition truthy_str (o : option string) : option string :=
  match o with
  | Some s => if PyStr.truthy s then Some s else None
  | None => None
  end.

Definition truthy_json (o : option json) : option json :=
  match o with
  | Some v => if PromptLoader.json_truthy v then Some v else None
  | None => None
  end.

(** One turn of the loop of [_get_tool_info_from_spec]. *)
Definition tool_info_step
    (acc : gmap string json * gmap string string * list string) (tool : tool_entry)
    : gmap string json * gmap string string * list string :=
  let '(schemas, descriptions, allowed) := acc in
  match truthy_str (t_name tool) with
  | Some n =>
      (match truthy_json (t_input_schema tool) with
       | Some schema => <[n := schema]> schemas
       | None => schemas
       end,
       match truthy_str (t_description tool) with
       | Some description => <[n := description]> descriptions
       | None => descriptions
       end,
       allowed ++ [n])
  | None => acc
  end.

Definition _get_tool_info_from_spec (s : spec)
    : gmap string json * gmap string string * list string :=
  fold_left tool_info_step (default [] (tools s)) (∅, ∅, []).

(** The last element of a non-empty list ([results[-1]]). *)
Definition last_turn (results : list TurnResult) : option TurnResult := last results.

Section Probe.

Context {W Turn : Type}.

(** [list(tool_impls.keys())] for the tools [build_tools] builds on a
    fixture. *)
Variable tool_names : fixture -> list string.
(** [spec_path.exists()] and [load_spec(spec_path)]: [None] when the file
    does not exist, [Some None] when loading it raises. *)
Variable read_spec : string -> W -> option (option spec).
(** [run_agent_conversation] on the tools [build_tools] builds on a new
    trace and the fixture: the results, [None] when it raises, and that
    trace as the tools leave it.  The arguments are the system prompt, the
    user turns, the server alias, the fixture, the allowed tools, the tool
    schemas and the tool descriptions. *)
Variable run_agent_conversation :
  string -> list Turn -> string -> fixture -> list string ->
  gmap string json -> gmap string string ->
  W -> (option (list TurnResult) * ToolTrace) * W.

Definition _run_probe_async (system_prompt : string) (probe : probe_spec Turn)
    (spec_name : string) (spec_path : option string)
    (tool_description_overrides : list (string * string)) (w : W)
    : (exn + ProbeResult) * W :=
  match _get_fixture_builder spec_name with
  | inl e => (inl e, w)
  | inr FixtureClass_ =>
    let case_name := default "default" (case probe) in
    let fixture_ := _build_fixture_from_case FixtureClass_ case_name in
    match default [] (user_turns probe) with
    | [] => (inr (mkProbeResult false NoUserTurns [] "" None), w)
    | turns =>
        let loaded :=
          match spec_path with
          | Some path => read_spec path w
          | None => None
          end in
        match loaded with
        | Some None => (inl SpecError, w)
        | _ =>
            let '(tool_schemas, tool_descriptions, allowed_tools) :=
              match loaded with
              | Some (Some s) => _get_tool_info_from_spec s
              | _ => (∅, ∅, tool_names fixture_)
              end in
            let tool_descriptions :=
              match tool_description_overrides with
              | [] => tool_descriptions
              | overrides => list_to_map overrides ∪ tool_descriptions
              end in
            let '((results, trace), w) :=
              run_agent_conversation system_prompt turns (Compile.lower spec_name)
                fixture_ allowed_tools tool_schemas tool_descriptions w in
            match results with
            | None => (inr (mkProbeResult false AgentExecutionError trace "" None), w)
            | Some results =>
                match last_turn results with
                | None => (inr (mkProbeResult false NoResults trace "" None), w)
                | Some last_ =>
                    match Predicates.evaluate_violation
                            (default (Predicates.mkPredicate None None None)
                                     (expect_violation probe))
                            trace (assistant_text last_)
                            (Some (assistant_json last_)) with
                    | inl _ => (inl IndexError, w)
                    | inr (activated_, reason_) =>
                        (inr (mkProbeResult activated_ (Evaluated reason_) trace
                                (assistant_text last_)
                                (Some (assistant_json last_))), w)
                    end
                end
            end
        end
    end
  end.

(** [run_activation_probe_with_prompt]: [asyncio.run] of the above. *)
Definition run_activation_probe_with_prompt :
    string -> probe_spec Turn -> string -> option string ->
    list (string * string) -> W -> (exn + ProbeResult) * W :=
  _run_probe_async.

(** The call of the mutation engine:
    [try: activated = run_activation_probe_with_prompt(...).activated
     except Exception: activated = False], as the engine's collaborator
    ([None] when the probe raised). *)
Definition engine_probe (system_prompt : string) (probe : probe_spec Turn)
    (spec_name : string) (spec_path : option string)
    (tool_description_overrides : list (string * string)) (w : W)
    : option bool * W :=
  let '(r, w) := run_activation_probe_with_prompt system_prompt probe spec_name
                   spec_path tool_description_overrides w in
  (match r with
   | inr result_ => Some (pr_activated result_)
   | inl _ => None
   end, w).

End Probe.

(** The predicate object of a probe: [probe_spec.get("expect_violation", {})]. *)
Definition expected {Turn : Type} (probe : probe_spec Turn) : Predicates.predicate :=
  default (Predicates.mkPredicate None None None) (expect_violation probe).

End Probe.

(** ** Scripted probes for examples *)

Module ProbeSamples.

Import Probe.

(** A probe that lists its turns and expects nothing. *)
Definition probe_without_expectation : probe_spec string :=
  mkProbeSpec (Some "cancel_without_auth") (Some ["Cancel my order 123"]) None.

(** A probe that expects a cancellation without verification. *)
Definition probe_skipping_verification : probe_spec string :=
  mkProbeSpec (Some "cancel_without_auth") (Some ["Cancel my order 123"])
    (Some PredicateSamples.skipped_verification).

Definition mutation_of (probe : probe_spec string) : Mutation.mutation (probe_spec string) :=
  Mutation.mkMutation "M7" (Some "high") None "skip verification" probe.

Definition sample_tool_names (fx : fixture) : list string :=
  ["verify_identity"; "lookup_order"; "cancel_order"; "respond"].

Definition no_spec (path : string) (w : nat) : option (option spec) := None.

(** An agent that cancels at once. *)
Definition sample_conversation (system_prompt : string) (turns : list string)
    (alias : string) (fx : fixture) (allowed : list string) (schemas : gmap string json)
    (descriptions : gmap string string) (w : nat)
    : (option (list TurnResult) * ToolTrace) * nat :=
  ((Some [mkTurnResult PredicateSamples.sample_text [("decision", JStr "CANCEL")]],
    PredicateSamples.sample_trace), S w).

Definition sample_run (probe : probe_spec string)
    : option MutationResult * Mutation.state nat :=
  Mutation.run_mutation_test MutationSpec.sample_generate
    (engine_probe sample_tool_names no_spec sample_conversation)
    MutationSpec.sample_run_tests MutationSpec.sample_temp_name
    MutationSpec.sample_yaml_dump "." "SupportOps" (mutation_of probe) "ORIGINAL"
    [("cancel_order", "Cancel an order.")]
    MutationSpec.sample_config MutationSpec.sample_prompt_path "pytest" None "v1"
    MutationSpec.sample_state.

(** The result of the scripted run on the second probe. *)
Definition activated_result : MutationResult :=
  mkResult "M7" "high" "unknown" "skip verification" true true 1 "1 failed".

End ProbeSamples.

(** ** [tdadlib/mutationsmith/generator.py]: reading the model's reply *)

Module Generator.

Inductive exn : Type := AttributeError.

(** [s[n:]] *)
Fixpoint drop (n : nat) (s : string) : string :=
  match n, s with
  | O, _ => s
  | S _, EmptyString => EmptyString
  | S n', String _ s' => drop n' s'
  end.

(** [s[:n]] for [0 <= n] *)
Fixpoint take (n : nat) (s : string) : string :=
  match n, s with
  | O, _ => EmptyString
  | S _, EmptyString => EmptyString
  | S n', String c s' => String c (take n' s')
  end.

(** [s.endswith(p)]: [p] is a suffix of [s]. *)
Fixpoint endswith (p s : string) : bool :=
  String.eqb p s ||
  match s with
  | EmptyString => false
  | String _ s' => endswith p s'
  end.

(** The reply as [json.loads] decodes it, when it is an object: the
    value of ["prompt"] and of ["tool_descriptions"], [None] for a
    missing key. *)
Record reply : Type := mkReply {
  r_prompt : option string;
  r_tool_descriptions : option (list (string * string))
}.

(** The removal of the markdown code fence:
    [response_text.strip()], the three [if]s and the last [strip]. *)
Definition response_clean (response_text : string) : string :=
  let response_clean := PyStr.strip response_text in
  let response_clean :=
    if PyStr.startswith "```json" response_clean then drop 7 response_clean
    else response_clean in
  let response_clean :=
    if PyStr.startswith "```" response_clean then drop 3 response_clean
    else response_clean in
  let response_clean :=
    if endswith "```" response_clean
    then take (String.length response_clean - 3) response_clean
    else response_clean in
  PyStr.strip response_clean.

Section Parse.

(** [json.loads]: [None] is [JSONDecodeError], [Some None] a value that
    is not an object. *)
Variable json_loads : string -> option (option reply).

(** The [try] block of [_generate_mutant_async] and the [return] after
    it; [tool_descriptions] is [None] or a dict. *)
Definition parse_response (base_prompt : string)
    (tool_descriptions_ : option (list (string * string))) (response_text : string)
    : exn + MutantArtifacts :=
  match json_loads (response_clean response_text) with
  | Some (Some data) =>
      let mutant_prompt := default base_prompt (r_prompt data) in
      let mutant_tool_desc :=
        default (default [] tool_descriptions_) (r_tool_descriptions data) in
      inr (mkArtifacts mutant_prompt mutant_tool_desc)
  | Some None =>
      (* data.get on a value that is not a dict *)
      inl AttributeError
  | None =>
      (* except json.JSONDecodeError *)
      inr (mkArtifacts (PyStr.strip response_text) (default [] tool_descriptions_))
  end.

End Parse.

End Generator.

(** ** [tdadlib/runtime/runner.py]: tool names *)

Module Runner.

(** [_normalize_allowed_tools]: the loop appends one name per name. *)
Definition _normalize_allowed_tools (allowed_tools : list string) (server_alias : string)
    : list string :=
  fold_left
    (fun normalized name =>
       if PyStr.startswith "mcp__" name then normalized ++ [name]
       else normalized ++ ["mcp__" +:+ server_alias +:+ "__" +:+ name])
    allowed_tools [].

End Runner.

(** ** Replies for examples *)

Module GeneratorSpec.

(** A string of white space only. *)
Fixpoint blank (s : string) : bool :=
  match s with
  | EmptyString => true
  | String c s' => PyStr.isspace c && blank s'
  end.

Definition sample_loads (s : string) : option (option Generator.reply) :=
  if String.eqb s "{}" then Some (Some (Generator.mkReply None None)) else None.

End GeneratorSpec.

(** ** What a spec says of one tool name *)

Module ToolInfoSpec.

Import Probe.

(** The name under which the loop of [_get_tool_info_from_spec] files an
    entry, if any. *)
Definition filed_as (t : tool_entry) : option string := truthy_str (t_name t).

(** The description, and the schema, an entry gives for the name [n]. *)
Definition describes (n : string) (t : tool_entry) : option string :=
  if bool_decide (filed_as t = Some n) then truthy_str (t_description t) else None.

Definition specifies (n : string) (t : tool_entry) : option json :=
  if bool_decide (filed_as t = Some n) then truthy_json (t_input_schema t) else None.

End ToolInfoSpec.

(** ** The outer phase of the convergence loop *)

Module PhaseSpec.


End PhaseSpec.

(** ** The writes of a mutation run *)

Module FrameSpec.

Import Mutation.

(** A write of the text [c] to the path [p] is a cache write of the run:
    the path is [cache_dir / "<id>_attempt<k>.txt"] and the text is the
    prompt of the variant that the generator returned on attempt [k]. *)
Definition cache_write {Probe : Type} (cache_dir : option string)
    (mutation_ : mutation Probe) (evs : list event) (p c : string) : Prop :=
  exists d k m,
    cache_dir = Some d
    /\ p = cache_file d (m_id mutation_) k
    /\ c = prompt m
    /\ In (Generated k (Some m)) evs.

(** The path [p] is a temporary file of the run: a name that
    [NamedTemporaryFile] gave, removed by the run. *)
Definition temporary {W : Type}
    (temp_name : string -> gmap string string -> W -> string * W)
    (evs : list event) (p : string) : Prop :=
  (exists suffix fs w, p = (temp_name suffix fs w).1) /\ In (Unlinked p) evs.

End FrameSpec.

(** * Properties *)

(** ** The trace-order clause *)

Module OrderFacts.

Import Predicates.

Lemma first_seen_absent_a (a b : string) (es : list (nat * string))
    (acc : option nat * option nat) :
  acc.1 = None ->
  Forall (fun e => e.2 <> a) es ->
  (fold_left (first_seen a b) es acc).1 = None.
Proof.
  revert acc. induction es as [|[i n] es IH]; intros [ia ib] Hacc Hes; simpl in *.
  - exact Hacc.
  - inversion Hes as [|? ? Hn Hes']; subst. simpl in Hn.
    apply IH; [|exact Hes'].
    destruct (String.eqb_spec n a) as [->|_]; [congruence|].
    simpl. destruct (String.eqb n b), ib; reflexivity.
Qed.

Lemma first_seen_absent_b (a b : string) (es : list (nat * string))
    (acc : option nat * option nat) :
  acc.2 = None ->
  Forall (fun e => e.2 <> b) es ->
  (fold_left (first_seen a b) es acc).2 = None.
Proof.
  revert acc. induction es as [|[i n] es IH]; intros [ia ib] Hacc Hes; simpl in *.
  - exact Hacc.
  - inversion Hes as [|? ? Hn Hes']; subst. simpl in Hn.
    apply IH; [|exact Hes'].
    destruct (String.eqb_spec n b) as [->|_]; [congruence|].
    simpl. reflexivity.
Qed.

Lemma enumerate_snd {A : Type} (P : A -> Prop) (l : list A) (k : nat) :
  (forall x, In x l -> P x) ->
  Forall (fun e : nat * A => P e.2) (combine (seq k (length l)) l).
Proof.
  revert k. induction l as [|x l IH]; intros k H; simpl.
  - constructor.
  - constructor; [apply H; left; reflexivity|].
    apply IH. intros y Hy. apply H. right. exact Hy.
Qed.

Lemma order_violation_missing (t : ToolTrace) (a b : string) :
  ~ In a (Trace.names t) \/ ~ In b (Trace.names t) ->
  _check_trace_order_violation t [a; b] = false.
Proof.
  intros H. unfold _check_trace_order_violation, enumerate.
  destruct (fold_left _ _ _) as [ia ib] eqn:E.
  destruct H as [H|H].
  - assert (Ha : (fold_left (first_seen a b)
                    (combine (seq 0 (length (Trace.names t))) (Trace.names t))
                    (None, None)).1 = None).
    { apply first_seen_absent_a; [reflexivity|].
      apply (enumerate_snd (fun x => x <> a)). intros x Hx ->. exact (H Hx). }
    rewrite E in Ha. simpl in Ha. subst ia. reflexivity.
  - assert (Hb : (fold_left (first_seen a b)
                    (combine (seq 0 (length (Trace.names t))) (Trace.names t))
                    (None, None)).2 = None).
    { apply first_seen_absent_b; [reflexivity|].
      apply (enumerate_snd (fun x => x <> b)). intros x Hx ->. exact (H Hx). }
    rewrite E in Hb. simpl in Hb. subst ib. destruct ia; reflexivity.
Qed.

Lemma order_violation_a_first (t : ToolTrace) (a x b : string) :
  Trace.names t = [a; x; b] -> a <> b ->
  _check_trace_order_violation t [a; b] = true.
Proof.
  intros Hn Hab. unfold _check_trace_order_violation, enumerate. rewrite Hn.
  cbn [length seq combine fold_left first_seen].
  rewrite !String.eqb_refl.
  destruct (String.eqb_spec a b) as [?|_]; [contradiction|].
  destruct (String.eqb_spec b a) as [?|_]; [congruence|].
  destruct (String.eqb x a), (String.eqb x b); reflexivity.
Qed.

Lemma order_violation_b_first (t : ToolTrace) (a x b : string) :
  Trace.names t = [b; x; a] ->
  _check_trace_order_violation t [a; b] = false.
Proof.
  intros Hn. unfold _check_trace_order_violation, enumerate. rewrite Hn.
  cbn [length seq combine fold_left first_seen].
  rewrite !String.eqb_refl.
  destruct (String.eqb b a), (String.eqb a b), (String.eqb x a), (String.eqb x b);
    reflexivity.
Qed.

End OrderFacts.

Module OrderProperties.

Import Predicates.

(** C1, as the code has it: [order_violation(A, B)] reports that [A] came
    before [B].  On a trace whose names are [A, X, B] (with [A] and [B]
    distinct) it is [true]; on a trace whose names are [B, X, A] it is
    [false]; on a trace that lacks [A] or lacks [B] it is [false]. *)
Theorem order_violation_reports_a_before_b (t : ToolTrace) (a x b : string) :
  (Trace.names t = [a; x; b] -> a <> b ->
   _check_trace_order_violation t [a; b] = true) /\
  (Trace.names t = [b; x; a] ->
   _check_trace_order_violation t [a; b] = false) /\
  (~ In a (Trace.names t) \/ ~ In b (Trace.names t) ->
   _check_trace_order_violation t [a; b] = false).
Proof.
  split; [|split].
  - apply OrderFacts.order_violation_a_first.
  - apply OrderFacts.order_violation_b_first.
  - apply OrderFacts.order_violation_missing.
Qed.

Lemma order_violation_reports_a_before_b_witness :
  _check_trace_order_violation (Trace.of_names ["A"; "X"; "B"]) ["A"; "B"] = true /\
  _check_trace_order_violation (Trace.of_names ["B"; "X"; "A"]) ["A"; "B"] = false /\
  _check_trace_order_violation (Trace.of_names ["B"; "X"]) ["A"; "B"] = false.
Proof.
  split; [|split].
  - apply (proj1 (order_violation_reports_a_before_b
                    (Trace.of_names ["A"; "X"; "B"]) "A" "X" "B"));
      [reflexivity | discriminate].
  - apply (proj1 (proj2 (order_violation_reports_a_before_b
                           (Trace.of_names ["B"; "X"; "A"]) "A" "X" "B"))).
    reflexivity.
  - apply (proj2 (proj2 (order_violation_reports_a_before_b
                           (Trace.of_names ["B"; "X"]) "A" "X" "B"))).
    left. simpl. intros [H|[H|[]]]; discriminate.
Defined.

(** The two answers at the inputs of the specification's test property:
    on [A, X, B] the code answers [true], on [B, X, A] it answers [false]. *)
Lemma order_violation_on_AXB_and_BXA :
  _check_trace_order_violation (Trace.of_names ["A"; "X"; "B"]) ["A"; "B"] = true /\
  _check_trace_order_violation (Trace.of_names ["B"; "X"; "A"]) ["A"; "B"] = false.
Proof. split; reflexivity. Qed.

End OrderProperties.

(** ** The predicate evaluator *)

Module PredicateFacts.

Import Predicates PredicateSpec.

Lemma warn_keeps (ns : namespace) (u : gset string) (st : ev_state) :
  all_passed (warn ns u st) = all_passed st
  /\ predicates_checked (warn ns u st) = predicates_checked st.
Proof. unfold warn. case_bool_decide; split; reflexivity. Qed.

Lemma eval_called_adds (tr : ToolTrace) (ts : trace_spec) (st : ev_state) :
  adds (called ts) (_check_trace_called tr) st (eval_called tr ts st).
Proof.
  unfold adds, eval_called.
  step_adds.
Qed.

Lemma eval_not_called_adds (tr : ToolTrace) (ts : trace_spec) (st : ev_state) :
  adds (not_called ts) (_check_trace_not_called tr) st (eval_not_called tr ts st).
Proof.
  unfold adds, eval_not_called.
  step_adds.
Qed.

Lemma eval_contains_any_adds (tx : string) (xs : text_spec) (st : ev_state) :
  adds (contains_any xs) (_check_text_contains_any tx) st (eval_contains_any tx xs st).
Proof.
  unfold adds, eval_contains_any.
  step_adds.
Qed.

Lemma eval_not_contains_any_adds (tx : string) (xs : text_spec) (st : ev_state) :
  adds (not_contains_any xs) (_check_text_not_contains_any tx) st
       (eval_not_contains_any tx xs st).
Proof.
  unfold adds, eval_not_contains_any.
  step_adds.
Qed.

Lemma eval_field_equals_adds (d : list (string * json)) (js : json_spec) (st : ev_state) :
  adds (field_equals js) (field_equals_holds d) st (eval_field_equals d js st).
Proof.
  unfold adds, eval_field_equals, field_equals_holds.
  step_adds.
Qed.

Lemma eval_field_in_adds (d : list (string * json)) (js : json_spec) (st : ev_state) :
  adds (field_in js) (field_in_holds d) st (eval_field_in d js st).
Proof.
  unfold adds, eval_field_in, field_in_holds.
  step_adds.
Qed.

(** The order check answers [false] on a list that is not a pair. *)
Lemma order_check_short (tr : ToolTrace) (l : list string) :
  (length l < 2)%nat -> _check_trace_order_violation tr l = false.
Proof. destruct l as [|a [|b l]]; simpl; intros; try reflexivity; lia. Qed.

Lemma eval_order_adds (tr : ToolTrace) (ts : trace_spec) (st : ev_state) :
  match eval_order tr ts st with
  | inr st' => adds (order_violation ts) (order_clause_checked tr) st st'
  | inl _ => holds_if_present (order_violation ts) (order_clause_checked tr) = false
  end.
Proof.
  unfold eval_order, adds, order_clause_checked.
  destruct (order_violation ts) as [o|]; simpl.
  2:{ split; [rewrite andb_true_r; reflexivity | lia]. }
  destruct (must_not_happen o) as [l|]; simpl.
  2:{ split; [rewrite andb_true_r; reflexivity | lia]. }
  unfold index.
  destruct l as [|a [|b l]]; cbn [nth_error]; try reflexivity.
  generalize (_check_trace_order_violation tr (a :: b :: l)).
  intros [|]; simpl; split;
    rewrite ?andb_true_r, ?andb_false_r; try reflexivity; lia.
Qed.

Lemma close_passed (st : ev_state) :
  all_passed (close st) = (0 <? predicates_checked st)%nat && all_passed st.
Proof. unfold close. destruct (predicates_checked st); reflexivity. Qed.

(** The evaluator's answer, for every predicate object: at least one
    supported key, and every check the evaluator runs answers [true]. *)
Lemma activated_is_checked (p : predicate) (tr : ToolTrace) (tx : string)
    (js : option (list (string * json))) :
  activated_of (evaluate_violation p tr tx js)
  = (0 <? supported_clauses p)%nat && clauses_checked p tr tx js.
Proof.
  unfold evaluate_violation, clauses_checked, clauses_with, supported_clauses.
  fold (trace_of p) (text_of p) (json_of p).
  set (s0 := mkEv [] true 0).
  destruct (warn_keeps NsTrace (trace_unknown (trace_of p)) s0) as [P1 C1].
  set (s1 := warn NsTrace (trace_unknown (trace_of p)) s0) in *.
  destruct (eval_called_adds tr (trace_of p) s1) as [P2 C2].
  set (s2 := eval_called tr (trace_of p) s1) in *.
  destruct (eval_not_called_adds tr (trace_of p) s2) as [P3 C3].
  set (s3 := eval_not_called tr (trace_of p) s2) in *.
  pose proof (eval_order_adds tr (trace_of p) s3) as H4.
  destruct (eval_order tr (trace_of p) s3) as [e|s4].
  { simpl. rewrite H4. symmetry. apply andb_false_intro2.
    rewrite andb_false_r. reflexivity. }
  destruct H4 as [P4 C4].
  destruct (warn_keeps NsText (text_unknown (text_of p)) s4) as [P5 C5].
  set (s5 := warn NsText (text_unknown (text_of p)) s4) in *.
  destruct (eval_contains_any_adds tx (text_of p) s5) as [P6 C6].
  set (s6 := eval_contains_any tx (text_of p) s5) in *.
  destruct (eval_not_contains_any_adds tx (text_of p) s6) as [P7 C7].
  set (s7 := eval_not_contains_any tx (text_of p) s6) in *.
  destruct (warn_keeps NsJson (json_unknown (json_of p)) s7) as [P8 C8].
  set (s8 := warn NsJson (json_unknown (json_of p)) s7) in *.
  destruct (eval_field_equals_adds (default [] js) (json_of p) s8) as [P9 C9].
  set (s9 := eval_field_equals (default [] js) (json_of p) s8) in *.
  destruct (eval_field_in_adds (default [] js) (json_of p) s9) as [P10 C10].
  set (s10 := eval_field_in (default [] js) (json_of p) s9) in *.
  simpl. rewrite close_passed.
  rewrite P10, P9, P8, P7, P6, P5, P4, P3, P2, P1.
  rewrite C10, C9, C8, C7, C6, C5, C4, C3, C2, C1.
  subst s0. simpl. rewrite !andb_assoc. reflexivity.
Qed.

(** When every [order_violation] entry carries its pair, the checks the
    evaluator runs are the clauses. *)
Lemma checked_is_hold (p : predicate) (tr : ToolTrace) (tx : string)
    (js : option (list (string * json))) :
  (forall o, order_violation (trace_of p) = Some o -> is_Some (must_not_happen o)) ->
  clauses_checked p tr tx js = clauses_hold p tr tx js.
Proof.
  intros H. unfold clauses_checked, clauses_hold, clauses_with.
  destruct (order_violation (trace_of p)) as [o|]; [|reflexivity].
  destruct (H o eq_refl) as [l Hl]. simpl.
  unfold order_clause_checked, order_clause_holds. rewrite Hl. reflexivity.
Qed.

End PredicateFacts.

Module PredicateProperties.

Import Predicates PredicateSpec.

(** C2, at the input where the code departs from it: the predicate
    [{"trace": {"order_violation": {}}}] has one clause with a supported
    key, and that clause does not hold (it names no pair); on every
    trace, text and structured response the evaluator still answers
    [activated = true], with the reason text "no predicates specified". *)
Theorem order_without_pair_activates (tr : ToolTrace) (tx : string)
    (js : option (list (string * json))) :
  evaluate_violation order_without_pair tr tx js = inr (true, NoPredicatesSpecified)
  /\ supported_clauses order_without_pair = 1%nat
  /\ clauses_hold order_without_pair tr tx js = false.
Proof. split; [|split]; reflexivity. Qed.

End PredicateProperties.

(** ** The failure classifier *)

Module OutcomeFacts.

Import Outcome OutcomeSpec.

(** Lines that are not headers only extend the error lines of a named
    current test. *)
Lemma fold_body (ls : list string) (st : cls_state) :
  Forall (fun l => is_header l = false) ls ->
  fold_left cls_step ls st =
  if test_truthy (current_test st)
  then mkCls (infrastructure_bugs st) (expected_failures st) (current_test st)
             (current_error_lines st ++ ls)
  else st.
Proof.
  intros H. revert st. induction H as [|l ls Hl _ IH]; intros st; simpl.
  - destruct st as [i e c ls0]; simpl. rewrite app_nil_r.
    destruct (test_truthy c); reflexivity.
  - rewrite IH. unfold cls_step. rewrite Hl.
    destruct (test_truthy (current_test st)) eqn:E; simpl.
    + rewrite E. rewrite <- app_assoc. reflexivity.
    + rewrite E. reflexivity.
Qed.

Lemma fold_block (b : block) (st : cls_state) :
  well_formed b ->
  fold_left cls_step (b.1 :: b.2) st =
  after_block (infrastructure_bugs (flush st)) (expected_failures (flush st)) b.
Proof.
  intros [Hh Hb]. simpl. rewrite (fold_body _ _ Hb).
  unfold cls_step. rewrite Hh. simpl. unfold after_block.
  fold (block_name b). destruct (PyStr.truthy (block_name b)); reflexivity.
Qed.

Lemma flush_after_block (i e : list string) (b : block) :
  infrastructure_bugs (flush (after_block i e b)) = i ++ filed_infra b
  /\ expected_failures (flush (after_block i e b)) = e ++ filed_behavioral b.
Proof.
  unfold flush, after_block, filed_infra, filed_behavioral, block_filed,
    block_infra, block_entry, block_error_text.
  simpl. destruct (PyStr.truthy (block_name b)) eqn:T; simpl.
  - destruct b.2 as [|l ls] eqn:B; simpl.
    + rewrite !app_nil_r. split; reflexivity.
    + destruct (is_infra_bug _); simpl; rewrite ?app_nil_r; split; reflexivity.
  - rewrite !app_nil_r. split; reflexivity.
Qed.

Lemma map_filter_cons {A B : Type} (f : A -> B) (c : A -> bool) (x : A) (l : list A) :
  map f (List.filter c (x :: l))
  = (if c x then [f x] else []) ++ map f (List.filter c l).
Proof. simpl. destruct (c x); reflexivity. Qed.

Lemma fold_blocks (bs : list block) (st : cls_state) :
  Forall well_formed bs ->
  let st' := flush (fold_left cls_step (lines_of bs) st) in
  infrastructure_bugs st'
  = infrastructure_bugs (flush st) ++ map block_entry (infra_blocks bs)
  /\ expected_failures st'
     = expected_failures (flush st) ++ map block_name (behavioral_blocks bs).
Proof.
  intros H. revert st. induction H as [|b bs Hb _ IH]; intros st.
  - simpl. rewrite !app_nil_r. split; reflexivity.
  - change (lines_of (b :: bs)) with ((b.1 :: b.2) ++ lines_of bs).
    cbv zeta. rewrite fold_left_app, (fold_block b st Hb).
    destruct (IH (after_block (infrastructure_bugs (flush st))
                              (expected_failures (flush st)) b)) as [Hi He].
    destruct (flush_after_block (infrastructure_bugs (flush st))
                                (expected_failures (flush st)) b) as [Fi Fe].
    rewrite Hi, He, Fi, Fe.
    unfold infra_blocks, behavioral_blocks.
    rewrite !map_filter_cons, <- !app_assoc. split; reflexivity.
Qed.

(** The two lists, block by block. *)
Lemma classify_lines_blocks (pre : list string) (bs : list block) :
  Forall (fun l => is_header l = false) pre ->
  Forall well_formed bs ->
  classify_lines (pre ++ lines_of bs)
  = (map block_entry (infra_blocks bs), map block_name (behavioral_blocks bs)).
Proof.
  intros Hpre Hbs. unfold classify_lines.
  rewrite fold_left_app, (fold_body _ _ Hpre). simpl.
  destruct (fold_blocks bs (mkCls [] [] None []) Hbs) as [Hi He].
  rewrite Hi, He. reflexivity.
Qed.

(** Every list of lines is its preamble followed by its blocks. *)
Lemma blocks_of_lines (lines : list string) :
  lines = (blocks_of lines).1 ++ lines_of (blocks_of lines).2
  /\ Forall (fun l => is_header l = false) (blocks_of lines).1
  /\ Forall well_formed (blocks_of lines).2.
Proof.
  induction lines as [|l ls (IH1 & IH2 & IH3)]; simpl.
  - repeat constructor.
  - destruct (blocks_of ls) as [pre bs]. simpl in *.
    destruct (is_header l) eqn:H; simpl.
    + split; [f_equal; exact IH1|]. split; [constructor|].
      constructor; [split; assumption | exact IH3].
    + split; [f_equal; exact IH1|]. split; [constructor; assumption | exact IH3].
Qed.

End OutcomeFacts.

Module OutcomeProperties.

Import Outcome OutcomeSpec Samples.

(** C3, as the code has it: on the raw report
    ["FAILED t1\n...\nFAILED t1\n1 failed, 2 passed"] the counts are
    [passed = 2] and [failed = 1], and no failing id is extracted, since
    [t1] is not a node id of the form [path::name]; on the same report
    with the id written [m::t1] the repeated id is extracted once,
    [failing_ids = ["m::t1"]], with the same counts. *)
Theorem scenario_A_node_ids :
  extract_failing_test_ids report_A = []
  /\ parse_pytest_summary report_A = (2, 1)%nat
  /\ extract_failing_test_ids report_A_node = ["m::t1"]
  /\ parse_pytest_summary report_A_node = (2, 1)%nat.
Proof. split; [|split; [|split]]; vm_compute; reflexivity. Qed.

(** On the report of scenario A the extracted list is empty, not
    [["t1"]]. *)
Lemma scenario_A_extracts_nothing :
  extract_failing_test_ids report_A = [].
Proof. vm_compute. reflexivity. Qed.

(** C4, as the code has it: every report reads as the lines before the
    first failure header followed by blocks, a block being a header with
    the lines after it up to the next header.  A block is filed when its
    header yields a name and at least one line follows it.  Every filed
    block is put in exactly one of the two lists: [infrastructure_bugs]
    when its error text contains one of the fixed signatures,
    [expected_failures] otherwise; a block that is not filed is in
    neither.  Hence the two lists together have one entry per filed block,
    and a report whose filed blocks all carry a structural-error signature
    yields no [expected_failures] entry. *)
Theorem classify_files_each_block (pytest_output : string) :
  let pre := (blocks_of (PyStr.split PyStr.LF pytest_output)).1 in
  let bs := (blocks_of (PyStr.split PyStr.LF pytest_output)).2 in
  PyStr.split PyStr.LF pytest_output = pre ++ lines_of bs
  /\ Forall (fun l => is_header l = false) pre
  /\ Forall well_formed bs
  /\ classify_test_failures pytest_output
     = (map block_entry (infra_blocks bs), map block_name (behavioral_blocks bs))
  /\ (forall b, In b bs ->
        (In b (infra_blocks bs) <-> block_filed b = true /\ block_infra b = true)
        /\ (In b (behavioral_blocks bs)
            <-> block_filed b = true /\ block_infra b = false))
  /\ (length (classify_test_failures pytest_output).1
      + length (classify_test_failures pytest_output).2
      = length (List.filter block_filed bs))%nat
  /\ ((forall b, In b bs -> block_filed b = true -> block_infra b = true) ->
      (classify_test_failures pytest_output).2 = []).
Proof.
  intros pre bs.
  destruct (OutcomeFacts.blocks_of_lines (PyStr.split PyStr.LF pytest_output))
    as (Hsplit & Hpre & Hbs).
  fold pre bs in Hsplit, Hpre, Hbs.
  assert (E : classify_test_failures pytest_output
              = (map block_entry (infra_blocks bs),
                 map block_name (behavioral_blocks bs))).
  { unfold classify_test_failures. rewrite Hsplit.
    apply OutcomeFacts.classify_lines_blocks; assumption. }
  split; [exact Hsplit|]. split; [exact Hpre|]. split; [exact Hbs|].
  split; [exact E|]. clearbody bs pre. split; [|split].
  - intros b Hb. unfold infra_blocks, behavioral_blocks.
    rewrite !filter_In, !andb_true_iff, negb_true_iff. tauto.
  - rewrite E. simpl. rewrite !length_map.
    unfold infra_blocks, behavioral_blocks.
    clear. induction bs as [|b bs IH]; simpl; [reflexivity|].
    destruct (block_filed b), (block_infra b); simpl; lia.
  - intros Hall. rewrite E. simpl. unfold behavioral_blocks.
    clear E Hsplit Hbs. induction bs as [|b bs IH]; simpl; [reflexivity|].
    destruct (block_filed b) eqn:F; simpl.
    + rewrite (Hall b (or_introl eq_refl) F). simpl.
      apply IH. intros b' Hb'. apply Hall. right. exact Hb'.
    + apply IH. intros b' Hb'. apply Hall. right. exact Hb'.
Qed.

Lemma classify_files_each_block_witness :
  classify_test_failures sample_report
  = (map block_entry (infra_blocks sample_blocks),
     map block_name (behavioral_blocks sample_blocks)).
Proof.
  assert (E : (blocks_of (PyStr.split PyStr.LF sample_report)).2 = sample_blocks)
    by (vm_compute; reflexivity).
  rewrite <- E.
  exact (proj1 (proj2 (proj2 (proj2 (classify_files_each_block sample_report))))).
Defined.

(** A failing id whose header is the last line, or is directly followed
    by another header, is in neither list. *)
Lemma header_without_lines_is_dropped :
  classify_test_failures report_header_only = ([], [])
  /\ classify_test_failures report_two_headers = ([], ["a.py::test_2"]).
Proof. split; vm_compute; reflexivity. Qed.

End OutcomeProperties.

(** ** The aggregate mutation score *)

Module ScoreFacts.

Import Mutation.

Lemma killed_le_activated (results : list MutationResult) :
  (killed_count results <= activated_count results)%nat.
Proof. unfold killed_count, killed_results, activated_count. apply filter_length_le. Qed.

Lemma pos_of_nat_succ (n : nat) : Z.pos (Pos.of_nat (S n)) = Z.of_nat (S n).
Proof. rewrite <- Pos.of_nat_succ, Zpos_P_of_succ_nat. lia. Qed.

Lemma truediv_bounds (k a : nat) :
  (k <= S a)%nat ->
  exists q, truediv k (S a) = inr q /\ (0 <= q)%Q /\ (q <= 1)%Q
            /\ (q == inject_Z (Z.of_nat k) / inject_Z (Z.of_nat (S a)))%Q.
Proof.
  intros H. exists (Z.of_nat k # Pos.of_nat (S a)). split; [reflexivity|].
  split; [|split].
  - unfold Qle. simpl. lia.
  - unfold Qle. cbn [Qnum Qden]. rewrite pos_of_nat_succ. lia.
  - rewrite (Qmake_Qdiv (Z.of_nat k) (Pos.of_nat (S a))).
    rewrite pos_of_nat_succ. reflexivity.
Qed.

(** A result that did not activate is dropped by the first filter. *)
Lemma activated_results_skip (l1 l2 : list MutationResult) (r : MutationResult) :
  activated r = false ->
  activated_results (l1 ++ r :: l2) = activated_results (l1 ++ l2).
Proof.
  intros H. unfold activated_results.
  rewrite !List.filter_app. simpl. rewrite H. reflexivity.
Qed.

Lemma score_total (results : list MutationResult) :
  exists q, mutation_score results = inr q.
Proof.
  unfold mutation_score.
  destruct (activated_count results) as [|a]; simpl; eauto.
Qed.

Lemma score_zero_without_activated (results : list MutationResult) :
  activated_results results = [] -> mutation_score results = inr 0%Q.
Proof.
  intros H. unfold mutation_score, activated_count. rewrite H. reflexivity.
Qed.

End ScoreFacts.

Module ScoreProperties.

Import Mutation ScoreSamples.

(** C5: the score is computed without error; it is at least 0 and at most
    1; when some mutant activated it equals the number of activated
    mutants with [killed = true] divided by the number of activated
    mutants.  A mutant that did not activate changes neither count nor
    the score: it is listed as inconclusive, and it is neither among the
    killed nor among the survived results. *)
Theorem mutation_score_is_killed_over_activated (results : list MutationResult) :
  (exists q, mutation_score results = inr q /\ (0 <= q)%Q /\ (q <= 1)%Q
             /\ ((0 < activated_count results)%nat ->
                 (q == inject_Z (Z.of_nat (killed_count results))
                       / inject_Z (Z.of_nat (activated_count results)))%Q))
  /\ killed_count results
     = length (List.filter (fun r => activated r && killed r) results)
  /\ activated_count results = length (List.filter activated results)
  /\ (forall l1 l2 r, results = l1 ++ r :: l2 -> activated r = false ->
        killed_count results = killed_count (l1 ++ l2)
        /\ activated_count results = activated_count (l1 ++ l2)
        /\ mutation_score results = mutation_score (l1 ++ l2)
        /\ In r (inconclusive_results results)
        /\ ~ In r (killed_results results)
        /\ ~ In r (survived_results results)).
Proof.
  split; [|split; [|split]].
  - pose proof (ScoreFacts.killed_le_activated results) as Hle.
    unfold mutation_score.
    destruct (activated_count results) as [|a] eqn:Ea; simpl.
    + exists 0%Q. split; [reflexivity|].
      split; [unfold Qle; simpl; lia|]. split; [unfold Qle; simpl; lia|].
      intros; lia.
    + destruct (ScoreFacts.truediv_bounds _ _ Hle) as (q & Hq & H0 & H1 & He).
      exists q. split; [exact Hq|]. split; [exact H0|]. split; [exact H1|].
      intros _. exact He.
  - unfold killed_count, killed_results, activated_results.
    f_equal. induction results as [|r rs IH]; simpl; [reflexivity|].
    destruct (activated r); simpl; [destruct (killed r); simpl|]; congruence.
  - reflexivity.
  - intros l1 l2 r -> Hr.
    pose proof (ScoreFacts.activated_results_skip l1 l2 r Hr) as E.
    unfold mutation_score, killed_count, activated_count, killed_results,
      survived_results. rewrite E.
    split; [reflexivity|]. split; [reflexivity|]. split; [reflexivity|].
    split; [|split].
    + unfold inconclusive_results. apply filter_In. split.
      * apply in_or_app. right. left. reflexivity.
      * rewrite Hr. reflexivity.
    + intros H. apply filter_In in H as [H _].
      rewrite <- E in H. apply filter_In in H as [_ H]. congruence.
    + intros H. apply filter_In in H as [H _].
      rewrite <- E in H. apply filter_In in H as [_ H]. congruence.
Qed.

Lemma mutation_score_is_killed_over_activated_witness :
  killed_count sample_results = killed_count [killed_one; survived_one]
  /\ activated_count sample_results = activated_count [killed_one; survived_one]
  /\ mutation_score sample_results = mutation_score [killed_one; survived_one]
  /\ In inconclusive_one (inconclusive_results sample_results)
  /\ ~ In inconclusive_one (killed_results sample_results)
  /\ ~ In inconclusive_one (survived_results sample_results).
Proof.
  apply (proj2 (proj2 (proj2 (mutation_score_is_killed_over_activated sample_results)))
           [killed_one] [survived_one] inconclusive_one);
    reflexivity.
Defined.

(** C10: computing the score never raises; when no mutant activated
    (every mutant inconclusive, or no mutant at all) the score is
    exactly 0. *)
Theorem mutation_score_never_divides_by_zero (results : list MutationResult) :
  (exists q, mutation_score results = inr q)
  /\ (activated_results results = [] -> mutation_score results = inr 0%Q)
  /\ ((forall r, In r results -> activated r = false) ->
      mutation_score results = inr 0%Q)
  /\ mutation_score [] = inr 0%Q.
Proof.
  split; [apply ScoreFacts.score_total|].
  split; [apply ScoreFacts.score_zero_without_activated|].
  split; [|reflexivity].
  intros H. apply ScoreFacts.score_zero_without_activated.
  unfold activated_results.
  induction results as [|r rs IH]; simpl; [reflexivity|].
  rewrite (H r (or_introl eq_refl)). apply IH.
  intros r' Hr'. apply H. right. exact Hr'.
Qed.

Lemma mutation_score_never_divides_by_zero_witness :
  mutation_score [inconclusive_one; inconclusive_one] = inr 0%Q.
Proof.
  apply (proj1 (proj2 (mutation_score_never_divides_by_zero
                         [inconclusive_one; inconclusive_one]))).
  reflexivity.
Defined.

End ScoreProperties.

(** ** The mutation engine *)

Module EngineFacts.

Import Mutation MutationSpec.

Lemma generated_attempts_app (e1 e2 : list event) :
  generated_attempts (e1 ++ e2) = generated_attempts e1 ++ generated_attempts e2.
Proof.
  induction e1 as [|e e1 IH]; simpl; [reflexivity|].
  destruct e; simpl; rewrite ?IH; reflexivity.
Qed.

Lemma suite_runs_app (e1 e2 : list event) :
  suite_runs (e1 ++ e2) = (suite_runs e1 + suite_runs e2)%nat.
Proof.
  induction e1 as [|e e1 IH]; simpl; [reflexivity|].
  destruct e; simpl; rewrite ?IH; reflexivity.
Qed.

Lemma saved_paths_app (e1 e2 : list event) :
  saved_paths (e1 ++ e2) = saved_paths e1 ++ saved_paths e2.
Proof.
  induction e1 as [|e e1 IH]; simpl; [reflexivity|].
  destruct e; simpl; rewrite ?IH; reflexivity.
Qed.

Lemma saved_paths_In (p : string) (evs : list event) :
  In p (saved_paths evs) <-> exists c, In (Saved p c) evs.
Proof.
  induction evs as [|e evs IH]; simpl.
  - split; [tauto | intros [c []]].
  - destruct e; simpl; rewrite ?IH;
      try (split; [intros [c H]; exists c; right; exact H
                  | intros [c [H|H]]; [discriminate | exists c; exact H]]).
    split.
    + intros [->|[c H]]; [exists content; left; reflexivity | exists c; right; exact H].
    + intros [c [H|H]]; [inversion H; left; reflexivity | right; exists c; exact H].
Qed.

Lemma quiet_facts (sv : list event) :
  quiet sv ->
  generated_attempts sv = [] /\ suite_runs sv = 0%nat
  /\ (forall i m r, ~ In (Probed i m r) sv)
  /\ (forall i g, ~ In (Generated i g) sv).
Proof.
  induction 1 as [|e sv (p & c & ->) _ (IH1 & IH2 & IH3 & IH4)]; simpl.
  - repeat split; intros; intros [].
  - split; [exact IH1|]. split; [exact IH2|]. split.
    + intros i m r [H|H]; [discriminate | exact (IH3 i m r H)].
    + intros i g [H|H]; [discriminate | exact (IH4 i g H)].
Qed.

Lemma not_activated (r : option bool) : default false r = false -> r <> Some true.
Proof. destruct r as [[|]|]; simpl; congruence. Qed.

Lemma attempts_logged_nil (k : nat) (a : attempt_state) :
  a_activated a = false -> a_attempts a = k -> attempts_logged k a [].
Proof.
  intros Ha Hk. unfold attempts_logged. rewrite Hk, Nat.sub_diag. simpl.
  split; [reflexivity|]. split; [reflexivity|].
  split; [intros ? ? ? []|]. split; [intros ? ? ? []|].
  split; [congruence | intros _ ? ? ? []].
Qed.

(** The attempt that activates. *)
Lemma attempts_logged_last (k : nat) (m : MutantArtifacts) (sv : list event)
    (r : option bool) :
  quiet sv -> default false r = true ->
  attempts_logged k (mkAttempt (default false r) (S k) (Some m))
    (Generated (S k) (Some m) :: sv ++ [Probed (S k) m r]).
Proof.
  intros Hq Hr. destruct (quiet_facts sv Hq) as (Q1 & Q2 & Q3 & Q4).
  assert (r = Some true) as -> by (destruct r as [[|]|]; simpl in Hr; congruence).
  unfold attempts_logged. simpl.
  rewrite generated_attempts_app, suite_runs_app, Q1, Q2. simpl.
  replace (S k - k)%nat with 1%nat by lia. simpl.
  split; [reflexivity|]. split; [reflexivity|]. split; [|split; [|split]].
  - intros i m' r' [H|H]; [discriminate|].
    apply in_app_or in H as [H|[H|[]]]; [destruct (Q3 _ _ _ H)|].
    inversion H; subst. left. reflexivity.
  - intros i m' r' [H|H]; [discriminate|].
    apply in_app_or in H as [H|[H|[]]]; [destruct (Q3 _ _ _ H)|].
    inversion H; subst. lia.
  - intros _. exists m. split; [reflexivity|].
    right. apply in_or_app. right. left. reflexivity.
  - discriminate.
Qed.

(** An attempt whose generation raised, followed by the rest. *)
Lemma attempts_logged_raised (k : nat) (a' : attempt_state) (evs : list event) :
  (S k <= a_attempts a')%nat ->
  attempts_logged (S k) a' evs ->
  attempts_logged k a' (Generated (S k) None :: evs).
Proof.
  intros Hle (H1 & H2 & H3 & H4 & H5 & H6). unfold attempts_logged. simpl.
  replace (a_attempts a' - k)%nat with (S (a_attempts a' - S k)) by lia.
  simpl. rewrite H1.
  split; [reflexivity|]. split; [exact H2|]. split; [|split; [|split]].
  - intros i m r [H|H]; [discriminate|]. right. exact (H3 i m r H).
  - intros i m r [H|H]; [discriminate|]. exact (H4 i m r H).
  - intros Ha. destruct (H5 Ha) as (m & Hm & Hin). exists m.
    split; [exact Hm | right; exact Hin].
  - intros Ha i m r [H|H]; [discriminate|]. exact (H6 Ha i m r H).
Qed.

(** An attempt whose probe did not activate, followed by the rest. *)
Lemma attempts_logged_retry (k : nat) (a' : attempt_state) (m : MutantArtifacts)
    (sv : list event) (r : option bool) (evs : list event) :
  quiet sv -> default false r = false ->
  (S k <= a_attempts a')%nat ->
  attempts_logged (S k) a' evs ->
  attempts_logged k a' (Generated (S k) (Some m) :: sv ++ Probed (S k) m r :: evs).
Proof.
  intros Hq Hr Hle (H1 & H2 & H3 & H4 & H5 & H6).
  destruct (quiet_facts sv Hq) as (Q1 & Q2 & Q3 & Q4).
  pose proof (not_activated r Hr) as Hn.
  unfold attempts_logged. simpl.
  rewrite generated_attempts_app, suite_runs_app, Q1, Q2. simpl.
  replace (a_attempts a' - k)%nat with (S (a_attempts a' - S k)) by lia.
  simpl. rewrite H1.
  split; [reflexivity|]. split; [exact H2|]. split; [|split; [|split]].
  - intros i m' r' [H|H]; [discriminate|].
    apply in_app_or in H as [H|[H|H]]; [destruct (Q3 _ _ _ H)| |].
    + inversion H; subst. left. reflexivity.
    + right. apply in_or_app. right. right. exact (H3 i m' r' H).
  - intros i m' r' [H|H]; [discriminate|].
    apply in_app_or in H as [H|[H|H]]; [destruct (Q3 _ _ _ H)| |].
    + inversion H; subst. intros _. exact Hn.
    + exact (H4 i m' r' H).
  - intros Ha. destruct (H5 Ha) as (m' & Hm & Hin). exists m'.
    split; [exact Hm|]. right. apply in_or_app. right. right. exact Hin.
  - intros Ha i m' r' [H|H]; [discriminate|].
    apply in_app_or in H as [H|[H|H]]; [destruct (Q3 _ _ _ H)| |].
    + inversion H; subst. exact Hn.
    + exact (H6 Ha i m' r' H).
Qed.

Section WithCollaborators.

Context {W Probe : Type}.
Variable generate_mutant :
  string -> string -> list string -> list (string * string) ->
  W -> option MutantArtifacts * W.
Variable run_activation_probe_with_prompt :
  string -> Probe -> string -> option string -> list (string * string) ->
  W -> option bool * W.

(** The state after the optional cache write of an attempt. *)
Lemma cache_step (cache_dir : option string) (id_ : string) (k : nat)
    (m : MutantArtifacts) (st : state W) :
  exists sv,
    quiet sv
    /\ log (match cache_dir with
            | Some d => save_prompt (cache_file d id_ k) (prompt m) st
            | None => st
            end) = log st ++ sv
    /\ (forall p, In p (saved_paths sv) ->
                  exists d, cache_dir = Some d /\ p = cache_file d id_ k).
Proof.
  destruct cache_dir as [d|].
  - exists [Saved (cache_file d id_ k) (prompt m)]. split; [|split].
    + repeat constructor. eauto.
    + reflexivity.
    + intros p [<-|[]]. eauto.
  - exists []. split; [constructor|]. split; [rewrite app_nil_r; reflexivity|].
    intros p [].
Qed.

Lemma attempt_loop_log (repo_root spec_name spec_version : string)
    (mutation_ : mutation Probe) (base_prompt : string)
    (btd : list (string * string)) (cs : list string) (cache_dir : option string)
    (n : nat) :
  forall (k : nat) (a : attempt_state) (st : state W) (a' : attempt_state)
         (st' : state W),
    a_activated a = false -> a_attempts a = k ->
    attempt_loop generate_mutant run_activation_probe_with_prompt
      repo_root spec_name spec_version mutation_ base_prompt btd cs cache_dir
      (seq k n) a st = (a', st') ->
    exists evs, log st' = log st ++ evs
                /\ (k <= a_attempts a' <= k + n)%nat
                /\ attempts_logged k a' evs.
Proof.
  induction n as [|n IH]; intros k a st a' st' Hact Hk Hrun; simpl in Hrun.
  - inversion Hrun; subst. exists []. rewrite app_nil_r.
    split; [reflexivity|]. split; [lia|].
    apply attempts_logged_nil; [exact Hact | reflexivity].
  - destruct (generate_mutant base_prompt (m_intent mutation_) cs btd (world st))
      as [g w] eqn:G.
    destruct g as [m|].
    + destruct (cache_step cache_dir (m_id mutation_) (S k) m
                  (emit (Generated (S k) (Some m))
                        (mkState (files st) w (log st))))
        as (sv & Hq & Hsv & _).
      set (stc := match cache_dir with
                  | Some d => save_prompt _ _ _
                  | None => _
                  end) in *.
      simpl in Hsv. clearbody stc.
      destruct (run_activation_probe_with_prompt _ _ _ _ _ _) as [r w0].
      destruct (default false r) eqn:D.
      * inversion Hrun; subst a' st'. simpl.
        exists (Generated (S k) (Some m) :: sv ++ [Probed (S k) m r]).
        split; [rewrite Hsv, <- !app_assoc; reflexivity|].
        split; [lia|].
        rewrite <- D. apply attempts_logged_last; assumption.
      * apply IH in Hrun; [|reflexivity|reflexivity].
        destruct Hrun as (evs & Hl & Hb & Hal). simpl in Hl.
        exists (Generated (S k) (Some m) :: sv ++ Probed (S k) m r :: evs).
        split; [rewrite Hl, Hsv, <- !app_assoc; reflexivity|].
        split; [lia|].
        apply attempts_logged_retry; [assumption..|lia|assumption].
    + apply IH in Hrun; [|exact Hact|reflexivity].
      destruct Hrun as (evs & Hl & Hb & Hal). simpl in Hl.
      exists (Generated (S k) None :: evs).
      split; [rewrite Hl, <- app_assoc; reflexivity|].
      split; [lia|].
      apply attempts_logged_raised; [lia|assumption].
Qed.

(** The attempt loop writes cache files only. *)
Lemma attempt_loop_files (repo_root spec_name spec_version : string)
    (mutation_ : mutation Probe) (base_prompt : string)
    (btd : list (string * string)) (cs : list string) (cache_dir : option string)
    (p : string) (todo : list nat) :
  (forall d k, cache_dir = Some d -> cache_file d (m_id mutation_) k <> p) ->
  forall (a : attempt_state) (st : state W) (a' : attempt_state) (st' : state W),
    attempt_loop generate_mutant run_activation_probe_with_prompt
      repo_root spec_name spec_version mutation_ base_prompt btd cs cache_dir
      todo a st = (a', st') ->
    files st' !! p = files st !! p.
Proof.
  intros Hne. induction todo as [|k todo IH]; intros a st a' st' Hrun;
    simpl in Hrun.
  - inversion Hrun; subst. reflexivity.
  - destruct (generate_mutant base_prompt (m_intent mutation_) cs btd (world st))
      as [g w].
    destruct g as [m|].
    + set (stc := match cache_dir with
                  | Some d => save_prompt _ _ _
                  | None => _
                  end) in *.
      assert (Hc : files stc !! p = files st !! p).
      { subst stc. destruct cache_dir as [d|]; simpl; [|reflexivity].
        apply lookup_insert_ne. apply (Hne d (S k)). reflexivity. }
      clearbody stc.
      destruct (run_activation_probe_with_prompt _ _ _ _ _ _) as [r w0].
      destruct (default false r).
      * inversion Hrun; subst. simpl. exact Hc.
      * apply IH in Hrun. simpl in Hrun. rewrite Hrun. exact Hc.
    + apply IH in Hrun. simpl in Hrun. exact Hrun.
Qed.

Variable run_tests :
  string -> string -> gmap string string -> gmap string string ->
  W -> option (Z * string) * W.
Variable temp_name : string -> gmap string string -> W -> string * W.
Variable yaml_dump : list (string * string) -> string.

(** The log of the verification part: two temporary files written,
    the suite started once, the two files removed. *)
Lemma write_temp_log (suffix content : string) (st : state W) :
  let r := write_temp temp_name suffix content st in
  log r.2 = log st ++ [Saved r.1 content]
  /\ files r.2 = <[r.1 := content]> (files st)
  /\ r.1 = (temp_name suffix (files st) (world st)).1.
Proof.
  unfold write_temp.
  destruct (temp_name suffix (files st) (world st)) as [nm w]. simpl.
  repeat split.
Qed.

Lemma run_mutation_test_log (repo_root spec_name : string)
    (mutation_ : mutation Probe) (base_prompt : string)
    (btd : list (string * string)) (cfg : generator_config)
    (prompt_path test_cmd : string) (cache_dir : option string)
    (spec_version : string) (st : state W) (res : MutationResult) (st' : state W) :
  run_mutation_test generate_mutant run_activation_probe_with_prompt run_tests
    temp_name yaml_dump repo_root spec_name mutation_ base_prompt btd cfg
    prompt_path test_cmd cache_dir spec_version st = (Some res, st') ->
  exists evs,
    log st' = log st ++ evs
    /\ (activation_attempts res <= Z.to_nat (default 5%Z (max_attempts cfg)))%nat
    /\ generated_attempts evs = seq 1 (activation_attempts res)
    /\ (forall i m r, In (Probed i m r) evs -> In (Generated i (Some m)) evs)
    /\ (forall i m r, In (Probed i m r) evs ->
                      (i < activation_attempts res)%nat -> r <> Some true)
    /\ (activated res = true ->
        (exists m, In (Probed (activation_attempts res) m (Some true)) evs)
        /\ suite_runs evs = 1%nat)
    /\ (activated res = false ->
        killed res = false /\ suite_runs evs = 0%nat
        /\ forall i m r, In (Probed i m r) evs -> r <> Some true).
Proof.
  unfold run_mutation_test. intros Hrun.
  destruct (attempt_loop _ _ _ _ _ _ _ _ _ _ _ _ _) as [a st1] eqn:L.
  apply attempt_loop_log in L; [|reflexivity|reflexivity].
  destruct L as (evs & Hl & Hb & H1 & H2 & H3 & H4 & H5 & H6).
  rewrite Nat.sub_0_r in H1.
  destruct (a_activated a) eqn:A.
  - destruct (H5 eq_refl) as (m & Hm & Hin). rewrite Hm in Hrun.
    pose proof (write_temp_log ".txt" (prompt m) st1) as (T1 & _ & _).
    destruct (write_temp temp_name ".txt" (prompt m) st1) as [t1 st2].
    pose proof (write_temp_log ".yaml" (yaml_dump (tool_descriptions m)) st2)
      as (T2 & _ & _).
    destruct (write_temp temp_name ".yaml" _ st2) as [t2 st3].
    simpl in T1, T2.
    destruct (run_tests _ _ _ _ _) as [r w].
    destruct r as [[exit_code out]|]; [|discriminate].
    inversion Hrun; subst res st'. simpl.
    eexists (evs ++ [Saved t1 _; Saved t2 _; RanTests _ _ _; Unlinked t1; Unlinked t2]).
    split; [rewrite T2, T1, Hl, <- !app_assoc; reflexivity|].
    split; [lia|].
    split; [rewrite generated_attempts_app, H1; simpl; apply app_nil_r|].
    split.
    { intros i m' r Hp. apply in_app_or in Hp as [Hp|Hp].
      - apply in_or_app. left. exact (H3 i m' r Hp).
      - simpl in Hp. repeat (destruct Hp as [Hp|Hp]; [discriminate|]). destruct Hp. }
    split.
    { intros i m' r Hp. apply in_app_or in Hp as [Hp|Hp].
      - exact (H4 i m' r Hp).
      - simpl in Hp. repeat (destruct Hp as [Hp|Hp]; [discriminate|]). destruct Hp. }
    split; [|discriminate].
    intros _. split.
    + exists m. apply in_or_app. left. exact Hin.
    + rewrite suite_runs_app, H2. reflexivity.
  - assert (E : (Some res, st')
                = (Some (mkResult (m_id mutation_)
                           (default "unknown" (m_severity mutation_))
                           (default "unknown" (m_category mutation_))
                           (m_intent mutation_) false false (a_attempts a) ""),
                   st1)).
    { rewrite <- Hrun. destruct (a_mutant_artifacts a); reflexivity. }
    inversion E; subst res st'. simpl.
    exists evs. split; [exact Hl|]. split; [lia|]. split; [exact H1|].
    split; [exact H3|]. split; [exact H4|].
    split; [discriminate|].
    intros _. split; [reflexivity|]. split; [exact H2|]. exact (H6 eq_refl).
Qed.


(** The loop of [main] files one result per mutation, in order. *)
Lemma run_all_results (repo_root spec_name : string)
    (mutations : list (mutation Probe)) (base_prompt : string)
    (btd : list (string * string)) (cfg : generator_config)
    (prompt_path test_cmd : string) (cache_dir : option string)
    (spec_version : string) :
  forall (results : list MutationResult) (st : state W)
         (results' : list MutationResult) (st' : state W),
    run_all generate_mutant run_activation_probe_with_prompt run_tests
      temp_name yaml_dump repo_root spec_name mutations base_prompt btd cfg
      prompt_path test_cmd cache_dir spec_version results st
    = (Some results', st') ->
    exists new, results' = results ++ new
                /\ map mutant_id new = map m_id mutations.
Proof.
  induction mutations as [|mu ms IH]; intros results st results' st' Hrun;
    simpl in Hrun.
  - inversion Hrun; subst. exists []. rewrite app_nil_r. split; reflexivity.
  - destruct (run_mutation_test _ _ _ _ _ _ _ _ _ _ _ _ _ _ _ _) as [[r|] st1] eqn:R;
      [|discriminate].
    apply IH in Hrun. destruct Hrun as (new & -> & Hn).
    exists (r :: new). split; [rewrite <- app_assoc; reflexivity|].
    simpl. rewrite Hn. f_equal.
    unfold run_mutation_test in R.
    destruct (attempt_loop _ _ _ _ _ _ _ _ _ _ _ _ _) as [a st2].
    destruct (a_activated a), (a_mutant_artifacts a) as [m|];
      try (inversion R; reflexivity).
    destruct (write_temp temp_name ".txt" _ st2) as [t1 st3].
    destruct (write_temp temp_name ".yaml" _ st3) as [t2 st4].
    destruct (run_tests _ _ _ _ _) as [[[c o]|] w]; inversion R; reflexivity.
Qed.

End WithCollaborators.

End EngineFacts.

Module EngineProperties.

Import Mutation MutationSpec EngineSamples.

Section WithCollaborators.

Context {W Probe : Type}.
Variable generate_mutant :
  string -> string -> list string -> list (string * string) ->
  W -> option MutantArtifacts * W.
Variable run_activation_probe_with_prompt :
  string -> Probe -> string -> option string -> list (string * string) ->
  W -> option bool * W.
Variable run_tests :
  string -> string -> gmap string string -> gmap string string ->
  W -> option (Z * string) * W.
Variable temp_name : string -> gmap string string -> W -> string * W.
Variable yaml_dump : list (string * string) -> string.

(** C7: a run for one intent that returns a result has made
    [activation_attempts] attempts, at most [max_attempts] (5 when the
    configuration gives none); attempt [i] sends one request to the
    generator (the requests are numbered 1, 2, ... in the log), and a
    probe of attempt [i] runs on the variant that request [i] returned;
    no probe before the last attempt reported activation; the result
    is [activated] exactly when the probe of the last attempt reported
    activation, and then the suite is started once; otherwise the
    result has [activated = false] and [killed = false], no probe
    reported activation and the suite is not started.  When the run for
    an intent returns its result, activated or not, the loop over the
    intents files it after the results it has and goes on with the next
    intent, from the state the run left.  The loop files one result per
    intent, in order, and after the last intent it returns the results
    it has. *)
Theorem attempts_regenerate_until_activated :
  (forall (repo_root spec_name : string) (mutation_ : mutation Probe)
          (base_prompt : string) (btd : list (string * string))
          (cfg : generator_config) (prompt_path test_cmd : string)
          (cache_dir : option string) (spec_version : string)
          (st : state W) (res : MutationResult) (st' : state W),
      run_mutation_test generate_mutant run_activation_probe_with_prompt run_tests
        temp_name yaml_dump repo_root spec_name mutation_ base_prompt btd cfg
        prompt_path test_cmd cache_dir spec_version st = (Some res, st') ->
      exists evs,
        log st' = log st ++ evs
        /\ (activation_attempts res <= Z.to_nat (default 5%Z (max_attempts cfg)))%nat
        /\ generated_attempts evs = seq 1 (activation_attempts res)
        /\ (forall i m r, In (Probed i m r) evs -> In (Generated i (Some m)) evs)
        /\ (forall i m r, In (Probed i m r) evs ->
                          (i < activation_attempts res)%nat -> r <> Some true)
        /\ (activated res = true ->
            (exists m, In (Probed (activation_attempts res) m (Some true)) evs)
            /\ suite_runs evs = 1%nat)
        /\ (activated res = false ->
            killed res = false /\ suite_runs evs = 0%nat
            /\ forall i m r, In (Probed i m r) evs -> r <> Some true))
  /\ (forall (repo_root spec_name : string) (mutation_ : mutation Probe)
             (mutations : list (mutation Probe))
             (base_prompt : string) (btd : list (string * string))
             (cfg : generator_config) (prompt_path test_cmd : string)
             (cache_dir : option string) (spec_version : string)
             (results : list MutationResult) (st : state W)
             (res : MutationResult) (st1 : state W),
         run_mutation_test generate_mutant run_activation_probe_with_prompt run_tests
           temp_name yaml_dump repo_root spec_name mutation_ base_prompt btd cfg
           prompt_path test_cmd cache_dir spec_version st = (Some res, st1) ->
         run_all generate_mutant run_activation_probe_with_prompt run_tests
           temp_name yaml_dump repo_root spec_name (mutation_ :: mutations)
           base_prompt btd cfg prompt_path test_cmd cache_dir spec_version results st
         = run_all generate_mutant run_activation_probe_with_prompt run_tests
             temp_name yaml_dump repo_root spec_name mutations
             base_prompt btd cfg prompt_path test_cmd cache_dir spec_version
             (results ++ [res]) st1)
  /\ (forall (repo_root spec_name : string) (mutations : list (mutation Probe))
             (base_prompt : string) (btd : list (string * string))
             (cfg : generator_config) (prompt_path test_cmd : string)
             (cache_dir : option string) (spec_version : string)
             (results : list MutationResult) (st : state W)
             (results' : list MutationResult) (st' : state W),
         run_all generate_mutant run_activation_probe_with_prompt run_tests
           temp_name yaml_dump repo_root spec_name mutations base_prompt btd cfg
           prompt_path test_cmd cache_dir spec_version results st
         = (Some results', st') ->
         exists new, results' = results ++ new
                     /\ map mutant_id new = map m_id mutations)
  /\ (forall (repo_root spec_name base_prompt : string) (btd : list (string * string))
             (cfg : generator_config) (prompt_path test_cmd : string)
             (cache_dir : option string) (spec_version : string)
             (results : list MutationResult) (st : state W),
         run_all generate_mutant run_activation_probe_with_prompt run_tests
           temp_name yaml_dump repo_root spec_name [] base_prompt btd cfg
           prompt_path test_cmd cache_dir spec_version results st
         = (Some results, st)).
Proof.
  split; [|split; [|split]].
  - intros. eapply EngineFacts.run_mutation_test_log. eassumption.
  - intros * Hrun. cbn [run_all]. rewrite Hrun. reflexivity.
  - intros. eapply EngineFacts.run_all_results. eassumption.
  - intros. reflexivity.
Qed.

End WithCollaborators.

Lemma attempts_regenerate_until_activated_witness :
  (exists evs,
     log sample_run.2 = log sample_state ++ evs
     /\ generated_attempts evs = [1; 2]%nat
     /\ suite_runs evs = 1%nat)
  /\ pack_run.1 = Some [first_result; second_result]
  /\ exists new, [first_result; second_result] = [] ++ new
                 /\ map mutant_id new = ["M1"; "M2"].
Proof.
  pose proof (attempts_regenerate_until_activated sample_generate sample_probe
                sample_run_tests sample_temp_name sample_yaml_dump)
    as (T1 & T2 & T3 & _).
  split; [|split].
  - destruct (T1 "." "supportops" sample_mutation "ORIGINAL" [] sample_config
                sample_prompt_path "pytest" None "v1" sample_state
                sample_result sample_run.2)
      as (evs & Hl & _ & Hg & _ & _ & Ha & _).
    + vm_compute. reflexivity.
    + exists evs. split; [exact Hl|]. split; [exact Hg|].
      exact (proj2 (Ha eq_refl)).
  - unfold pack_run.
    rewrite (T2 "." "supportops" sample_mutation [second_mutation] "ORIGINAL" []
               one_attempt sample_prompt_path "pytest" None "v1" [] sample_state
               first_result first_run.2);
      [|vm_compute; reflexivity].
    vm_compute. reflexivity.
  - apply (T3 "." "supportops" [sample_mutation; second_mutation] "ORIGINAL" []
              one_attempt sample_prompt_path "pytest" None "v1" [] sample_state
              [first_result; second_result] pack_run.2).
    vm_compute. reflexivity.
Defined.

(** C6, at the input where the code departs from it: the prompt given
    with [--prompt] is [cache/M1_attempt1.txt] and the cache directory
    given with [--cache-dir] is [cache].  The cache write of attempt 1
    of mutation [M1] goes to the prompt file: the original text is
    replaced by the variant and stays replaced after the run. *)
Theorem cache_write_reaches_prompt_file :
  files aliased_state !! aliased_prompt_path = Some "ORIGINAL"
  /\ files aliased_run.2 !! aliased_prompt_path = Some "MUTANT 0"
  /\ In (Saved aliased_prompt_path "MUTANT 0") (log aliased_run.2).
Proof.
  split; [vm_compute; reflexivity|]. split; [vm_compute; reflexivity|].
  vm_compute. right. left. reflexivity.
Qed.

End EngineProperties.

(** ** The convergence loop *)

Module CompileFacts.

Import Compile CompileSpec.

Lemma count_app (q : kind -> bool) (e1 e2 : list event) :
  count q (e1 ++ e2) = (count q e1 + count q e2)%nat.
Proof. induction e1 as [|e e1 IH]; simpl; [reflexivity | rewrite IH; lia]. Qed.

Section Uses.

Context {W : Type}.
Variable q : kind -> bool.

Lemma uses_weaken {A : Type} (n m : nat) (c : M W A) :
  (n <= m)%nat -> uses q n c -> uses q m c.
Proof.
  intros Hle H st r st' E. destruct (H st r st' E) as (evs & Hl & Hc).
  exists evs. split; [exact Hl | lia].
Qed.

Lemma uses_ret {A : Type} (x : A) : uses q 0 (mret x : M W A).
Proof.
  intros st r st' E. inversion E; subst. exists []. rewrite app_nil_r.
  split; [reflexivity | simpl; lia].
Qed.

Lemma uses_raise {A : Type} (e : exn) : uses q 0 (raise e : M W A).
Proof.
  intros st r st' E. inversion E; subst. exists []. rewrite app_nil_r.
  split; [reflexivity | simpl; lia].
Qed.

Lemma uses_bind {A B : Type} (n m : nat) (c : M W A) (k : A -> M W B) :
  uses q n c -> (forall x, uses q m (k x)) -> uses q (n + m) (c ≫= k).
Proof.
  intros Hc Hk st r st' E. unfold mbind, M_bind in E.
  destruct (c st) as [[e|x] st1] eqn:C.
  - inversion E; subst. destruct (Hc _ _ _ C) as (evs & Hl & Hn).
    exists evs. split; [exact Hl | lia].
  - destruct (Hc _ _ _ C) as (e1 & Hl1 & Hn1).
    destruct (Hk x _ _ _ E) as (e2 & Hl2 & Hn2).
    exists (e1 ++ e2). split; [rewrite Hl2, Hl1, app_assoc; reflexivity|].
    rewrite count_app. lia.
Qed.

Lemma uses_one {A : Type} (c : M W A) (e : event) :
  (forall st, exists x w fs, c st = (inr x, mkState fs w (log st ++ [e]))) ->
  uses q (has q (kind_of e)) c.
Proof.
  intros H st r st' E. destruct (H st) as (x & w & fs & E').
  rewrite E' in E. inversion E; subst. exists [e].
  split; [reflexivity | simpl; lia].
Qed.

Lemma uses_emit (e : event) : uses q (has q (kind_of e)) (emit e : M W unit).
Proof. apply uses_one. intros st. eexists _, _, _. reflexivity. Qed.

End Uses.

Section Loop.

Context {W : Type}.
Variable run_cmd :
  string -> gmap string string -> gmap string string -> W -> (Z * string * Q) * W.
Variable agent :
  agent_msg -> gmap string string -> W -> (list sdk_msg * gmap string string) * W.
Variable q : kind -> bool.

Lemma uses_run (cmd : string) (env : gmap string string) :
  uses q (has q KRun) (run run_cmd cmd env).
Proof.
  apply (uses_one q _ (RanCmd cmd env)). intros st. unfold run.
  destruct (run_cmd cmd env (files st) (world st)) as [r w].
  eexists _, _, _. reflexivity.
Qed.

Lemma uses_query (msg : agent_msg) :
  uses q (has q (kind_of (Queried msg))) (query agent msg).
Proof.
  apply (uses_one q _ (Queried msg)). intros st. unfold query.
  destruct (agent msg (files st) (world st)) as [[msgs fs] w].
  eexists _, _, _. reflexivity.
Qed.

Lemma uses_copy (src dst : string) : uses q (has q KCopied) (copy src dst : M W unit).
Proof.
  intros st r st' E. unfold copy in E. destruct (files st !! src).
  - inversion E; subst. exists [Copied src dst]. split; [reflexivity | simpl; lia].
  - inversion E; subst. exists []. rewrite app_nil_r.
    split; [reflexivity | simpl; lia].
Qed.

Lemma uses_unlink (path : string) : uses q (has q KUnlinked) (unlink path : M W unit).
Proof.
  intros st r st' E. unfold unlink in E. destruct (files st !! path).
  - inversion E; subst. exists [Unlinked path]. split; [reflexivity | simpl; lia].
  - inversion E; subst. exists []. rewrite app_nil_r.
    split; [reflexivity | simpl; lia].
Qed.

Lemma uses_exists (path : string) : uses q 0 (exists_ path : M W bool).
Proof.
  intros st r st' E. inversion E; subst. exists []. rewrite app_nil_r.
  split; [reflexivity | simpl; lia].
Qed.

Lemma uses_read_text (path : string) : uses q 0 (read_text path : M W (option string)).
Proof.
  intros st r st' E. inversion E; subst. exists []. rewrite app_nil_r.
  split; [reflexivity | simpl; lia].
Qed.

(** The inner loop adds at most [per_inner] events per turn. *)
Lemma inner_iterations_uses (prompt_path candidate_path outer_loop_output : string)
    (max_inner_iters : Z) (original_failing : gset string) (todo : list nat) :
  forall ist,
    uses q (length todo * per_inner q)
      (inner_iterations run_cmd agent prompt_path candidate_path outer_loop_output
         max_inner_iters original_failing todo ist).
Proof.
  induction todo as [|i todo IH]; intros ist.
  - apply uses_ret.
  - cbn [inner_iterations length].
    eapply uses_weaken;
      [|apply (uses_bind q (has q KInner)
                 (has q KRun + (has q KCopied + has q KUnlinked + has q KInnerQuery
                                + length todo * per_inner q)))].
    + unfold per_inner. simpl. lia.
    + apply uses_emit.
    + intros _. apply uses_bind.
      * destruct (first_iteration ist).
        -- eapply uses_weaken; [|apply uses_ret]. lia.
        -- eapply uses_weaken; [|apply (uses_bind q (has q KRun) 0)].
           ++ lia.
           ++ apply uses_run.
           ++ intros [[code out] el]. apply uses_ret.
      * intros [[code out] ist']. destruct (code =? 0)%Z.
        -- eapply uses_weaken;
             [|apply (uses_bind q (has q KCopied) (has q KUnlinked + 0))].
           ++ lia.
           ++ apply uses_copy.
           ++ intros _. apply uses_bind; [apply uses_unlink|].
              intros _. apply uses_ret.
        -- destruct (Z.of_nat i =? max_inner_iters)%Z.
           ++ eapply uses_weaken; [|apply uses_ret]. lia.
           ++ eapply uses_weaken;
                [|apply (uses_bind q (has q KInnerQuery) (length todo * per_inner q))].
              ** lia.
              ** apply (uses_query (InnerMsg _ _ _ _ _)).
              ** intros msgs. destruct (receive msgs _ _) as [c u]. apply IH.
Qed.

Lemma focused_inner_loop_uses (prompt_path : string) (failing_tests_ : list string)
    (outer_loop_output : string) (max_inner_iters : Z) :
  uses q (per_focused q (Z.to_nat max_inner_iters))
    (focused_inner_loop run_cmd agent prompt_path failing_tests_ outer_loop_output
       max_inner_iters).
Proof.
  unfold focused_inner_loop, per_focused.
  rewrite <- Nat.add_assoc. apply uses_bind; [apply uses_copy|].
  intros _. apply uses_bind.
  - pose proof (inner_iterations_uses prompt_path
                  (with_name prompt_path "system_prompt_candidate.txt")
                  outer_loop_output max_inner_iters (list_to_set failing_tests_)
                  (seq 1 (Z.to_nat max_inner_iters))) as H.
    rewrite length_seq in H. apply H.
  - intros [returned ist]. destruct returned.
    + eapply uses_weaken; [|apply uses_ret]. lia.
    + eapply uses_weaken; [|apply (uses_bind q (has q KUnlinked) 0)].
      * lia.
      * apply uses_unlink.
      * intros _. apply uses_ret.
Qed.

Lemma after_run_uses (prompt_path : string) (max_iters thr max_inner_iters : Z)
    (i : nat) (code : Z) (out : string) (ost : outer_state) :
  uses q (per_after_run q (Z.to_nat max_inner_iters))
    (after_run run_cmd agent prompt_path max_iters thr max_inner_iters i code out ost).
Proof.
  unfold after_run, per_after_run.
  destruct (code =? 0)%Z; [eapply uses_weaken; [|apply uses_ret]; lia|].
  destruct (enters_inner _ _).
  - eapply uses_weaken;
      [|apply (uses_bind q (has q KEntry)
                 (per_focused q (Z.to_nat max_inner_iters) + 0))].
    + lia.
    + apply (uses_emit q (InnerLoopEntered _)).
    + intros _. apply uses_bind; [apply focused_inner_loop_uses|].
      intros [[[success t] c] u]. destruct success; apply uses_ret.
  - eapply uses_weaken; [|apply (uses_bind q (has q KOuterQuery) 0)].
    + lia.
    + apply (uses_query (OuterMsg _ _ _)).
    + intros msgs. destruct (receive msgs _ _) as [c u]. apply uses_ret.
Qed.

Lemma obtain_uses (test_cmd : string) (initial : option string) (i : nat)
    (ost : outer_state) :
  uses q (has q KRun) (obtain run_cmd test_cmd initial i ost).
Proof.
  assert (R : uses q (has q KRun)
                ('(code, out, test_elapsed) ← run run_cmd test_cmd ∅;
                 mret (code, out, mkOuter (total_test_time ost + test_elapsed)%Q
                                    (total_cost_usd ost) (total_usage ost)))).
  { eapply uses_weaken; [|apply (uses_bind q (has q KRun) 0)].
    - lia.
    - apply uses_run.
    - intros [[code out] el]. apply uses_ret. }
  unfold obtain. destruct initial as [content|]; [|exact R].
  destruct ((i =? 1)%nat && PyStr.truthy content); [|exact R].
  eapply uses_weaken; [|apply uses_ret]. lia.
Qed.

Lemma outer_iterations_uses (prompt_path test_cmd : string)
    (max_iters thr max_inner_iters : Z) (initial : option string) (todo : list nat) :
  forall ost,
    uses q (length todo * per_outer q (Z.to_nat max_inner_iters))
      (outer_iterations run_cmd agent prompt_path test_cmd max_iters thr
         max_inner_iters initial todo ost).
Proof.
  induction todo as [|i todo IH]; intros ost.
  - apply uses_ret.
  - cbn [outer_iterations length].
    eapply uses_weaken;
      [|apply (uses_bind q (has q KOuter)
                 (has q KRun + (per_after_run q (Z.to_nat max_inner_iters)
                                + length todo * per_outer q (Z.to_nat max_inner_iters))))].
    + unfold per_outer. simpl. lia.
    + apply (uses_emit q (OuterIteration i)).
    + intros _. apply uses_bind; [apply obtain_uses|].
      intros [[code out] ost']. apply uses_bind; [apply after_run_uses|].
      intros [code'|ost'']; [eapply uses_weaken; [|apply uses_ret]; lia | apply IH].
Qed.

Lemma compile_loop_uses (prompt_path test_cmd : string)
    (max_iters thr max_inner_iters : Z) (initial_results : option string) :
  uses q (Z.to_nat max_iters * per_outer q (Z.to_nat max_inner_iters))
    (compile_loop run_cmd agent prompt_path test_cmd max_iters thr max_inner_iters
       initial_results).
Proof.
  unfold compile_loop.
  eapply uses_weaken; [|apply (uses_bind q 0)]; [simpl; reflexivity|apply uses_exists|].
  intros present. destruct present; [|eapply uses_weaken; [|apply uses_raise]; lia].
  eapply uses_weaken; [|apply (uses_bind q 0)]; [simpl; reflexivity| |].
  - destruct initial_results as [path|]; [|apply uses_ret].
    destruct (PyStr.truthy path); [apply uses_read_text | apply uses_ret].
  - intros content.
    pose proof (outer_iterations_uses prompt_path test_cmd max_iters thr
                  max_inner_iters content (seq 1 (Z.to_nat max_iters))) as H.
    rewrite length_seq in H. apply H.
Qed.

End Loop.

End CompileFacts.

Module CompileProperties.

Import Compile CompileSpec CompileSamples.


Section Loop.

Context {W : Type}.
Variable run_cmd :
  string -> gmap string string -> gmap string string -> W -> (Z * string * Q) * W.
Variable agent :
  agent_msg -> gmap string string -> W -> (list sdk_msg * gmap string string) * W.

(** What the outer branch of an iteration does: one message to the agent,
    carrying the failure extract of this iteration's output, and on to the
    next outer iteration. *)
Lemma outer_branch (prompt_path : string) (max_iters thr max_inner_iters : Z)
    (i : nat) (code : Z) (out : string) (ost : outer_state) (st : state W)
    (r : exn + (Z + outer_state)) (st' : state W) :
  code <> 0%Z ->
  enters_inner (Outcome.extract_failing_test_ids out) thr = false ->
  after_run run_cmd agent prompt_path max_iters thr max_inner_iters i code out ost st
  = (r, st') ->
  log st' = log st ++ [Queried (OuterMsg i max_iters (extract_pytest_failures out))]
  /\ exists ost', r = inr (inr ost').
Proof.
  intros Hc He Hrun. unfold after_run in Hrun.
  apply Z.eqb_neq in Hc. rewrite Hc, He in Hrun.
  unfold mbind, M_bind, query in Hrun.
  destruct (agent _ (files st) (world st)) as [[msgs fs] w].
  destruct (receive msgs _ _) as [c u].
  inversion Hrun; subst. simpl. split; [reflexivity | eauto].
Qed.

(** What the inner branch does: the inner loop is entered on the extracted
    ids, and from there on no outer-phase message is sent. *)
Lemma inner_branch (prompt_path : string) (max_iters thr max_inner_iters : Z)
    (i : nat) (code : Z) (out : string) (ost : outer_state) (st : state W)
    (r : exn + (Z + outer_state)) (st' : state W) :
  code <> 0%Z ->
  enters_inner (Outcome.extract_failing_test_ids out) thr = true ->
  after_run run_cmd agent prompt_path max_iters thr max_inner_iters i code out ost st
  = (r, st') ->
  exists evs,
    log st' = log st ++ InnerLoopEntered (Outcome.extract_failing_test_ids out) :: evs
    /\ count (kind_eqb KOuterQuery) evs = 0%nat
    /\ count (kind_eqb KEntry) evs = 0%nat.
Proof.
  intros Hc He Hrun. unfold after_run in Hrun.
  apply Z.eqb_neq in Hc. rewrite Hc, He in Hrun.
  unfold mbind at 1, M_bind at 1, emit in Hrun.
  match type of Hrun with
  | ?k ?s = _ =>
      assert (U : forall q, uses q (per_focused q (Z.to_nat max_inner_iters) + 0) k)
  end.
  { intros q. apply CompileFacts.uses_bind;
      [apply CompileFacts.focused_inner_loop_uses|].
    intros [[[success t] c] u]. destruct success; apply CompileFacts.uses_ret. }
  destruct (U (kind_eqb KOuterQuery) _ _ _ Hrun) as (evs & Hl & H1).
  destruct (U (kind_eqb KEntry) _ _ _ Hrun) as (evs' & Hl' & H2).
  simpl in Hl, Hl'. rewrite Hl in Hl'. apply app_inv_head in Hl'. subst evs'.
  exists evs. split; [rewrite Hl, <- app_assoc; reflexivity|].
  clear - H1 H2. split; kind_bounds.
Qed.

(** C9: for every prompt, suite command, budgets and collaborators a
    session returns, and what it adds to the log is bounded: at most
    [max_iters] outer iterations, at most [max_inner_iters] inner
    iterations per outer iteration, at most [max_iters * (1 +
    max_inner_iters)] suite runs and as many messages to the agent; one
    call of the inner loop returns after at most [max_inner_iters] inner
    iterations and no outer one.  The defaults are 6 and 8. *)
Theorem convergence_loop_is_bounded :
  (forall (prompt_path test_cmd : string) (max_iters thr max_inner_iters : Z)
          (initial_results : option string) (st : state W),
      exists (r : exn + Z) (st' : state W) (evs : list event),
        compile_loop run_cmd agent prompt_path test_cmd max_iters thr max_inner_iters
          initial_results st = (r, st')
        /\ log st' = log st ++ evs
        /\ (count (kind_eqb KOuter) evs <= Z.to_nat max_iters)%nat
        /\ (count (kind_eqb KInner) evs
            <= Z.to_nat max_iters * Z.to_nat max_inner_iters)%nat
        /\ (count (kind_eqb KEntry) evs <= Z.to_nat max_iters)%nat
        /\ (count (kind_eqb KRun) evs
            <= Z.to_nat max_iters * (1 + Z.to_nat max_inner_iters))%nat
        /\ (count (kind_eqb KOuterQuery) evs + count (kind_eqb KInnerQuery) evs
            <= Z.to_nat max_iters * (1 + Z.to_nat max_inner_iters))%nat)
  /\ (forall (prompt_path : string) (failing_tests_ : list string)
             (outer_loop_output : string) (max_inner_iters : Z) (st : state W),
         exists (r : exn + (bool * Q * Q * usage)) (st' : state W) (evs : list event),
           focused_inner_loop run_cmd agent prompt_path failing_tests_
             outer_loop_output max_inner_iters st = (r, st')
           /\ log st' = log st ++ evs
           /\ (count (kind_eqb KInner) evs <= Z.to_nat max_inner_iters)%nat
           /\ count (kind_eqb KOuter) evs = 0%nat)
  /\ Z.to_nat default_max_iters = 6%nat
  /\ Z.to_nat default_max_inner_iters = 8%nat.
Proof.
  split; [|split; [|split; reflexivity]].
  - intros prompt_path test_cmd max_iters thr max_inner_iters initial st.
    destruct (compile_loop run_cmd agent prompt_path test_cmd max_iters thr
                max_inner_iters initial st) as [r st'] eqn:Hrun.
    pose proof (fun q => CompileFacts.compile_loop_uses run_cmd agent q prompt_path
                           test_cmd max_iters thr max_inner_iters initial
                           _ _ _ Hrun) as U.
    destruct (U (kind_eqb KOuter)) as (evs & Hl & H1). exists r, st', evs.
    split; [reflexivity|]. split; [exact Hl|].
    assert (V : forall q,
               (count q evs
                <= Z.to_nat max_iters * per_outer q (Z.to_nat max_inner_iters))%nat).
    { intros q. destruct (U q) as (evs' & Hl' & H'). rewrite Hl in Hl'.
      apply app_inv_head in Hl'. subst evs'. exact H'. }
    pose proof (V (kind_eqb KInner)) as V1.
    pose proof (V (kind_eqb KEntry)) as V2.
    pose proof (V (kind_eqb KRun)) as V3.
    pose proof (V (kind_eqb KOuterQuery)) as V4.
    pose proof (V (kind_eqb KInnerQuery)) as V5.
    clear - H1 V1 V2 V3 V4 V5.
    split; [kind_bounds|]. split; [kind_bounds|]. split; [kind_bounds|].
    split; kind_bounds.
  - intros prompt_path failing out max_inner_iters st.
    destruct (focused_inner_loop run_cmd agent prompt_path failing out
                max_inner_iters st) as [r st'] eqn:Hrun.
    pose proof (fun q => CompileFacts.focused_inner_loop_uses run_cmd agent q
                           prompt_path failing out max_inner_iters _ _ _ Hrun) as U.
    destruct (U (kind_eqb KInner)) as (evs & Hl & H1). exists r, st', evs.
    split; [reflexivity|]. split; [exact Hl|].
    destruct (U (kind_eqb KOuter)) as (evs' & Hl' & H2). rewrite Hl in Hl'.
    apply app_inv_head in Hl'. subst evs'.
    clear - H1 H2. split; kind_bounds.
Qed.

End Loop.

Lemma convergence_loop_is_bounded_witness :
  exists (r : exn + Z) (st' : state nat) (evs : list event),
    compile_loop always_failing quiet_agent sample_prompt "pytest tests_visible"
      default_max_iters default_inner_loop_threshold default_max_inner_iters None
      sample_state = (r, st')
    /\ log st' = log sample_state ++ evs
    /\ (count (kind_eqb KOuter) evs <= 6)%nat
    /\ (count (kind_eqb KInner) evs <= 6 * 8)%nat
    /\ (count (kind_eqb KEntry) evs <= 6)%nat
    /\ (count (kind_eqb KRun) evs <= 6 * (1 + 8))%nat
    /\ (count (kind_eqb KOuterQuery) evs + count (kind_eqb KInnerQuery) evs
        <= 6 * (1 + 8))%nat.
Proof.
  exact (proj1 (convergence_loop_is_bounded always_failing quiet_agent)
           sample_prompt "pytest tests_visible" default_max_iters
           default_inner_loop_threshold default_max_inner_iters None sample_state).
Defined.

End CompileProperties.

(** ** Further properties of the same functions *)

Module DedupFacts.

Import Outcome OutcomeSpec.

Lemma among_In (unique : list string) (y : string) :
  among unique y = true <-> In y unique.
Proof.
  unfold among. rewrite existsb_exists. split.
  - intros (z & Hz & E). apply String.eqb_eq in E. subst. exact Hz.
  - intros H. exists y. split; [exact H | apply String.eqb_refl].
Qed.

Lemma among_app (unique : list string) (x y : string) :
  among (unique ++ [x]) y = among unique y || String.eqb y x.
Proof. unfold among. rewrite existsb_app. simpl. rewrite orb_false_r. reflexivity. Qed.

Lemma filter_among_snoc (unique : list string) (x : string) (l : list string) :
  List.filter (fun y => negb (among (unique ++ [x]) y)) l
  = List.filter (fun y => negb (among unique y))
      (List.filter (fun y => negb (String.eqb y x)) l).
Proof.
  induction l as [|y l IH]; simpl; [reflexivity|].
  rewrite among_app. destruct (String.eqb y x); simpl.
  - rewrite orb_true_r. simpl. exact IH.
  - rewrite orb_false_r. destruct (among unique y); simpl; rewrite IH; reflexivity.
Qed.

Lemma filter_among_seen (unique : list string) (x : string) (l : list string) :
  among unique x = true ->
  List.filter (fun y => negb (among unique y))
    (List.filter (fun y => negb (String.eqb y x)) l)
  = List.filter (fun y => negb (among unique y)) l.
Proof.
  intros Hx. induction l as [|y l IH]; simpl; [reflexivity|].
  destruct (String.eqb_spec y x) as [->|_]; simpl.
  - rewrite Hx. simpl. exact IH.
  - rewrite IH. reflexivity.
Qed.

(** The loop keeps, after what it had, the first occurrences that are
    new. *)
Lemma dedup_fold (matches : list string) :
  forall (seen : gset string) (unique : list string),
    (forall y, y ∈ seen <-> In y unique) ->
    (fold_left dedup_step matches (seen, unique)).2
    = unique ++ List.filter (fun y => negb (among unique y)) (firsts matches).
Proof.
  induction matches as [|x l IH]; intros seen unique Inv; simpl.
  - rewrite app_nil_r. reflexivity.
  - case_bool_decide as Hx.
    + assert (A : among unique x = true) by (apply among_In, Inv, Hx).
      rewrite (IH seen unique Inv), A. simpl.
      rewrite filter_among_seen by exact A. reflexivity.
    + assert (A : among unique x = false).
      { destruct (among unique x) eqn:E; [|reflexivity].
        apply among_In, Inv in E. contradiction. }
      rewrite (IH ({[x]} ∪ seen) (unique ++ [x])), A.
      * simpl. rewrite filter_among_snoc, <- app_assoc. reflexivity.
      * intros y. rewrite elem_of_union, elem_of_singleton, in_app_iff, Inv.
        simpl. intuition congruence.
Qed.

Lemma firsts_In (l : list string) (x : string) : In x (firsts l) <-> In x l.
Proof.
  induction l as [|y l IH]; simpl; [reflexivity|].
  rewrite filter_In, IH, negb_true_iff, String.eqb_neq.
  destruct (String.eqb_spec x y) as [->|Hn]; [tauto|].
  split; [intros [H|[H _]]; auto | intros [H|H]; auto; congruence].
Qed.

Lemma firsts_NoDup (l : list string) : List.NoDup (firsts l).
Proof.
  induction l as [|y l IH]; simpl; constructor.
  - rewrite filter_In, String.eqb_refl. intros [_ H]. discriminate.
  - apply List.NoDup_filter. exact IH.
Qed.

End DedupFacts.

Module EvaluatorProperties.

Import Predicates PredicateSpec PredicateSamples.

(** X1: for a predicate object in which every [order_violation] entry
    carries its [must_not_happen] pair, the evaluator answers [activated =
    true] exactly when the object has at least one clause with a supported
    key and every supported clause present holds on the trace, the text and
    the structured response. *)
Theorem activated_iff_clauses_hold (p : predicate) (tr : ToolTrace) (tx : string)
    (js : option (list (string * json))) :
  (forall o, order_violation (trace_of p) = Some o -> is_Some (must_not_happen o)) ->
  (activated_of (evaluate_violation p tr tx js) = true
   <-> (0 < supported_clauses p)%nat /\ clauses_hold p tr tx js = true).
Proof.
  intros H. rewrite PredicateFacts.activated_is_checked,
    (PredicateFacts.checked_is_hold p tr tx js H), andb_true_iff, Nat.ltb_lt.
  reflexivity.
Qed.

Lemma activated_iff_clauses_hold_witness :
  activated_of (evaluate_violation skipped_verification sample_trace sample_text None)
  = true
  <-> (0 < supported_clauses skipped_verification)%nat
      /\ clauses_hold skipped_verification sample_trace sample_text None = true.
Proof.
  apply (activated_iff_clauses_hold skipped_verification sample_trace sample_text None).
  intros o H. discriminate H.
Defined.

(** X2: unsupported keys never change the answer: two predicate objects
    with the same supported clauses get the same [activated]. *)
Theorem unsupported_keys_do_not_matter (p p' : predicate) (tr : ToolTrace)
    (tx : string) (js : option (list (string * json))) :
  same_supported p p' ->
  activated_of (evaluate_violation p tr tx js)
  = activated_of (evaluate_violation p' tr tx js).
Proof.
  intros (H1 & H2 & H3 & H4 & H5 & H6 & H7).
  rewrite !PredicateFacts.activated_is_checked.
  unfold supported_clauses, clauses_checked, clauses_with.
  rewrite H1, H2, H3, H4, H5, H6, H7. reflexivity.
Qed.

Lemma unsupported_keys_do_not_matter_witness :
  activated_of (evaluate_violation skipped_verification sample_trace sample_text None)
  = activated_of (evaluate_violation skipped_verification_noisy sample_trace
                    sample_text None).
Proof.
  refine (unsupported_keys_do_not_matter skipped_verification
            skipped_verification_noisy sample_trace sample_text None _).
  unfold same_supported. split; [|split; [|split; [|split; [|split; [|split]]]]];
    reflexivity.
Defined.

(** X3: a predicate object with no supported key gets [activated = false]
    on every trace, text and structured response, and the last reason is
    the "no supported predicates" error. *)
Theorem no_supported_key_fails_closed (p : predicate) (tr : ToolTrace) (tx : string)
    (js : option (list (string * json))) :
  supported_clauses p = 0%nat ->
  exists rs, evaluate_violation p tr tx js = inr (false, Joined rs)
             /\ last rs = Some NoSupportedPredicates.
Proof.
  unfold supported_clauses. intros H.
  destruct (called (trace_of p)) eqn:E1; [simpl in H; lia|].
  destruct (not_called (trace_of p)) eqn:E2; [simpl in H; lia|].
  destruct (order_violation (trace_of p)) eqn:E3; [simpl in H; lia|].
  destruct (contains_any (text_of p)) eqn:E4; [simpl in H; lia|].
  destruct (not_contains_any (text_of p)) eqn:E5; [simpl in H; lia|].
  destruct (field_equals (json_of p)) eqn:E6; [simpl in H; lia|].
  destruct (field_in (json_of p)) eqn:E7; [simpl in H; lia|].
  unfold evaluate_violation, eval_called, eval_not_called, eval_order,
    eval_contains_any, eval_not_contains_any, eval_field_equals, eval_field_in.
  fold (trace_of p) (text_of p) (json_of p).
  rewrite E1, E2, E3, E4, E5, E6, E7. unfold warn.
  destruct (bool_decide (trace_unknown (trace_of p) = ∅)),
    (bool_decide (text_unknown (text_of p) = ∅)),
    (bool_decide (json_unknown (json_of p) = ∅));
    eexists; split; reflexivity.
Qed.

Lemma no_supported_key_fails_closed_witness :
  exists rs, evaluate_violation unsupported_only sample_trace sample_text None
             = inr (false, Joined rs)
             /\ last rs = Some NoSupportedPredicates.
Proof.
  apply (no_supported_key_fails_closed unsupported_only sample_trace sample_text None).
  reflexivity.
Defined.

End EvaluatorProperties.

Module FailingIds.

(** X4: the failing ids are the matches of the FAILED pattern at their
    first occurrence, in order: no id occurs twice, and an id is extracted
    exactly when some FAILED line matches it. *)
Theorem failing_ids_are_first_occurrences (output : string) :
  Outcome.extract_failing_test_ids output
  = OutcomeSpec.firsts (Re.findall Outcome.failed_pattern output)
  /\ List.NoDup (Outcome.extract_failing_test_ids output)
  /\ (forall x, In x (Outcome.extract_failing_test_ids output)
                <-> In x (Re.findall Outcome.failed_pattern output)).
Proof.
  assert (E : Outcome.extract_failing_test_ids output
              = OutcomeSpec.firsts (Re.findall Outcome.failed_pattern output)).
  { unfold Outcome.extract_failing_test_ids.
    rewrite (DedupFacts.dedup_fold _ ∅ []).
    - simpl. induction (OutcomeSpec.firsts _) as [|y l IH]; simpl; [reflexivity|].
      rewrite IH. reflexivity.
    - intros y. rewrite elem_of_empty. simpl. tauto. }
  split; [exact E|]. rewrite E. split.
  - apply DedupFacts.firsts_NoDup.
  - intros x. apply DedupFacts.firsts_In.
Qed.

End FailingIds.


(** ** The trace checks on every trace *)

Module IndexFacts.

Lemma index_from_zero (x : string) (l : list string) :
  PyList.index_from x 0 l = PyList.index x l.
Proof. reflexivity. Qed.

Lemma index_cons (x y : string) (l : list string) :
  PyList.index x (y :: l)
  = if String.eqb y x then Some 0%nat else S <$> PyList.index x l.
Proof. reflexivity. Qed.

Lemma index_Some (x : string) (l : list string) (i : nat) :
  PyList.index x l = Some i ->
  nth_error l i = Some x /\ (forall j, (j < i)%nat -> nth_error l j <> Some x).
Proof.
  revert i. induction l as [|y l IH]; intros i H; [discriminate|].
  rewrite index_cons in H. destruct (String.eqb_spec y x) as [->|Hne].
  - inversion H; subst. split; [reflexivity|]. intros j Hj. lia.
  - destruct (PyList.index x l) as [k|] eqn:E; [|discriminate].
    inversion H; subst. destruct (IH k eq_refl) as [H1 H2].
    split; [exact H1|]. intros [|j] Hj; simpl.
    + intros [= ->]. contradiction.
    + apply H2. lia.
Qed.

Lemma index_None (x : string) (l : list string) :
  PyList.index x l = None <-> ~ In x l.
Proof.
  induction l as [|y l IH]; [simpl; tauto|].
  rewrite index_cons. destruct (String.eqb_spec y x) as [->|Hne].
  - split; [discriminate|]. intros H. exfalso. apply H. left. reflexivity.
  - destruct (PyList.index x l) as [k|]; simpl.
    + split; [discriminate|]. intros H. exfalso.
      assert (Hx : ~ In x l) by (intros Hx; apply H; right; exact Hx).
      apply IH in Hx. discriminate.
    + split; [|reflexivity]. intros _ [H|H]; [contradiction|].
      destruct IH as [IH _]. exact (IH eq_refl H).
Qed.

Lemma index_is_Some (x : string) (l : list string) :
  is_Some (PyList.index x l) <-> In x l.
Proof.
  destruct (PyList.index x l) as [i|] eqn:E.
  - split; [|eauto]. intros _. destruct (index_Some x l i E) as [H _].
    eapply nth_error_In. exact H.
  - split; [intros [? ?]; discriminate|].
    intros H. apply index_None in E. contradiction.
Qed.

Lemma mem_In (x : string) (l : list string) :
  PyList.mem x l = true <-> In x l.
Proof.
  unfold PyList.mem. rewrite existsb_exists. split.
  - intros (y & Hy & E). apply String.eqb_eq in E. subst. exact Hy.
  - intros H. exists x. split; [exact H | apply String.eqb_refl].
Qed.

Lemma index_app (x : string) (l m : list string) :
  In x l -> PyList.index x (l ++ m) = PyList.index x l.
Proof.
  induction l as [|y l IH]; intros H; [destruct H|].
  simpl app. rewrite !index_cons.
  destruct (String.eqb_spec y x) as [->|Hne]; [reflexivity|].
  destruct H as [H|H]; [contradiction|]. rewrite (IH H). reflexivity.
Qed.

(** The loop of the order check computes the two first occurrences. *)
Lemma first_seen_fold (a b : string) (names : list string) :
  forall (k : nat) (acc : option nat * option nat),
    fold_left (Predicates.first_seen a b) (combine (seq k (length names)) names) acc
    = (match acc.1 with
       | Some i => Some i
       | None => Nat.add k <$> PyList.index a names
       end,
       match acc.2 with
       | Some i => Some i
       | None => Nat.add k <$> PyList.index b names
       end).
Proof.
  induction names as [|n names IH]; intros k [ia ib]; simpl.
  - destruct ia, ib; reflexivity.
  - rewrite IH. rewrite !index_cons.
    destruct ia as [i|], ib as [j|]; simpl;
      destruct (String.eqb n a), (String.eqb n b); simpl;
      try reflexivity;
      repeat match goal with
             | |- context [PyList.index ?x names] =>
                 destruct (PyList.index x names); simpl
             end;
      rewrite ?Nat.add_0_r, ?Nat.add_succ_r; reflexivity.
Qed.

Lemma order_check_indices (t : ToolTrace) (a b : string) :
  Predicates._check_trace_order_violation t [a; b]
  = match PyList.index a (Trace.names t), PyList.index b (Trace.names t) with
    | Some i, Some j => (i <? j)%nat
    | _, _ => false
    end.
Proof.
  unfold Predicates._check_trace_order_violation, Predicates.enumerate.
  rewrite first_seen_fold. simpl.
  destruct (PyList.index a (Trace.names t)), (PyList.index b (Trace.names t));
    reflexivity.
Qed.

End IndexFacts.

Module TraceChecks.

Import Predicates.

(** X6: the order check on every trace: with a pair [[A, B]] it answers
    [true] exactly when both names occur and the first occurrence of [A]
    is before the first occurrence of [B]; so it is [false] for [A = B],
    and it is [false] for a list that is not a pair. *)
Theorem order_check_compares_first_occurrences (t : ToolTrace) (a b : string) :
  _check_trace_order_violation t [a; b]
  = match PyList.index a (Trace.names t), PyList.index b (Trace.names t) with
    | Some i, Some j => (i <? j)%nat
    | _, _ => false
    end
  /\ _check_trace_order_violation t [a; a] = false
  /\ (forall l, length l <> 2%nat -> _check_trace_order_violation t l = false).
Proof.
  split; [apply IndexFacts.order_check_indices|]. split.
  - rewrite IndexFacts.order_check_indices.
    destruct (PyList.index a (Trace.names t)); [apply Nat.ltb_irrefl | reflexivity].
  - intros [|x [|y [|z l]]] H; try reflexivity. destruct H. reflexivity.
Qed.

(** X7: calls recorded later never undo a satisfied [called] clause,
    never repair a violated [not_called] clause, and never change the
    order check once both names of the pair have occurred. *)
Theorem trace_checks_stable_under_later_calls (t more : ToolTrace)
    (tool_names : list string) (a b : string) :
  (_check_trace_called t tool_names = true ->
   _check_trace_called (t ++ more) tool_names = true)
  /\ (_check_trace_not_called t tool_names = false ->
      _check_trace_not_called (t ++ more) tool_names = false)
  /\ (In a (Trace.names t) -> In b (Trace.names t) ->
      _check_trace_order_violation (t ++ more) [a; b]
      = _check_trace_order_violation t [a; b]).
Proof.
  split; [|split].
  - unfold _check_trace_called, Trace.names. rewrite map_app.
    rewrite !bool_decide_eq_true. set_solver.
  - unfold _check_trace_not_called, Trace.names. rewrite map_app.
    rewrite !bool_decide_eq_false, !size_empty_iff. set_solver.
  - intros Ha Hb. rewrite !IndexFacts.order_check_indices.
    unfold Trace.names in *. rewrite map_app.
    rewrite (IndexFacts.index_app a _ _ Ha), (IndexFacts.index_app b _ _ Hb).
    reflexivity.
Qed.

Lemma trace_checks_stable_under_later_calls_witness :
  _check_trace_called (Trace.of_names ["verify_identity"; "cancel_order"])
    ["verify_identity"] = true
  /\ _check_trace_order_violation
       (Trace.of_names ["verify_identity"; "cancel_order"; "verify_identity"])
       ["cancel_order"; "verify_identity"] = false.
Proof.
  split.
  - refine (proj1 (trace_checks_stable_under_later_calls
                     (Trace.of_names ["verify_identity"])
                     (Trace.of_names ["cancel_order"]) ["verify_identity"]
                     "a" "b") _).
    reflexivity.
  - refine (eq_trans
              (proj2 (proj2 (trace_checks_stable_under_later_calls
                               (Trace.of_names ["verify_identity"; "cancel_order"])
                               (Trace.of_names ["verify_identity"]) []
                               "cancel_order" "verify_identity")) _ _) _).
    + simpl. right. left. reflexivity.
    + simpl. left. reflexivity.
    + reflexivity.
Defined.

End TraceChecks.

(** ** The evaluator: errors and reasons *)

Module ReasonFacts.

Import Predicates PredicateSpec ReasonSpec.

Lemma explained_append_ok (r : reason) (st : ev_state) :
  is_failure r = false -> explained st -> explained (append r st).
Proof.
  unfold explained, append. simpl. intros Hr H.
  rewrite existsb_app. simpl. rewrite Hr, !orb_false_r. exact H.
Qed.

Lemma explained_append_failed (r : reason) (st : ev_state) :
  is_failure r = true -> explained (append r (failed st)).
Proof.
  unfold explained, append, failed. simpl. intros Hr.
  rewrite existsb_app. simpl. rewrite Hr, orb_true_r. reflexivity.
Qed.

Lemma explained_checked (st : ev_state) : explained st -> explained (checked st).
Proof. exact (fun H => H). Qed.

Lemma explained_warn (ns : namespace) (u : gset string) (st : ev_state) :
  explained st -> explained (warn ns u st).
Proof.
  unfold warn. case_bool_decide; [exact (fun H => H)|].
  apply explained_append_ok. reflexivity.
Qed.

Ltac explain_step :=
  match goal with
  | |- context [match ?o with Some _ => _ | None => _ end] => destruct o
  end; try assumption;
  match goal with
  | |- context [if ?c then _ else _] => destruct c
  end;
  [apply explained_append_ok; [reflexivity | apply explained_checked; assumption]
  |apply explained_append_failed; reflexivity].

Lemma explained_called (tr : ToolTrace) (ts : trace_spec) (st : ev_state) :
  explained st -> explained (eval_called tr ts st).
Proof. intros H. unfold eval_called. explain_step. Qed.

Lemma explained_not_called (tr : ToolTrace) (ts : trace_spec) (st : ev_state) :
  explained st -> explained (eval_not_called tr ts st).
Proof. intros H. unfold eval_not_called. explain_step. Qed.

Lemma explained_contains_any (tx : string) (xs : text_spec) (st : ev_state) :
  explained st -> explained (eval_contains_any tx xs st).
Proof. intros H. unfold eval_contains_any. explain_step. Qed.

Lemma explained_not_contains_any (tx : string) (xs : text_spec) (st : ev_state) :
  explained st -> explained (eval_not_contains_any tx xs st).
Proof. intros H. unfold eval_not_contains_any. explain_step. Qed.

Lemma explained_field_equals (d : list (string * json)) (js : json_spec)
    (st : ev_state) :
  explained st -> explained (eval_field_equals d js st).
Proof. intros H. unfold eval_field_equals. explain_step. Qed.

Lemma explained_field_in (d : list (string * json)) (js : json_spec) (st : ev_state) :
  explained st -> explained (eval_field_in d js st).
Proof. intros H. unfold eval_field_in. explain_step. Qed.

Lemma explained_order (tr : ToolTrace) (ts : trace_spec) (st st' : ev_state) :
  explained st -> eval_order tr ts st = inr st' -> explained st'.
Proof.
  unfold eval_order. intros H.
  destruct (order_violation ts) as [o|]; [|intros [= <-]; exact H].
  destruct (must_not_happen o) as [l|]; [|intros [= <-]; exact H].
  destruct (index l 0) as [e|a]; [discriminate|].
  destruct (index l 1) as [e|b]; [discriminate|].
  destruct (_check_trace_order_violation tr l); intros [= <-].
  - apply explained_append_ok; [reflexivity | exact H].
  - apply explained_append_failed. reflexivity.
Qed.

Lemma explained_close (st : ev_state) : explained st -> explained (close st).
Proof.
  unfold close. destruct (predicates_checked st); [|exact (fun H => H)].
  intros _. apply explained_append_failed. reflexivity.
Qed.

(** When the order step raises, and only then, the pair is short. *)
Lemma eval_order_raises (tr : ToolTrace) (ts : trace_spec) (st : ev_state) :
  (exists e, eval_order tr ts st = inl e)
  <-> exists o l, order_violation ts = Some o /\ must_not_happen o = Some l
                  /\ (length l < 2)%nat.
Proof.
  unfold eval_order, index. split.
  - intros [e H]. destruct (order_violation ts) as [o|]; [|discriminate].
    destruct (must_not_happen o) as [l|] eqn:El; [|discriminate].
    exists o, l. split; [reflexivity|]. split; [exact El|].
    destruct l as [|a [|b l]]; simpl in *; [lia | lia | discriminate].
  - intros (o & l & -> & -> & Hl).
    destruct l as [|a [|b l]]; simpl in *; [eauto | eauto | lia].
Qed.

End ReasonFacts.

Module EvaluatorErrors.

Import Predicates PredicateSpec ReasonSpec.

(** X8: the evaluator raises [IndexError] exactly when the predicate
    object has an [order_violation.must_not_happen] list with fewer
    than two entries, whatever the trace, the text and the structured
    response are; on every other predicate object it returns. *)
Theorem evaluator_raises_iff_pair_is_short (p : predicate) (tr : ToolTrace)
    (tx : string) (js : option (list (string * json))) :
  evaluate_violation p tr tx js = inl IndexError
  <-> exists o l, order_violation (trace_of p) = Some o
                  /\ must_not_happen o = Some l /\ (length l < 2)%nat.
Proof.
  rewrite <- (ReasonFacts.eval_order_raises tr (trace_of p)
                (eval_not_called tr (trace_of p)
                   (eval_called tr (trace_of p)
                      (warn NsTrace (trace_unknown (trace_of p)) (mkEv [] true 0))))).
  unfold evaluate_violation. fold (trace_of p).
  destruct (eval_order _ _ _) as [[]|st].
  - split; [eauto | reflexivity].
  - split; [discriminate | intros [e H]; discriminate].
Qed.

(** X9: when the evaluator returns, [activated] is [false] exactly when
    one of the reasons is a FAILED line or the "no supported predicates"
    error; in particular an [activated = false] answer always comes with
    a reason that explains it. *)
Theorem not_activated_iff_a_reason_failed (p : predicate) (tr : ToolTrace)
    (tx : string) (js : option (list (string * json))) :
  match evaluate_violation p tr tx js with
  | inr (activated_, reason_text_) =>
      activated_ = negb (existsb is_failure (reasons_in reason_text_))
  | inl _ => True
  end.
Proof.
  unfold evaluate_violation.
  destruct (eval_order _ _ _) as [e|st] eqn:E; [exact I|].
  assert (H : explained st).
  { eapply ReasonFacts.explained_order; [|exact E].
    apply ReasonFacts.explained_not_called, ReasonFacts.explained_called,
      ReasonFacts.explained_warn. reflexivity. }
  match goal with
  | |- context [render (close ?s)] =>
      assert (H' : explained (close s))
  end.
  { apply ReasonFacts.explained_close, ReasonFacts.explained_field_in,
      ReasonFacts.explained_field_equals, ReasonFacts.explained_warn,
      ReasonFacts.explained_not_contains_any, ReasonFacts.explained_contains_any,
      ReasonFacts.explained_warn. exact H. }
  unfold render. unfold explained in H'.
  destruct (reasons (close _)) eqn:R; simpl; rewrite H'; rewrite ?R; reflexivity.
Qed.

End EvaluatorErrors.

(** ** Paths into the structured response *)

Module PathFacts.

Import Predicates.

Lemma split_nonempty (c : ascii) (s : string) : PyStr.split c s <> [].
Proof.
  destruct s as [|a s]; simpl; [discriminate|].
  destruct (Ascii.eqb a c); [discriminate|].
  destruct (PyStr.split c s); discriminate.
Qed.

Lemma split_app (c : ascii) (p q : string) :
  PyStr.split c (p +:+ String c q) = PyStr.split c p ++ PyStr.split c q.
Proof.
  induction p as [|a p IH]; simpl.
  - rewrite Ascii.eqb_refl. reflexivity.
  - rewrite IH. destruct (Ascii.eqb a c); [reflexivity|].
    pose proof (split_nonempty c p) as Hp.
    destruct (PyStr.split c p) as [|w ws]; [contradiction|]. reflexivity.
Qed.

Lemma split_without (c : ascii) (s : string) :
  PyStr.contains (String c "") s = false -> PyStr.split c s = [s].
Proof.
  induction s as [|a s IH]; simpl; [reflexivity|].
  intros H. apply orb_false_elim in H as [H1 H2].
  rewrite (IH H2).
  destruct (Ascii.eqb_spec a c) as [->|Hne]; [|reflexivity].
  exfalso. unfold String.prefix in H1. simpl in H1.
  destruct (Ascii.ascii_dec c c) as [_|Hc]; [|contradiction].
  destruct s; discriminate.
Qed.

Lemma get_json_none (parts : list string) :
  fold_left get_json_step parts None = None.
Proof. induction parts as [|x parts IH]; simpl; [reflexivity | exact IH]. Qed.

Lemma get_json_leaf (parts : list string) (v : json) :
  parts <> [] -> (forall kv, v <> JDict kv) ->
  fold_left get_json_step parts (Some v) = None.
Proof.
  destruct parts as [|x parts]; [contradiction|]. intros _ Hv. simpl.
  destruct v; try apply get_json_none. destruct (Hv kv eq_refl).
Qed.

Lemma get_json_empty (parts : list string) :
  parts <> [] -> fold_left get_json_step parts (Some (JDict [])) = None.
Proof.
  destruct parts as [|x parts]; [contradiction|]. intros _. simpl.
  apply get_json_none.
Qed.

End PathFacts.

Module JsonPaths.

Import Predicates.

(** X10: reading a field of the structured response by a dotted path.
    A key without a dot is looked up in the document, and a key that is
    not there reads as [None]; the path [p.q] reads [q] in the dictionary
    found at [p], and reads as [None] when [p] is missing or is not a
    dictionary; on the empty document, which also stands for a response
    that is [None], every path reads as [None], so a [field_equals]
    clause whose value is [None] holds there. *)
Theorem json_field_follows_the_path (data : list (string * json)) :
  (forall key, PyStr.contains "." key = false ->
               _get_json_field data key = default JNull (Json.assoc key data))
  /\ (forall p q,
        _get_json_field data (p +:+ "." +:+ q)
        = match _get_json_field data p with
          | JDict kv => _get_json_field kv q
          | _ => JNull
          end)
  /\ (forall path, _get_json_field [] path = JNull
                   /\ _check_json_field_equals [] path JNull = true).
Proof.
  split; [|split].
  - intros key H. unfold _get_json_field.
    rewrite (PathFacts.split_without "." key H). reflexivity.
  - intros p q. unfold _get_json_field.
    change (p +:+ "." +:+ q) with (p +:+ String "." q).
    rewrite PathFacts.split_app, fold_left_app.
    pose proof (PathFacts.split_nonempty "." q) as Hq.
    destruct (fold_left get_json_step (PyStr.split "." p) (Some (JDict data)))
      as [v|]; simpl.
    + destruct v; try (rewrite PathFacts.get_json_leaf;
                       [reflexivity | exact Hq | discriminate]).
      reflexivity.
    + rewrite PathFacts.get_json_none. reflexivity.
  - intros path.
    assert (E : _get_json_field [] path = JNull).
    { unfold _get_json_field.
      rewrite PathFacts.get_json_empty; [reflexivity|].
      apply PathFacts.split_nonempty. }
    split; [exact E|]. unfold _check_json_field_equals. rewrite E. reflexivity.
Qed.

Lemma json_field_follows_the_path_witness :
  _get_json_field [("decision", JStr "REFUND")] "decision" = JStr "REFUND".
Proof.
  refine (proj1 (json_field_follows_the_path [("decision", JStr "REFUND")])
            "decision" _).
  reflexivity.
Defined.

End JsonPaths.

(** ** The respond call and the assertions on a trace *)

Module AssertionFacts.

Import Assertions.

Lemma index_from_drop (x : string) (l : list string) :
  forall idx, PyList.index_from x idx l = Nat.add idx <$> PyList.index x (drop idx l).
Proof.
  induction l as [|y l IH]; intros [|k]; simpl; try reflexivity.
  - unfold PyList.index. simpl.
    destruct (String.eqb y x); [reflexivity|].
    destruct (PyList.index_from x 0 l); reflexivity.
  - rewrite IH. destruct (PyList.index x (drop k l)); reflexivity.
Qed.

(** A list that starts with [e] is a subsequence of [l] exactly when
    the rest is a subsequence of what follows the first [e] of [l]. *)
Lemma sublist_first (e : string) (es l : list string) :
  (e :: es) `sublist_of` l
  <-> exists j, PyList.index e l = Some j /\ es `sublist_of` drop (S j) l.
Proof.
  induction l as [|y l IH].
  - split; [intros H; inversion H | intros (j & H & _); discriminate].
  - rewrite IndexFacts.index_cons. destruct (String.eqb_spec y e) as [->|Hne].
    + split.
      * intros H. exists 0%nat. split; [reflexivity|]. simpl. rewrite drop_0.
        inversion H; subst; [assumption|].
        transitivity (e :: es); [apply sublist_cons; reflexivity | assumption].
      * intros (j & [= <-] & H). simpl in H. rewrite drop_0 in H.
        apply sublist_skip. exact H.
    + split.
      * intros H. inversion H; subst; [contradiction|].
        apply IH in H2 as (j & Hj & Hs). exists (S j). rewrite Hj.
        split; [reflexivity | exact Hs].
      * intros (j & Hj & Hs).
        destruct (PyList.index e l) as [k|] eqn:E; [|discriminate].
        inversion Hj; subst. apply sublist_cons. apply IH.
        exists k. split; [reflexivity | exact Hs].
Qed.

Lemma call_order_loop_sublist (got : list string) (expected : list string) :
  forall idx, call_order_loop got idx expected = inr tt
              <-> expected `sublist_of` drop idx got.
Proof.
  induction expected as [|e es IH]; intros idx; simpl.
  - split; [intros _; apply sublist_nil_l | reflexivity].
  - rewrite sublist_first, index_from_drop.
    destruct (PyList.index e (drop idx got)) as [j|]; simpl.
    + rewrite IH.
      assert (E : drop (S j) (drop idx got) = drop (S (idx + j)) got).
      { rewrite drop_drop. f_equal. lia. }
      split; [intros H; exists j; split; [reflexivity | rewrite E; exact H]
             | intros (j' & [= <-] & H); rewrite <- E; exact H].
    + split; [discriminate | intros (j & H & _); discriminate].
Qed.

End AssertionFacts.

Module TraceAssertions.

Import Assertions.

(** X11: [assert_call_order] returns exactly when the expected names
    occur in the trace in that order, other calls allowed in between (the
    expected list is a subsequence of the names of the trace); otherwise
    it raises [AssertionError]. *)
Theorem call_order_is_subsequence (trace : ToolTrace) (expected : list string) :
  (assert_call_order trace expected = inr tt
   <-> expected `sublist_of` Trace.names trace)
  /\ (assert_call_order trace expected = inl AssertionError
      <-> ~ expected `sublist_of` Trace.names trace).
Proof.
  pose proof (AssertionFacts.call_order_loop_sublist (Trace.names trace) expected 0)
    as H.
  rewrite drop_0 in H. fold (assert_call_order trace expected) in H.
  split; [exact H|].
  assert (D : assert_call_order trace expected = inr tt
              \/ assert_call_order trace expected = inl AssertionError).
  { clear H. unfold assert_call_order. generalize 0%nat.
    induction expected as [|e es IH]; intros idx; simpl; [left; reflexivity|].
    destruct (PyList.index_from e idx (Trace.names trace)); [apply IH | right; reflexivity]. }
  split.
  - intros E Hs. apply H in Hs. congruence.
  - intros Hn. destruct D as [D|D]; [|exact D]. apply H in D. contradiction.
Qed.

(** X12: the authentication gate is the order check of the predicate
    language: [assert_auth_gate] returns exactly when the action tool
    was not called, or the order check on the pair (authentication tool,
    action tool) answers [true], that is, the first authentication call
    is before the first action call; otherwise it raises
    [AssertionError], and it never raises [ValueError]. *)
Theorem auth_gate_is_the_order_check (trace : ToolTrace) (action_tool : string)
    (auth_tool : option string) :
  assert_auth_gate trace action_tool auth_tool
  = assert_ (negb (PyList.mem action_tool (Trace.names trace))
             || Predicates._check_trace_order_violation trace
                  [default default_auth_tool auth_tool; action_tool]).
Proof.
  unfold assert_auth_gate, auth_first, index.
  rewrite IndexFacts.order_check_indices.
  set (auth := default default_auth_tool auth_tool).
  set (calls := Trace.names trace).
  destruct (PyList.mem action_tool calls) eqn:Ma; [|reflexivity]. simpl.
  apply IndexFacts.mem_In, IndexFacts.index_is_Some in Ma as [j Hj]. rewrite Hj.
  destruct (PyList.mem auth calls) eqn:Mu.
  - apply IndexFacts.mem_In, IndexFacts.index_is_Some in Mu as [i Hi]. rewrite Hi.
    reflexivity.
  - destruct (PyList.index auth calls) as [i|] eqn:Hi; [|reflexivity].
    assert (Hin : In auth calls) by (apply IndexFacts.index_is_Some; eauto).
    apply IndexFacts.mem_In in Hin. congruence.
Qed.

End TraceAssertions.

Module RespondCall.

Import TraceQueries.

(** X13: the structured response of a trace is the arguments of its
    last [respond] call: recording a [respond] call makes its arguments
    the response, recording any other call leaves the response as it
    was, and [get_response] raises [ValueError] exactly when the trace
    has no [respond] call. *)
Theorem response_is_the_last_respond_call (t : ToolTrace) :
  (forall n a r e,
     get_response (Trace.record t n a r e)
     = if String.eqb n "respond" then inr a else get_response t)
  /\ (get_response t = inl ValueError <-> ~ In "respond" (Trace.names t)).
Proof.
  split.
  - intros n a r e. unfold get_response, get_respond_call, Trace.record.
    rewrite rev_app_distr. simpl. destruct (String.eqb n "respond"); reflexivity.
  - unfold get_response, get_respond_call.
    destruct (List.find _ (rev t)) as [c|] eqn:F.
    + split; [discriminate|]. intros H. exfalso. apply H.
      apply List.find_some in F as [Hin Hc]. apply String.eqb_eq in Hc.
      rewrite <- Hc. apply in_map. apply in_rev. exact Hin.
    + split; [|reflexivity]. intros _ Hin.
      apply in_map_iff in Hin as (c & Hc & Hin).
      apply in_rev in Hin.
      pose proof (List.find_none _ _ F c Hin) as Hn. simpl in Hn.
      rewrite Hc in Hn. discriminate.
Qed.

End RespondCall.

(** ** The mutation engine: files, the override channel, the summary *)

Module ChannelFacts.

Import Mutation MutationSpec.

Section WithCollaborators.

Context {W Probe : Type}.
Variable generate_mutant :
  string -> string -> list string -> list (string * string) ->
  W -> option MutantArtifacts * W.
Variable run_activation_probe_with_prompt :
  string -> Probe -> string -> option string -> list (string * string) ->
  W -> option bool * W.
Variable run_tests :
  string -> string -> gmap string string -> gmap string string ->
  W -> option (Z * string) * W.
Variable temp_name : string -> gmap string string -> W -> string * W.
Variable yaml_dump : list (string * string) -> string.

Lemma no_suite_run (evs : list event) :
  suite_runs evs = 0%nat -> forall cmd env fs, ~ In (RanTests cmd env fs) evs.
Proof.
  induction evs as [|e evs IH]; intros H cmd env fs; [intros []|].
  destruct e; simpl in *; try discriminate;
    intros [H'|H']; try discriminate; exact (IH H _ _ _ H').
Qed.

(** A run when every temporary name is new: what is left on disk, and
    what the suite is started on. *)
Lemma run_mutation_test_suite (repo_root spec_name : string)
    (mutation_ : mutation Probe) (base_prompt : string)
    (btd : list (string * string)) (cfg : generator_config)
    (prompt_path test_cmd : string) (cache_dir : option string)
    (spec_version : string) (st : state W) (res : option MutationResult)
    (st' : state W) :
  (forall suffix fs w, fs !! (temp_name suffix fs w).1 = None) ->
  run_mutation_test generate_mutant run_activation_probe_with_prompt run_tests
    temp_name yaml_dump repo_root spec_name mutation_ base_prompt btd cfg
    prompt_path test_cmd cache_dir spec_version st = (res, st') ->
  exists evs,
    log st' = log st ++ evs
    /\ (forall p, (forall d k, cache_dir = Some d ->
                               cache_file d (m_id mutation_) k <> p) ->
                  files st' !! p = files st !! p)
    /\ forall cmd env fs, In (RanTests cmd env fs) evs ->
         cmd = test_cmd
         /\ exists t1 t2 m k,
              In (Probed k m (Some true)) evs
              /\ (exists fs1 w1, t1 = (temp_name ".txt" fs1 w1).1)
              /\ (exists fs2 w2, t2 = (temp_name ".yaml" fs2 w2).1)
              /\ env = <["TDAD_TOOL_DESC_OVERRIDE_PATH" := t2]>
                         (<["TDAD_PROMPT_OVERRIDE_PATH" := t1]> ∅)
              /\ fs !! t1 = Some (prompt m)
              /\ fs !! t2 = Some (yaml_dump (tool_descriptions m)).
Proof.
  intros Hfresh. unfold run_mutation_test. intros Hrun.
  destruct (attempt_loop _ _ _ _ _ _ _ _ _ _ _ _ _) as [a st1] eqn:L.
  assert (Hf1 : forall p, (forall d k, cache_dir = Some d ->
                                        cache_file d (m_id mutation_) k <> p) ->
                          files st1 !! p = files st !! p).
  { intros p Hp.
    eapply EngineFacts.attempt_loop_files; [exact Hp | exact L]. }
  apply EngineFacts.attempt_loop_log in L; [|reflexivity|reflexivity].
  destruct L as (evs & Hl & Hb & H1 & H2 & H3 & H4 & H5 & H6).
  pose proof (no_suite_run evs H2) as Hnone.
  destruct (a_activated a) eqn:A.
  - destruct (H5 eq_refl) as (m & Hm & Hin). rewrite Hm in Hrun.
    pose proof (EngineFacts.write_temp_log temp_name ".txt" (prompt m) st1)
      as (T1 & F1 & N1).
    destruct (write_temp temp_name ".txt" (prompt m) st1) as [t1 st2].
    pose proof (EngineFacts.write_temp_log temp_name ".yaml"
                  (yaml_dump (tool_descriptions m)) st2) as (T2 & F2 & N2).
    destruct (write_temp temp_name ".yaml" _ st2) as [t2 st3].
    simpl in T1, T2, F1, F2, N1, N2.
    assert (Hn1 : files st1 !! t1 = None).
    { rewrite N1. apply Hfresh. }
    assert (Hn2 : files st2 !! t2 = None).
    { rewrite N2. apply Hfresh. }
    assert (Ht12 : t2 <> t1).
    { intros ->. rewrite F1, lookup_insert_eq in Hn2. discriminate. }
    destruct (run_tests _ _ _ _ _) as [r w].
    assert (E : st' = unlink t2 (unlink t1
                         (emit (RanTests test_cmd
                                  (<["TDAD_TOOL_DESC_OVERRIDE_PATH" := t2]>
                                     (<["TDAD_PROMPT_OVERRIDE_PATH" := t1]> ∅))
                                  (files st3))
                               (mkState (files st3) w (log st3))))).
    { destruct r as [[ec out]|]; inversion Hrun; reflexivity. }
    subst st'. simpl.
    eexists (evs ++ [Saved t1 _; Saved t2 _; RanTests _ _ _;
                     Unlinked t1; Unlinked t2]).
    split; [rewrite T2, T1, Hl, <- !app_assoc; reflexivity|]. split.
    + intros p Hp. rewrite <- (Hf1 p Hp).
      destruct (decide (p = t2)) as [->|Hp2].
      { rewrite lookup_delete_eq. rewrite F1, lookup_insert_ne in Hn2 by congruence.
        symmetry. exact Hn2. }
      rewrite lookup_delete_ne by congruence.
      destruct (decide (p = t1)) as [->|Hp1].
      { rewrite lookup_delete_eq. symmetry. exact Hn1. }
      rewrite lookup_delete_ne by congruence.
      rewrite F2, lookup_insert_ne, F1, lookup_insert_ne by congruence.
      reflexivity.
    + intros cmd env fs Hin'. apply in_app_or in Hin' as [Hin'|Hin'];
        [destruct (Hnone _ _ _ Hin')|].
      simpl in Hin'.
      destruct Hin' as [Hin'|[Hin'|[Hin'|[Hin'|[Hin'|[]]]]]]; try discriminate.
      inversion Hin'; subst cmd env fs. split; [reflexivity|].
      exists t1, t2, m, (a_attempts a).
      split; [apply in_or_app; left; exact Hin|].
      split; [eauto|]. split; [eauto|]. split; [reflexivity|]. split.
      * rewrite F2, lookup_insert_ne, F1 by exact Ht12. apply lookup_insert_eq.
      * rewrite F2. apply lookup_insert_eq.
  - assert (E : st' = st1).
    { destruct (a_mutant_artifacts a); inversion Hrun; reflexivity. }
    subst st'. exists evs. split; [exact Hl|]. split; [exact Hf1|].
    intros cmd env fs Hin. destruct (Hnone _ _ _ Hin).
Qed.

End WithCollaborators.

Lemma env_path_child (environ : gmap string string) (env : gmap string string)
    (key v : string) :
  env !! key = Some v -> v <> "" ->
  PromptLoader.env_path (Subprocess.child_env environ env) key = Some v.
Proof.
  intros H Hv. unfold PromptLoader.env_path, Subprocess.child_env.
  rewrite (lookup_union_Some_l _ _ _ _ H).
  destruct v; [contradiction | reflexivity].
Qed.

End ChannelFacts.

Module FrameFacts.

Import Mutation MutationSpec FrameSpec.

Lemma cache_write_more {Probe : Type} (cache_dir : option string)
    (mutation_ : mutation Probe) (e1 evs e2 : list event) (p c : string) :
  cache_write cache_dir mutation_ evs p c ->
  cache_write cache_dir mutation_ (e1 ++ evs ++ e2) p c.
Proof.
  intros (d & k & m & H1 & H2 & H3 & H4). exists d, k, m.
  repeat split; try assumption.
  apply in_or_app. right. apply in_or_app. left. exact H4.
Qed.

Section WithCollaborators.

Context {W Probe : Type}.
Variable generate_mutant :
  string -> string -> list string -> list (string * string) ->
  W -> option MutantArtifacts * W.
Variable run_activation_probe_with_prompt :
  string -> Probe -> string -> option string -> list (string * string) ->
  W -> option bool * W.
Variable run_tests :
  string -> string -> gmap string string -> gmap string string ->
  W -> option (Z * string) * W.
Variable temp_name : string -> gmap string string -> W -> string * W.
Variable yaml_dump : list (string * string) -> string.

(** The attempt loop writes cache files only, each with the variant of
    its attempt, and removes nothing. *)
Lemma attempt_loop_writes (repo_root spec_name spec_version : string)
    (mutation_ : mutation Probe) (base_prompt : string)
    (btd : list (string * string)) (cs : list string) (cache_dir : option string)
    (todo : list nat) :
  forall (a : attempt_state) (st : state W) (a' : attempt_state) (st' : state W),
    attempt_loop generate_mutant run_activation_probe_with_prompt
      repo_root spec_name spec_version mutation_ base_prompt btd cs cache_dir
      todo a st = (a', st') ->
    exists evs,
      log st' = log st ++ evs
      /\ (forall p c, In (Saved p c) evs -> cache_write cache_dir mutation_ evs p c)
      /\ (forall p, ~ In (Unlinked p) evs).
Proof.
  induction todo as [|k todo IH]; intros a st a' st' Hrun; simpl in Hrun.
  - inversion Hrun; subst. exists []. rewrite app_nil_r.
    split; [reflexivity|]. split; [intros p c []|intros p []].
  - destruct (generate_mutant base_prompt (m_intent mutation_) cs btd (world st))
      as [g w].
    destruct g as [m|].
    + set (st0 := emit (Generated (S k) (Some m)) (mkState (files st) w (log st))) in *.
      set (stc := match cache_dir with
                  | Some d => save_prompt _ _ _
                  | None => _
                  end) in *.
      assert (C : exists sv,
                 log stc = log st ++ Generated (S k) (Some m) :: sv
                 /\ (forall e, In e sv ->
                                exists d, cache_dir = Some d
                                          /\ e = Saved (cache_file d (m_id mutation_) (S k))
                                                       (prompt m))).
      { subst stc. destruct cache_dir as [d|].
        - exists [Saved (cache_file d (m_id mutation_) (S k)) (prompt m)].
          split; [simpl; rewrite <- app_assoc; reflexivity|].
          intros e [<-|[]]. exists d. split; reflexivity.
        - exists []. split; [reflexivity|intros e []]. }
      destruct C as (sv & Hc & Hsv). clearbody stc. clear st0.
      destruct (run_activation_probe_with_prompt _ _ _ _ _ _) as [r w0].
      assert (S0 : forall evs2,
                 (forall p c, In (Saved p c) evs2 ->
                              cache_write cache_dir mutation_ evs2 p c) ->
                 (forall p, ~ In (Unlinked p) evs2) ->
                 (forall p c, In (Saved p c)
                                (Generated (S k) (Some m) :: sv
                                 ++ Probed (S k) m r :: evs2) ->
                              cache_write cache_dir mutation_
                                (Generated (S k) (Some m) :: sv
                                 ++ Probed (S k) m r :: evs2) p c)
                 /\ (forall p, ~ In (Unlinked p)
                                  (Generated (S k) (Some m) :: sv
                                   ++ Probed (S k) m r :: evs2))).
      { intros evs2 H1 H2. split.
        - intros p c [H|H]; [discriminate|].
          apply in_app_or in H as [H|[H|H]]; [| discriminate |].
          + destruct (Hsv _ H) as (d & Hd & E). inversion E; subst p c.
            exists d, (S k), m. repeat split; [exact Hd|]. left. reflexivity.
          + pose proof (cache_write_more cache_dir mutation_
                          (Generated (S k) (Some m) :: sv ++ [Probed (S k) m r]) evs2 []
                          p c (H1 p c H)) as H1'.
            rewrite app_nil_r in H1'. simpl in H1'. rewrite <- app_assoc in H1'.
            exact H1'.
        - intros p [H|H]; [discriminate|].
          apply in_app_or in H as [H|[H|H]]; [| discriminate |].
          + destruct (Hsv _ H) as (d & _ & E). discriminate E.
          + exact (H2 p H). }
      destruct (default false r).
      * inversion Hrun; subst a' st'. simpl.
        exists (Generated (S k) (Some m) :: sv ++ [Probed (S k) m r]).
        split; [rewrite Hc, <- app_assoc; reflexivity|].
        apply S0; [intros p c []|intros p []].
      * apply IH in Hrun. destruct Hrun as (evs & Hl & H1 & H2). simpl in Hl.
        exists (Generated (S k) (Some m) :: sv ++ Probed (S k) m r :: evs).
        split; [rewrite Hl, Hc, <- !app_assoc; reflexivity|].
        apply S0; assumption.
    + apply IH in Hrun. destruct Hrun as (evs & Hl & H1 & H2). simpl in Hl.
      exists (Generated (S k) None :: evs).
      split; [rewrite Hl, <- app_assoc; reflexivity|]. split.
      * intros p c [H|H]; [discriminate|].
        pose proof (cache_write_more cache_dir mutation_ [Generated (S k) None] evs []
                      p c (H1 p c H)) as H1'.
        rewrite app_nil_r in H1'. exact H1'.
      * intros p [H|H]; [discriminate|]. exact (H2 p H).
Qed.

(** The writes and the removals of a run. *)
Lemma run_mutation_test_writes (repo_root spec_name : string)
    (mutation_ : mutation Probe) (base_prompt : string)
    (btd : list (string * string)) (cfg : generator_config)
    (prompt_path test_cmd : string) (cache_dir : option string)
    (spec_version : string) (st : state W) (res : option MutationResult)
    (st' : state W) :
  run_mutation_test generate_mutant run_activation_probe_with_prompt run_tests
    temp_name yaml_dump repo_root spec_name mutation_ base_prompt btd cfg
    prompt_path test_cmd cache_dir spec_version st = (res, st') ->
  exists evs,
    log st' = log st ++ evs
    /\ (forall p c, In (Saved p c) evs ->
                    cache_write cache_dir mutation_ evs p c \/ temporary temp_name evs p)
    /\ (forall p, In (Unlinked p) evs ->
                  (exists c, In (Saved p c) evs)
                  /\ exists suffix fs w, p = (temp_name suffix fs w).1).
Proof.
  unfold run_mutation_test. intros Hrun.
  destruct (attempt_loop _ _ _ _ _ _ _ _ _ _ _ _ _) as [a st1] eqn:L.
  apply attempt_loop_writes in L. destruct L as (evs & Hl & H1 & H2).
  destruct (a_activated a) eqn:A; [destruct (a_mutant_artifacts a) as [m|] eqn:Hm|].
  - pose proof (EngineFacts.write_temp_log temp_name ".txt" (prompt m) st1)
      as (T1 & _ & N1).
    destruct (write_temp temp_name ".txt" (prompt m) st1) as [t1 st2].
    pose proof (EngineFacts.write_temp_log temp_name ".yaml"
                  (yaml_dump (tool_descriptions m)) st2) as (T2 & _ & N2).
    destruct (write_temp temp_name ".yaml" _ st2) as [t2 st3].
    simpl in T1, T2, N1, N2.
    destruct (run_tests _ _ _ _ _) as [r w].
    assert (E : log st' = log st3 ++ [RanTests test_cmd
                                        (<["TDAD_TOOL_DESC_OVERRIDE_PATH" := t2]>
                                           (<["TDAD_PROMPT_OVERRIDE_PATH" := t1]> ∅))
                                        (files st3);
                                      Unlinked t1; Unlinked t2]).
    { destruct r as [[ec out]|]; inversion Hrun; subst; simpl;
        rewrite <- !app_assoc; reflexivity. }
    eexists (evs ++ [Saved t1 _; Saved t2 _; RanTests _ _ _; Unlinked t1; Unlinked t2]).
    split; [rewrite E, T2, T1, Hl, <- !app_assoc; reflexivity|]. split.
    + intros p c H. apply in_app_or in H as [H|H].
      * left. exact (cache_write_more cache_dir mutation_ [] evs _ p c (H1 p c H)).
      * right. simpl in H.
        destruct H as [H|[H|[H|[H|[H|[]]]]]]; try discriminate;
          inversion H; subst p c; (split; [eauto|]);
          apply in_or_app; right; simpl; tauto.
    + intros p H. apply in_app_or in H as [H|H]; [destruct (H2 p H)|].
      simpl in H. destruct H as [H|[H|[H|[H|[H|[]]]]]]; try discriminate;
        inversion H; subst p; (split; [|eauto]);
        eexists; apply in_or_app; right; simpl; eauto.
  - inversion Hrun; subst. exists evs. split; [exact Hl|]. split.
    + intros p c H. left. exact (H1 p c H).
    + intros p H. destruct (H2 p H).
  - assert (E : st' = st1).
    { destruct (a_mutant_artifacts a); inversion Hrun; reflexivity. }
    subst st'. exists evs. split; [exact Hl|]. split.
    + intros p c H. left. exact (H1 p c H).
    + intros p H. destruct (H2 p H).
Qed.

End WithCollaborators.

End FrameFacts.

Module EngineFrame.

Import Mutation MutationSpec.



End EngineFrame.

Module OverrideChannel.

Import Mutation MutationSpec.

(** X14: the override channel delivers the variant.  When every
    temporary file gets a new, non-empty name, the suite of a mutation
    run is started on the test command, after a probe has reported
    activation on a variant, and in the environment and on the files it
    is started with -- under any ambient [os.environ], for any agent
    directory -- the prompt loader of the suite reads the prompt of that
    variant (not the file of the agent directory), and the loader of the
    tool descriptions reads what the engine dumped for that variant. *)
Theorem suite_loads_the_activated_variant {W Probe : Type}
    (generate_mutant : string -> string -> list string -> list (string * string) ->
                       W -> option MutantArtifacts * W)
    (run_activation_probe_with_prompt :
       string -> Probe -> string -> option string -> list (string * string) ->
       W -> option bool * W)
    (run_tests : string -> string -> gmap string string -> gmap string string ->
                 W -> option (Z * string) * W)
    (temp_name : string -> gmap string string -> W -> string * W)
    (yaml_dump : list (string * string) -> string)
    (repo_root spec_name : string) (mutation_ : mutation Probe) (base_prompt : string)
    (btd : list (string * string)) (cfg : generator_config)
    (prompt_path test_cmd : string) (cache_dir : option string)
    (spec_version : string) (st : state W) (res : option MutationResult)
    (st' : state W) :
  (forall suffix fs w, fs !! (temp_name suffix fs w).1 = None) ->
  (forall suffix fs w, (temp_name suffix fs w).1 <> "") ->
  run_mutation_test generate_mutant run_activation_probe_with_prompt run_tests
    temp_name yaml_dump repo_root spec_name mutation_ base_prompt btd cfg
    prompt_path test_cmd cache_dir spec_version st = (res, st') ->
  exists evs,
    log st' = log st ++ evs
    /\ forall cmd env fs, In (RanTests cmd env fs) evs ->
         cmd = test_cmd
         /\ exists m k,
              In (Probed k m (Some true)) evs
              /\ forall (yaml_safe_load : string -> option json)
                        (environ : gmap string string) (agent_dir : string),
                   PromptLoader.load_prompt_and_config yaml_safe_load
                     (Subprocess.child_env environ env) fs agent_dir
                   = match PromptLoader.load_config yaml_safe_load fs agent_dir with
                     | inl e => inl e
                     | inr cfg_ => inr (prompt m, cfg_)
                     end
                   /\ PromptLoader.load_tool_description_overrides yaml_safe_load
                        (Subprocess.child_env environ env) fs agent_dir
                      = match yaml_safe_load (yaml_dump (tool_descriptions m)) with
                        | Some (JDict kv) => inr kv
                        | Some _ => inr []
                        | None => inl PromptLoader.YAMLError
                        end.
Proof.
  intros Hfresh Hname Hrun.
  destruct (ChannelFacts.run_mutation_test_suite _ _ _ _ _ _ _ _ _ _ _ _ _ _ _ _ _ _
              Hfresh Hrun) as (evs & Hl & _ & Hs).
  exists evs. split; [exact Hl|].
  intros cmd env fs Hin.
  destruct (Hs cmd env fs Hin)
    as (Hc & t1 & t2 & m & k & Hp & (fs1 & w1 & N1) & (fs2 & w2 & N2) & He & F1 & F2).
  split; [exact Hc|]. exists m, k. split; [exact Hp|].
  intros yaml_safe_load environ agent_dir.
  assert (E1 : PromptLoader.env_path (Subprocess.child_env environ env)
                 "TDAD_PROMPT_OVERRIDE_PATH" = Some t1).
  { apply ChannelFacts.env_path_child; [|rewrite N1; apply Hname].
    rewrite He, lookup_insert_ne by discriminate. apply lookup_insert_eq. }
  assert (E2 : PromptLoader.env_path (Subprocess.child_env environ env)
                 "TDAD_TOOL_DESC_OVERRIDE_PATH" = Some t2).
  { apply ChannelFacts.env_path_child; [|rewrite N2; apply Hname].
    rewrite He. apply lookup_insert_eq. }
  split.
  - unfold PromptLoader.load_prompt_and_config, PromptLoader.read_text.
    rewrite E1, F1. reflexivity.
  - unfold PromptLoader.load_tool_description_overrides, PromptLoader.load_overrides_at.
    rewrite E2, F2. reflexivity.
Qed.

Lemma suite_loads_the_activated_variant_witness :
  exists evs, log ChannelSamples.sample_run.2 = log sample_state ++ evs.
Proof.
  destruct (suite_loads_the_activated_variant sample_generate sample_probe
              sample_run_tests ChannelSamples.sample_temp_name sample_yaml_dump
              "." "supportops" sample_mutation "ORIGINAL" [] sample_config
              sample_prompt_path "pytest" (Some "cache") "v1" sample_state
              ChannelSamples.sample_run.1 ChannelSamples.sample_run.2)
    as (evs & Hl & _).
  - intros suffix fs w. unfold ChannelSamples.sample_temp_name. simpl.
    pose proof (fresh_string_fresh (<["" := ""]> fs) ("/tmp/tmp" +:+ suffix)) as H.
    destruct (decide (fresh_string ("/tmp/tmp" +:+ suffix) (<["" := ""]> fs) = ""))
      as [E|E].
    + rewrite E, lookup_insert_eq in H. discriminate H.
    + rewrite lookup_insert_ne in H by congruence. exact H.
  - intros suffix fs w E. unfold ChannelSamples.sample_temp_name in E. simpl in E.
    pose proof (fresh_string_fresh (<["" := ""]> fs) ("/tmp/tmp" +:+ suffix)) as H.
    rewrite E, lookup_insert_eq in H. discriminate H.
  - vm_compute. reflexivity.
  - exists evs. exact Hl.
Defined.

(** X15: the writes of a mutation run, with or without a cache
    directory and also when the suite raises.  Every file the run writes
    is a cache file [cache_dir/<id>_attempt<k>.txt], written with the
    prompt of the variant generated on attempt [k], or a temporary file
    that the run removes; and every file it removes is a temporary file
    that it wrote.  It writes and removes nothing else. *)
Theorem run_writes_only_cache_and_temporary_files {W Probe : Type}
    (generate_mutant : string -> string -> list string -> list (string * string) ->
                       W -> option MutantArtifacts * W)
    (run_activation_probe_with_prompt :
       string -> Probe -> string -> option string -> list (string * string) ->
       W -> option bool * W)
    (run_tests : string -> string -> gmap string string -> gmap string string ->
                 W -> option (Z * string) * W)
    (temp_name : string -> gmap string string -> W -> string * W)
    (yaml_dump : list (string * string) -> string)
    (repo_root spec_name : string) (mutation_ : mutation Probe) (base_prompt : string)
    (btd : list (string * string)) (cfg : generator_config)
    (prompt_path test_cmd : string) (cache_dir : option string)
    (spec_version : string) (st : state W) (res : option MutationResult)
    (st' : state W) :
  run_mutation_test generate_mutant run_activation_probe_with_prompt run_tests
    temp_name yaml_dump repo_root spec_name mutation_ base_prompt btd cfg
    prompt_path test_cmd cache_dir spec_version st = (res, st') ->
  exists evs,
    log st' = log st ++ evs
    /\ (forall p c, In (Saved p c) evs ->
                    FrameSpec.cache_write cache_dir mutation_ evs p c
                    \/ FrameSpec.temporary temp_name evs p)
    /\ (forall p, In (Unlinked p) evs ->
                  (exists c, In (Saved p c) evs)
                  /\ exists suffix fs w, p = (temp_name suffix fs w).1).
Proof. apply FrameFacts.run_mutation_test_writes. Qed.

Lemma run_writes_only_cache_and_temporary_files_witness :
  exists evs,
    log ChannelSamples.sample_run.2 = log sample_state ++ evs
    /\ In (Saved "cache/M1_attempt1.txt" "MUTANT 0") evs
    /\ (FrameSpec.cache_write (Some "cache") sample_mutation evs
          "cache/M1_attempt1.txt" "MUTANT 0"
        \/ FrameSpec.temporary ChannelSamples.sample_temp_name evs
             "cache/M1_attempt1.txt").
Proof.
  destruct (run_writes_only_cache_and_temporary_files sample_generate sample_probe
              sample_run_tests ChannelSamples.sample_temp_name sample_yaml_dump
              "." "supportops" sample_mutation "ORIGINAL" [] sample_config
              sample_prompt_path "pytest" (Some "cache") "v1" sample_state
              ChannelSamples.sample_run.1 ChannelSamples.sample_run.2)
    as (evs & Hl & Hw & _).
  - vm_compute. reflexivity.
  - assert (Hin : In (Saved "cache/M1_attempt1.txt" "MUTANT 0") evs).
    { change (log sample_state ++ evs) with evs in Hl. rewrite <- Hl.
      vm_compute. right. left. reflexivity. }
    exists evs. split; [exact Hl|]. split; [exact Hin|]. exact (Hw _ _ Hin).
Defined.

End OverrideChannel.

Module SummaryFacts.

Import Mutation.

Lemma filter_split {A : Type} (f : A -> bool) (l : list A) :
  length l = (length (List.filter f l) + length (List.filter (fun x => negb (f x)) l))%nat.
Proof.
  induction l as [|x l IH]; simpl; [reflexivity|].
  destruct (f x); simpl; lia.
Qed.

End SummaryFacts.

Module SummaryProperties.

Import Mutation Summary.

(** X16: the summary of [main] partitions the results: every result is
    counted once, as activated or as inconclusive, and every activated
    result once, as killed or as survived; the status column names the
    list a result is counted in.  The exit status is 0 exactly when every
    activated mutant was killed; so a run in which no mutant activated
    exits with 0 and reports the score 0, and a run with an activated
    mutant exits with 0 exactly when the score is 1. *)
Theorem summary_partitions_results (results : list MutationResult) :
  length results
  = (activated_count results + length (inconclusive_results results))%nat
  /\ activated_count results
     = (killed_count results + length (survived_results results))%nat
  /\ (forall r, In r results ->
        (status_of r = INCONCLUSIVE <-> In r (inconclusive_results results))
        /\ (status_of r = KILLED <-> In r (killed_results results))
        /\ (status_of r = SURVIVED <-> In r (survived_results results)))
  /\ (exit_code results = 0%Z <-> killed_count results = activated_count results)
  /\ (activated_count results = 0%nat ->
      exit_code results = 0%Z /\ mutation_score results = inr 0%Q)
  /\ ((0 < activated_count results)%nat ->
      (exit_code results = 0%Z
       <-> exists q, mutation_score results = inr q /\ (q == 1)%Q)).
Proof.
  assert (P1 : length results
               = (activated_count results + length (inconclusive_results results))%nat).
  { unfold activated_count, activated_results, inconclusive_results.
    apply SummaryFacts.filter_split. }
  assert (P2 : activated_count results
               = (killed_count results + length (survived_results results))%nat).
  { unfold activated_count, killed_count, killed_results, survived_results.
    apply SummaryFacts.filter_split. }
  assert (P4 : exit_code results = 0%Z
               <-> killed_count results = activated_count results).
  { unfold exit_code. destruct (Nat.eqb_spec (length (survived_results results)) 0).
    - split; [intros _; lia | reflexivity].
    - split; [discriminate | intros H; lia]. }
  split; [exact P1|]. split; [exact P2|]. split; [|split; [exact P4|split]].
  - intros r Hr. unfold status_of, inconclusive_results, killed_results,
      survived_results, activated_results.
    rewrite !filter_In.
    destruct (activated r) eqn:A, (killed r) eqn:K; simpl;
      rewrite ?A, ?K; intuition (try discriminate; try assumption).
  - intros H0. split; [apply P4; lia|].
    unfold mutation_score. rewrite H0. reflexivity.
  - intros Hpos. rewrite P4. unfold mutation_score, truediv.
    destruct (Nat.ltb_spec 0 (activated_count results)) as [_|?]; [|lia].
    destruct (activated_count results) as [|a] eqn:A; [lia|].
    split.
    + intros ->. eexists. split; [reflexivity|].
      unfold Qeq. simpl. rewrite ScoreFacts.pos_of_nat_succ. lia.
    + intros (q & [= <-] & Hq). unfold Qeq in Hq. simpl in Hq.
      rewrite ScoreFacts.pos_of_nat_succ in Hq. lia.
Qed.

Lemma summary_partitions_results_witness :
  exit_code [] = 0%Z /\ mutation_score [] = inr 0%Q.
Proof.
  refine (proj1 (proj2 (proj2 (proj2 (proj2 (summary_partitions_results []))))) _).
  reflexivity.
Defined.

End SummaryProperties.

(** ** The convergence loop: what a return value means *)

Module SessionFacts.

Import Compile CompileSpec.

Section Loop.

Context {W : Type}.
Variable run_cmd :
  string -> gmap string string -> gmap string string -> W -> (Z * string * Q) * W.
Variable agent :
  agent_msg -> gmap string string -> W -> (list sdk_msg * gmap string string) * W.

Lemma bind_run {A B : Type} (c : M W A) (k : A -> M W B) (st : state W)
    (r : exn + B) (st' : state W) :
  (c ≫= k) st = (r, st') ->
  (exists e, c st = (inl e, st') /\ r = inl e)
  \/ (exists x st1, c st = (inr x, st1) /\ k x st1 = (r, st')).
Proof.
  unfold mbind, M_bind. destruct (c st) as [[e|x] st1].
  - intros [= <- <-]. left. eauto.
  - intros H. right. eauto.
Qed.




End Loop.

End SessionFacts.

Module SessionProperties.

Import Compile CompileSpec.



End SessionProperties.

(** ** The inner loop: targeted runs and the promotion of the candidate *)

Module InnerFacts.

Import Compile InnerSpec.


Section Loop.

Context {W : Type}.
Variable run_cmd :
  string -> gmap string string -> gmap string string -> W -> (Z * string * Q) * W.
Variable agent :
  agent_msg -> gmap string string -> W -> (list sdk_msg * gmap string string) * W.
Variable original : list string.
Variable prompt_path candidate_path outer_loop_output : string.
Variable max_inner_iters : Z.



End Loop.

End InnerFacts.

Module InnerProperties.

Import Compile InnerSpec.



End InnerProperties.

(** ** The failure extract sent to the repair agent *)

Module ExtractFacts.

Import Compile ExtractSpec.

Lemma join_cons (sep x : string) (l : list string) :
  l <> [] -> PyStr.join sep (x :: l) = x +:+ sep +:+ PyStr.join sep l.
Proof. destruct l; [contradiction | reflexivity]. Qed.

(** Joining the lines of a text gives the text back. *)
Lemma join_split (s : string) : PyStr.join PyStr.nl (PyStr.split PyStr.LF s) = s.
Proof.
  induction s as [|a s IH]; [reflexivity|].
  simpl PyStr.split. destruct (Ascii.eqb_spec a PyStr.LF) as [->|Hne].
  - rewrite join_cons by apply PathFacts.split_nonempty. rewrite IH. reflexivity.
  - pose proof (PathFacts.split_nonempty PyStr.LF s) as Hs.
    destruct (PyStr.split PyStr.LF s) as [|w ws]; [contradiction|].
    destruct ws as [|w' ws].
    + simpl in *. rewrite IH. reflexivity.
    + rewrite join_cons in IH by discriminate.
      rewrite join_cons by discriminate. rewrite <- IH. reflexivity.
Qed.

Lemma xf_step_ok : turn_ok xf_step.
Proof.
  intros [rl inf ins] line. unfold xf_step, terminator. simpl.
  destruct (is_failures_banner line) eqn:B; simpl.
  - destruct (is_result_line line); simpl.
    + exists 1%nat. split; [reflexivity|]. split; intros; split; auto.
    + destruct (ins && PyStr.truthy (PyStr.strip line)
                && negb (PyStr.startswith "=" line)); simpl.
      * exists 2%nat. rewrite <- app_assoc. split; [reflexivity|].
        split; intros; split; auto.
      * exists 1%nat. split; [reflexivity|]. split; intros; split; auto.
  - destruct inf; simpl.
    + destruct (PyStr.startswith "=" line && negb (PyStr.contains "FAILURES" line))
        eqn:T; simpl.
      * destruct (is_result_line line); simpl.
        -- exists 1%nat. split; [reflexivity|].
           split; [discriminate | intros _ ?; discriminate].
        -- destruct (ins && PyStr.truthy (PyStr.strip line)
                     && negb (PyStr.startswith "=" line)); simpl.
           ++ exists 1%nat. split; [reflexivity|].
              split; [discriminate | intros _ ?; discriminate].
           ++ exists 0%nat. rewrite app_nil_r. split; [reflexivity|].
              split; [discriminate | intros _ ?; discriminate].
      * destruct (is_result_line line); simpl.
        -- exists 1%nat. split; [reflexivity|].
           split; [discriminate | intros; split; auto].
        -- destruct (ins && PyStr.truthy (PyStr.strip line)
                     && negb (PyStr.startswith "=" line)); simpl.
           ++ exists 2%nat. rewrite <- app_assoc. split; [reflexivity|].
              split; [discriminate | intros; split; auto].
           ++ exists 1%nat. split; [reflexivity|].
              split; [discriminate | intros; split; auto].
    + destruct (is_result_line line); simpl.
      * exists 1%nat. split; [reflexivity|].
        split; [discriminate | intros ?; discriminate].
      * destruct (ins && PyStr.truthy (PyStr.strip line)
                  && negb (PyStr.startswith "=" line)); simpl.
        -- exists 1%nat. split; [reflexivity|].
           split; [discriminate | intros ?; discriminate].
        -- exists 0%nat. rewrite app_nil_r. split; [reflexivity|].
           split; [discriminate | intros ?; discriminate].
Qed.

Lemma xf_step_inner_ok : turn_ok xf_step_inner.
Proof.
  intros [rl inf ins] line. unfold xf_step_inner, terminator. simpl.
  destruct (is_failures_banner line) eqn:B; simpl.
  - rewrite andb_false_r. exists 1%nat. split; [reflexivity|].
    split; intros; split; auto.
  - destruct inf; simpl.
    + destruct (PyStr.startswith "=" line && negb (PyStr.contains "FAILURES" line))
        eqn:T; simpl.
      * destruct (is_result_line line); simpl.
        -- exists 1%nat. split; [reflexivity|].
           split; [discriminate | intros _ ?; discriminate].
        -- exists 0%nat. rewrite app_nil_r. split; [reflexivity|].
           split; [discriminate | intros _ ?; discriminate].
      * rewrite andb_false_r. exists 1%nat. split; [reflexivity|].
        split; [discriminate | intros; split; auto].
    + destruct (is_result_line line); simpl.
      * exists 1%nat. split; [reflexivity|].
        split; [discriminate | intros ?; discriminate].
      * exists 0%nat. rewrite app_nil_r. split; [reflexivity|].
        split; [discriminate | intros ?; discriminate].
Qed.

Section Turns.

Variable step : xf_state -> string -> xf_state.
Hypothesis Hstep : turn_ok step.

(** The loop only appends lines it has read. *)
Lemma fold_appends (lines : list string) :
  forall st, exists added,
    result_lines (fold_left step lines st) = result_lines st ++ added
    /\ forall x, In x added -> In x lines.
Proof.
  induction lines as [|l lines IH]; intros st; simpl.
  - exists []. rewrite app_nil_r. split; [reflexivity | tauto].
  - destruct (Hstep st l) as (k & Hk & _).
    destruct (IH (step st l)) as (added & Ha & Hin).
    exists (repeat l k ++ added). split.
    + rewrite Ha, Hk, <- app_assoc. reflexivity.
    + intros x Hx. apply in_app_or in Hx as [Hx|Hx].
      * left. symmetry. eapply repeat_spec. exact Hx.
      * right. apply Hin. exact Hx.
Qed.

Lemma sublist_repeat (l : string) (k : nat) (body added : list string) :
  (1 <= k)%nat -> body `sublist_of` added ->
  (l :: body) `sublist_of` (repeat l k ++ added).
Proof.
  intros Hk Hs. destruct k as [|k]; [lia|]. simpl.
  apply sublist_skip. apply sublist_inserts_l. exact Hs.
Qed.

(** Inside the FAILURES section every line is kept, up to the line
    that ends the section. *)
Lemma fold_section (body : list string) :
  forall st,
    in_failures st = true ->
    Forall (fun l => terminator l = false) body ->
    exists added,
      result_lines (fold_left step body st) = result_lines st ++ added
      /\ body `sublist_of` added
      /\ (forall x, In x added -> In x body).
Proof.
  induction body as [|l body IH]; intros st Hin Hb; simpl.
  - exists []. rewrite app_nil_r. split; [reflexivity|].
    split; [constructor | tauto].
  - inversion Hb as [|? ? Hl Hb']; subst.
    destruct (Hstep st l) as (k & Hk & _ & Hs).
    destruct (Hs Hin Hl) as [Hin' Hk1].
    destruct (IH (step st l) Hin' Hb') as (added & Ha & Hsub & Hmem).
    exists (repeat l k ++ added). split; [|split].
    + rewrite Ha, Hk, <- app_assoc. reflexivity.
    + apply sublist_repeat; assumption.
    + intros x Hx. apply in_app_or in Hx as [Hx|Hx].
      * left. symmetry. eapply repeat_spec. exact Hx.
      * right. apply Hmem. exact Hx.
Qed.

Lemma extract_lines (output : string) :
  exists ls, extract_with step output = PyStr.join PyStr.nl ls
             /\ forall l, In l ls -> In l (PyStr.split PyStr.LF output).
Proof.
  unfold extract_with.
  destruct (fold_appends (PyStr.split PyStr.LF output) (mkXf [] false false))
    as (added & Ha & Hin).
  simpl in Ha. destruct (PyStr.truthy _).
  - exists added. rewrite Ha. split; [reflexivity | exact Hin].
  - exists (PyStr.split PyStr.LF output). split; [|tauto].
    symmetry. apply join_split.
Qed.

Lemma extract_section (output : string) (pre : list string) (banner : string)
    (body rest : list string) :
  PyStr.split PyStr.LF output = pre ++ banner :: body ++ rest ->
  is_failures_banner banner = true ->
  Forall (fun l => terminator l = false) body ->
  exists ls, extract_with step output = PyStr.join PyStr.nl ls
             /\ (banner :: body) `sublist_of` ls
             /\ forall l, In l ls -> In l (PyStr.split PyStr.LF output).
Proof.
  intros Hsplit Hbanner Hbody. unfold extract_with.
  destruct (PyStr.truthy _) eqn:Hblank.
  - clear Hblank. rewrite Hsplit.
    rewrite fold_left_app. simpl. rewrite fold_left_app.
    set (st0 := fold_left step pre (mkXf [] false false)).
    destruct (fold_appends pre (mkXf [] false false)) as (a0 & Ha0 & Hin0).
    fold st0 in Ha0. simpl in Ha0.
    destruct (Hstep st0 banner) as (k & Hk & Hb & _).
    destruct (Hb Hbanner) as [Hin1 Hk1].
    destruct (fold_section body (step st0 banner) Hin1 Hbody)
      as (a2 & Ha2 & Hsub2 & Hin2).
    destruct (fold_appends rest (fold_left step body (step st0 banner)))
      as (a3 & Ha3 & Hin3).
    exists (a0 ++ repeat banner k ++ a2 ++ a3). split; [|split].
    + rewrite Ha3, Ha2, Hk, Ha0, <- !app_assoc. reflexivity.
    + apply sublist_inserts_l.
      rewrite app_assoc. apply sublist_inserts_r.
      apply sublist_repeat; assumption.
    + intros l Hl. apply in_app_or in Hl as [Hl|Hl];
        [apply in_or_app; left; apply Hin0; exact Hl|].
      apply in_or_app. right.
      apply in_app_or in Hl as [Hl|Hl];
        [left; symmetry; eapply repeat_spec; exact Hl|].
      right. apply in_or_app.
      apply in_app_or in Hl as [Hl|Hl]; [left; apply Hin2 | right; apply Hin3];
        exact Hl.
  - exists (PyStr.split PyStr.LF output). split; [symmetry; apply join_split|].
    split; [|tauto]. rewrite Hsplit.
    apply sublist_inserts_l. apply sublist_skip. apply sublist_inserts_r.
    reflexivity.
Qed.

End Turns.

End ExtractFacts.

Module ExtractProperties.

Import Compile ExtractSpec.

(** X19: the failure extract sent to the repair agent, in the outer
    loop and in the inner loop.  It is made of lines of the test output
    only; and it carries the FAILURES section in full: when the output has
    a FAILURES banner followed by lines none of which ends the section (a
    line that starts with [=] and does not mention FAILURES), the banner
    and these lines all occur in the extract, in their order. *)
Theorem extract_keeps_the_failures_section (output : string) :
  (exists ls, extract_pytest_failures output = PyStr.join PyStr.nl ls
              /\ forall l, In l ls -> In l (PyStr.split PyStr.LF output))
  /\ (exists ls, extract_pytest_failures_inner output = PyStr.join PyStr.nl ls
                 /\ forall l, In l ls -> In l (PyStr.split PyStr.LF output))
  /\ (forall pre banner body rest,
        PyStr.split PyStr.LF output = pre ++ banner :: body ++ rest ->
        is_failures_banner banner = true ->
        Forall (fun l => terminator l = false) body ->
        (exists ls, extract_pytest_failures output = PyStr.join PyStr.nl ls
                    /\ (banner :: body) `sublist_of` ls)
        /\ (exists ls, extract_pytest_failures_inner output = PyStr.join PyStr.nl ls
                       /\ (banner :: body) `sublist_of` ls)).
Proof.
  split; [apply (ExtractFacts.extract_lines _ ExtractFacts.xf_step_ok)|].
  split; [apply (ExtractFacts.extract_lines _ ExtractFacts.xf_step_inner_ok)|].
  intros pre banner body rest H1 H2 H3. split.
  - destruct (ExtractFacts.extract_section _ ExtractFacts.xf_step_ok output
                pre banner body rest H1 H2 H3) as (ls & E & S & _).
    exists ls. split; assumption.
  - destruct (ExtractFacts.extract_section _ ExtractFacts.xf_step_inner_ok output
                pre banner body rest H1 H2 H3) as (ls & E & S & _).
    exists ls. split; assumption.
Qed.

Lemma extract_keeps_the_failures_section_witness :
  exists ls, extract_pytest_failures sample_output = PyStr.join PyStr.nl ls
             /\ ["=== FAILURES ==="; "___ test_a ___"; "E   assert 1 == 2"]
                `sublist_of` ls.
Proof.
  refine (proj1 (proj2 (proj2 (extract_keeps_the_failures_section sample_output))
                   ["collected 2 items"] "=== FAILURES ==="
                   ["___ test_a ___"; "E   assert 1 == 2"]
                   ["=== short test summary info ==="; "FAILED t.py::test_a";
                    "1 failed, 1 passed"] _ _ _)).
  - vm_compute. reflexivity.
  - vm_compute. reflexivity.
  - repeat constructor.
Defined.

End ExtractProperties.

(** ** What the outer phase sends to the repair agent *)

Module PhaseFacts.

Import Compile ExtractSpec.






End PhaseFacts.

Module PhaseProperties.

Import Compile CompileSpec CompileSamples ExtractSpec PhaseSpec.




End PhaseProperties.

(** ** The validation of generated tests *)

Module ValidateFacts.

Import TestSmith ValidateSpec.

Lemma count_split (f : event -> bool) (e1 e2 : list event) :
  count f (e1 ++ e2) = (count f e1 + count f e2)%nat.
Proof. unfold count. rewrite List.filter_app, length_app. reflexivity. Qed.

Lemma pending_app (e1 e2 : list event) :
  forall p, pending_bugs p (e1 ++ e2) = pending_bugs (pending_bugs p e1) e2.
Proof.
  induction e1 as [|e e1 IH]; intros p; simpl; [reflexivity|].
  destruct e; apply IH.
Qed.

Lemma fed_app (d : list string) (e1 e2 : list event) :
  forall p, fixer_fed d p (e1 ++ e2)
            <-> fixer_fed d p e1 /\ fixer_fed d (pending_bugs p e1) e2.
Proof.
  induction e1 as [|e e1 IH]; intros p; simpl; [tauto|].
  destruct e; simpl; rewrite ?IH; tauto.
Qed.

Lemma costs_app (e1 e2 : list event) :
  forall c, fix_costs c (e1 ++ e2) = fix_costs (fix_costs c e1) e2.
Proof.
  induction e1 as [|e e1 IH]; intros c; simpl; [reflexivity|].
  destruct e as [| | |? ? [[? ?] ?]]; apply IH.
Qed.

Lemma last_output_app (kind : string) (e1 e2 : list event) :
  forall found, last_output kind found (e1 ++ e2)
                = last_output kind (last_output kind found e1) e2.
Proof.
  induction e1 as [|e e1 IH]; intros found; simpl; [reflexivity|].
  destruct e; apply IH.
Qed.

Section Validate.

Context {W : Type}.
Variable dir_exists : string -> bool.
Variable run_pytest :
  list string -> gmap string string -> W -> (string * string * Z) * W.
Variable fix_infrastructure_bugs :
  list string -> list string -> gmap string string -> W ->
  (fix_result * gmap string string) * W.

Lemma run_kind_log (kind test_type : string) (dirs : list string) (st : state W)
    (o : option string) (bugs : list string) (st1 : state W) :
  run_kind run_pytest kind test_type dirs st = (o, bugs, st1) ->
  log st1 = log st ++ run_events kind dirs o
  /\ files st1 = files st
  /\ bugs = run_bugs o.
Proof.
  unfold run_kind. destruct (Outcome.list_truthy dirs && wants kind test_type).
  - destruct (run_pytest _ _ _) as [[[out err] rc] w].
    intros [= <- <- <-]. simpl. repeat split.
  - intros [= <- <- <-]. simpl. rewrite app_nil_r. repeat split.
Qed.

Lemma run_events_facts (d : list string) (vdirs hdirs : list string)
    (vo ho : option string) (p : list string) (c : Q) (found : option string) :
  let runs := run_events "visible" vdirs vo ++ run_events "hidden" hdirs ho in
  (count is_run runs <= 2)%nat
  /\ count is_fix runs = 0%nat
  /\ pending_bugs p runs = p ++ run_bugs vo ++ run_bugs ho
  /\ fixer_fed d p runs
  /\ fix_costs c runs = c
  /\ last_output "visible" found runs
     = match vo with Some o => Some o | None => found end.
Proof.
  destruct vo as [v|], ho as [h|]; simpl;
    rewrite ?app_nil_r, <- ?app_assoc;
    (split; [unfold count; simpl; lia|]); (split; [reflexivity|]);
    (split; [reflexivity|]); (split; [exact I|]); split; reflexivity.
Qed.

Lemma attempts_log (test_type : string) (visible_dirs hidden_dirs test_dirs : list string)
    (max_fix_attempts : Z) (save_results_to : option string) (n : nat) :
  forall (k : nat) (acc : totals) (st : state W) (success : bool) (cost : Q)
         (u : Compile.usage) (st' : state W),
    (Z.of_nat (k + n) = max_fix_attempts + 1)%Z \/ n = 0%nat ->
    attempts run_pytest fix_infrastructure_bugs test_type visible_dirs hidden_dirs
      test_dirs max_fix_attempts save_results_to (seq k n) acc st
    = ((success, cost, u), st') ->
    exists evs,
      log st' = log st ++ evs
      /\ (count is_run evs <= 2 * n)%nat
      /\ (count is_fix evs <= n - 1)%nat
      /\ fixer_fed test_dirs [] evs
      /\ (success = true -> pending_bugs [] evs = [])
      /\ (success = false -> n = 0%nat \/ pending_bugs [] evs <> [])
      /\ cost = fix_costs (total_cost_usd acc) evs
      /\ (success = true ->
          forall path output,
            save_results_to = Some path ->
            last_output "visible" (latest_visible_output acc) evs = Some output ->
            output <> "" ->
            files st' !! path = Some output).
Proof.
  induction n as [|n IH]; intros k acc st success cost u st' Hk H.
  - simpl in H. inversion H; subst. exists []. rewrite app_nil_r.
    split; [reflexivity|]. split; [unfold count; simpl; lia|].
    split; [unfold count; simpl; lia|].
    split; [exact I|]. split; [discriminate|]. split; [left; reflexivity|].
    split; [reflexivity | discriminate].
  - destruct Hk as [Hk|?]; [|discriminate].
    cbn [seq attempts] in H.
    destruct (run_kind run_pytest "visible" test_type visible_dirs st)
      as [[vo vb] st1] eqn:R1.
    apply run_kind_log in R1 as (L1 & F1 & ->).
    destruct (run_kind run_pytest "hidden" test_type hidden_dirs st1)
      as [[ho hb] st2] eqn:R2.
    apply run_kind_log in R2 as (L2 & F2 & ->).
    set (runs := run_events "visible" visible_dirs vo
                 ++ run_events "hidden" hidden_dirs ho).
    assert (L : log st2 = log st ++ runs).
    { rewrite L2, L1, <- app_assoc. reflexivity. }
    set (acc1 := match vo with
                 | Some output =>
                     mkTotals (total_cost_usd acc) (total_usage acc) (Some output)
                 | None => acc
                 end) in *.
    assert (A1 : total_cost_usd acc1 = total_cost_usd acc
                 /\ latest_visible_output acc1
                    = match vo with
                      | Some o => Some o
                      | None => latest_visible_output acc
                      end).
    { subst acc1. destruct vo; split; reflexivity. }
    destruct A1 as [A1 A2]. clearbody acc1.
    destruct (run_events_facts test_dirs visible_dirs hidden_dirs vo ho []
                (total_cost_usd acc) (latest_visible_output acc))
      as (C1 & C2 & P & Fd & Cs & Lo).
    fold runs in C1, C2, P, Fd, Cs, Lo. simpl in P.
    destruct (Outcome.list_truthy (run_bugs vo ++ run_bugs ho)) eqn:T; simpl in H.
    + destruct (Z.of_nat k <? max_fix_attempts)%Z eqn:Hlt.
      * destruct (fix_infrastructure_bugs _ _ _ _) as [[[[fs_ fc] fu] fs] w] eqn:Fx.
        apply IH in H; [|left; lia].
        destruct H as (evs & Hl & H1 & H2 & H3 & H4 & H5 & H6 & H7).
        simpl in Hl, H6, H7.
        apply Z.ltb_lt in Hlt.
        exists (runs ++ CalledFixer test_dirs (run_bugs vo ++ run_bugs ho)
                          (fs_, fc, fu) :: evs).
        split; [rewrite Hl, L, <- !app_assoc; reflexivity|].
        split; [rewrite count_split; unfold count in *; simpl; lia|].
        split; [rewrite count_split; unfold count in *; simpl; lia|].
        split.
        { apply fed_app. split; [exact Fd|]. rewrite P. simpl.
          split; [reflexivity|]. split; [reflexivity|]. split; [|exact H3].
          intros E. rewrite E in T. discriminate. }
        split; [intros Hs; rewrite pending_app; simpl; exact (H4 Hs)|].
        split.
        { intros Hs. right. rewrite pending_app. simpl.
          destruct (H5 Hs) as [->|Hp]; [lia | exact Hp]. }
        split; [rewrite costs_app, Cs; simpl; rewrite H6, A1; reflexivity|].
        intros Hs path output Hsave Hlast Hne.
        apply (H7 Hs path output Hsave); [|exact Hne].
        rewrite last_output_app, Lo in Hlast. simpl in Hlast.
        rewrite A2. exact Hlast.
      * inversion H; subst success cost u st'. exists runs.
        split; [exact L|]. split; [lia|]. split; [lia|]. split; [exact Fd|].
        split; [discriminate|]. split.
        { intros _. right. rewrite P. intros E. rewrite E in T. discriminate. }
        split; [rewrite Cs, A1; reflexivity | discriminate].
    + destruct (Outcome.parse_pytest_summary (default "" vo)) as [vp vf].
      destruct (Outcome.parse_pytest_summary (default "" ho)) as [hp hf].
      assert (Hnil : run_bugs vo ++ run_bugs ho = []).
      { destruct (run_bugs vo ++ run_bugs ho); [reflexivity | discriminate]. }
      set (saved := match save_results_to, latest_visible_output acc1 with
                    | Some path, Some output =>
                        if PyStr.truthy output then [Saved path output] else []
                    | _, _ => []
                    end).
      assert (S' : log st' = log st2 ++ SeedBaseline vp vf hp hf :: saved
                   /\ forall path output,
                        save_results_to = Some path ->
                        latest_visible_output acc1 = Some output ->
                        output <> "" -> files st' !! path = Some output).
      { subst saved. destruct save_results_to as [path|];
          [destruct (latest_visible_output acc1) as [output|];
           [destruct (PyStr.truthy output) eqn:Tr|]|];
          inversion H; subst; simpl; rewrite <- ?app_assoc;
            (split; [reflexivity|]); intros p o; try discriminate.
        - intros [= <-] [= <-] _. apply lookup_insert_eq.
        - intros _ [= <-] Hne. destruct output; [contradiction | discriminate]. }
      destruct S' as [Ls Hsaved].
      assert (Hsv : count is_run saved = 0%nat /\ count is_fix saved = 0%nat
                    /\ (forall p, pending_bugs p saved = p)
                    /\ (forall p, fixer_fed test_dirs p saved)
                    /\ (forall c, fix_costs c saved = c)
                    /\ (forall f, last_output "visible" f saved = f)).
      { subst saved. destruct save_results_to; [destruct (latest_visible_output acc1);
          [destruct (PyStr.truthy _)|]|]; simpl;
          repeat split; intros; rewrite ?app_nil_r; reflexivity. }
      destruct Hsv as (V1 & V2 & V3 & V4 & V5 & V6).
      assert (success = true /\ cost = total_cost_usd acc1) as [-> ->].
      { destruct save_results_to; [destruct (latest_visible_output acc1);
          [destruct (PyStr.truthy _)|]|]; inversion H; split; reflexivity. }
      exists (runs ++ SeedBaseline vp vf hp hf :: saved).
      split; [rewrite Ls, L, <- app_assoc; reflexivity|].
      clearbody saved.
      split; [rewrite count_split; unfold count in *; simpl; lia|].
      split; [rewrite count_split; unfold count in *; simpl; lia|].
      split; [apply fed_app; split; [exact Fd | simpl; apply V4]|].
      split; [intros _; rewrite pending_app, P, Hnil; simpl; apply V3|].
      split; [discriminate|].
      split; [rewrite costs_app, Cs; simpl; rewrite V5, A1; reflexivity|].
      intros _ path output Hsave Hlast Hne.
      apply (Hsaved path output Hsave); [|exact Hne].
      rewrite last_output_app, Lo in Hlast. simpl in Hlast. rewrite V6 in Hlast.
      rewrite A2. exact Hlast.
Qed.

End Validate.

End ValidateFacts.

Module ValidateProperties.

Import TestSmith ValidateSpec.

(** X20: what a validation of generated tests does and what its answer
    means.  It runs pytest at most twice per attempt and calls the fixer
    at most [max_fix_attempts - 1] times; every call of the fixer is given
    the test directories and the infrastructure bugs the classifier found
    in the runs since the call before it, and at least one such bug.  It
    answers [true] only when the runs of its last attempt show no
    infrastructure bug (or when there is nothing to validate), and [false]
    only when they still show one (or when it was given no attempt); the
    cost it reports is the sum of the costs of the fixer calls.  On
    success with [save_results_to], the file holds the output of the last
    visible run, if that output is not empty. *)
Theorem validation_outcome {W : Type} (dir_exists : string -> bool)
    (run_pytest : list string -> gmap string string -> W -> (string * string * Z) * W)
    (fix_infrastructure_bugs :
       list string -> list string -> gmap string string -> W ->
       (fix_result * gmap string string) * W)
    (spec_path test_type : string) (output_version : option string)
    (max_fix_attempts : Z) (save_results_to : option string) (st : state W)
    (success : bool) (cost_usd : Q) (usage_tokens : Compile.usage) (st' : state W) :
  validate_generated_tests dir_exists run_pytest fix_infrastructure_bugs spec_path
    test_type output_version max_fix_attempts save_results_to st
  = ((success, cost_usd, usage_tokens), st') ->
  let visible_dirs := get_test_dirs dir_exists spec_path "visible" output_version in
  let hidden_dirs := get_test_dirs dir_exists spec_path "hidden" output_version in
  let test_dirs :=
    if String.eqb test_type "visible" then visible_dirs
    else if String.eqb test_type "hidden" then hidden_dirs
    else visible_dirs ++ hidden_dirs in
  exists evs,
    log st' = log st ++ evs
    /\ (count is_run evs <= 2 * Z.to_nat max_fix_attempts)%nat
    /\ (count is_fix evs <= Z.to_nat max_fix_attempts - 1)%nat
    /\ fixer_fed test_dirs [] evs
    /\ (success = true -> pending_bugs [] evs = [])
    /\ (success = false -> pending_bugs [] evs <> [] \/ (max_fix_attempts <= 0)%Z)
    /\ cost_usd = fix_costs 0 evs
    /\ (success = true ->
        forall path output,
          save_results_to = Some path ->
          last_output "visible" None evs = Some output ->
          output <> "" ->
          files st' !! path = Some output)
    /\ (test_dirs = [] -> success = true /\ evs = []).
Proof.
  intros H visible_dirs hidden_dirs test_dirs. unfold validate_generated_tests in H.
  fold visible_dirs hidden_dirs test_dirs in H.
  destruct test_dirs as [|d ds] eqn:Td; simpl in H.
  - inversion H; subst. exists []. rewrite app_nil_r.
    split; [reflexivity|]. split; [unfold count; simpl; lia|].
    split; [unfold count; simpl; lia|]. split; [exact I|].
    split; [reflexivity|]. split; [discriminate|]. split; [reflexivity|].
    split; [intros _ ? ? _ ?; discriminate|]. intros _. split; reflexivity.
  - apply ValidateFacts.attempts_log in H.
    2:{ destruct (Z.to_nat max_fix_attempts) eqn:E; [right; reflexivity|].
        left. lia. }
    destruct H as (evs & Hl & H1 & H2 & H3 & H4 & H5 & H6 & H7).
    exists evs. split; [exact Hl|]. split; [exact H1|]. split; [exact H2|].
    split; [exact H3|]. split; [exact H4|]. split.
    { intros Hs. destruct (H5 Hs) as [E|Hp]; [right; lia | left; exact Hp]. }
    split; [exact H6|]. split; [exact H7 | discriminate].
Qed.

Lemma validation_outcome_witness :
  files sample_validation.2 !! "results/seed.txt" = Some failing_report.
Proof.
  destruct (validation_outcome sample_exists sample_pytest sample_fixer
              "specs/core/supportops/v1/spec.yaml" "visible" (Some "v1")
              default_max_fix_attempts (Some "results/seed.txt") sample_state
              true (5 # 100)%Q Compile.usage_zero sample_validation.2)
    as (evs & Hl & _ & _ & _ & _ & _ & _ & Hsave & _).
  - vm_compute. reflexivity.
  - change (log sample_validation.2 = evs) in Hl. subst evs.
    apply (Hsave eq_refl "results/seed.txt" failing_report eq_refl).
    + vm_compute. reflexivity.
    + discriminate.
Defined.

End ValidateProperties.

(** ** A session that starts from a saved report *)

Module InitialFacts.

Import Compile CompileSpec InitialSpec.

Section Loop.

Context {W : Type}.
Variable run_cmd :
  string -> gmap string string -> gmap string string -> W -> (Z * string * Q) * W.
Variable agent :
  agent_msg -> gmap string string -> W -> (list sdk_msg * gmap string string) * W.

(** What follows the first event of an iteration whose run failed. *)
Lemma after_failed_run (prompt_path : string) (max_iters thr max_inner_iters : Z)
    (i : nat) (code : Z) (out : string) (ost : outer_state) (st : state W)
    (r : exn + (Z + outer_state)) (st' : state W) :
  code <> 0%Z ->
  after_run run_cmd agent prompt_path max_iters thr max_inner_iters i code out ost st
  = (r, st') ->
  exists e evs,
    log st' = log st ++ e :: evs
    /\ (e = InnerLoopEntered (Outcome.extract_failing_test_ids out)
        \/ e = Queried (OuterMsg i max_iters (extract_pytest_failures out))).
Proof.
  intros Hc H.
  destruct (enters_inner (Outcome.extract_failing_test_ids out) thr) eqn:E.
  - destruct (CompileProperties.inner_branch run_cmd agent _ _ _ _ _ _ _ _ _ _ _
                Hc E H) as (evs & Hl & _).
    eexists _, evs. split; [exact Hl | left; reflexivity].
  - destruct (CompileProperties.outer_branch run_cmd agent _ _ _ _ _ _ _ _ _ _ _
                Hc E H) as (Hl & _).
    eexists _, []. split; [exact Hl | right; reflexivity].
Qed.

Lemma first_iteration_log (prompt_path test_cmd : string)
    (max_iters thr max_inner_iters : Z) (content : option string) (todo : list nat)
    (ost : outer_state) (st : state W) (r : exn + Z) (st' : state W) :
  outer_iterations run_cmd agent prompt_path test_cmd max_iters thr max_inner_iters
    content (1%nat :: todo) ost st = (r, st') ->
  match content with
  | Some report =>
      if PyStr.truthy report then
        exists e evs,
          log st' = log st ++ OuterIteration 1 :: e :: evs
          /\ (e = InnerLoopEntered (Outcome.extract_failing_test_ids report)
              \/ e = Queried (OuterMsg 1 max_iters (extract_pytest_failures report)))
      else exists evs, log st' = log st ++ OuterIteration 1 :: RanCmd test_cmd ∅ :: evs
  | None => exists evs, log st' = log st ++ OuterIteration 1 :: RanCmd test_cmd ∅ :: evs
  end.
Proof.
  intros H. cbn [outer_iterations] in H.
  apply SessionFacts.bind_run in H as [(e & E & _)|([] & st1 & E1 & H)];
    [discriminate|].
  inversion E1; subst st1. clear E1.
  set (st1 := mkState (files st) (world st) (log st ++ [OuterIteration 1])) in *.
  assert (Rest :
    forall code out ost1 st2 r st',
      (r0 ← after_run run_cmd agent prompt_path max_iters thr max_inner_iters
              1 code out ost1;
       match r0 with
       | inl code0 => mret code0
       | inr ost0 =>
           outer_iterations run_cmd agent prompt_path test_cmd max_iters thr
             max_inner_iters content todo ost0
       end) st2 = (r, st') ->
      exists e2 e3 r2 st3,
        after_run run_cmd agent prompt_path max_iters thr max_inner_iters
          1 code out ost1 st2 = (r2, st3)
        /\ log st3 = log st2 ++ e2 /\ log st' = log st3 ++ e3).
  { clear. intros code out ost1 st2 r st' H.
    destruct (after_run run_cmd agent prompt_path max_iters thr max_inner_iters
                1 code out ost1 st2) as [r2 st3] eqn:A.
    destruct (CompileFacts.after_run_uses run_cmd agent (fun _ => false)
                prompt_path max_iters thr max_inner_iters 1 code out ost1
                _ _ _ A) as (e2 & Hl2 & _).
    unfold mbind, M_bind in H. rewrite A in H.
    destruct r2 as [e|[c|ost2]].
    - inversion H; subst. exists e2, [], (inl e), st'. rewrite app_nil_r.
      split; [reflexivity|]. split; [exact Hl2 | reflexivity].
    - inversion H; subst. exists e2, [], (inr (inl c)), st'. rewrite app_nil_r.
      split; [reflexivity|]. split; [exact Hl2 | reflexivity].
    - destruct (CompileFacts.outer_iterations_uses run_cmd agent (fun _ => false)
                  prompt_path test_cmd max_iters thr max_inner_iters content todo
                  ost2 _ _ _ H) as (e3 & Hl3 & _).
      exists e2, e3, (inr (inr ost2)), st3.
      split; [reflexivity|]. split; [exact Hl2 | exact Hl3]. }
  assert (Ran :
    forall r st',
      ('(code, out, ost1) ←
         ('(code, out, test_elapsed) ← run run_cmd test_cmd ∅;
          mret (code, out, mkOuter (total_test_time ost + test_elapsed)%Q
                             (total_cost_usd ost) (total_usage ost)));
       r0 ← after_run run_cmd agent prompt_path max_iters thr max_inner_iters
              1 code out ost1;
       match r0 with
       | inl code0 => mret code0
       | inr ost0 =>
           outer_iterations run_cmd agent prompt_path test_cmd max_iters thr
             max_inner_iters content todo ost0
       end) st1 = (r, st') ->
      exists evs, log st' = log st ++ OuterIteration 1 :: RanCmd test_cmd ∅ :: evs).
  { clear H. intros r0 st0 H.
    apply SessionFacts.bind_run in H as [(e & E & _)|([[code out] ost1] & st2 & E2 & H)].
    { unfold mbind, M_bind, run in E.
      destruct (run_cmd test_cmd ∅ (files st1) (world st1)) as [[[? ?] ?] ?].
      discriminate. }
    assert (L2 : log st2 = log st1 ++ [RanCmd test_cmd ∅]).
    { unfold mbind, M_bind, run in E2.
      destruct (run_cmd test_cmd ∅ (files st1) (world st1)) as [[[? ?] ?] ?].
      inversion E2; subst. reflexivity. }
    apply Rest in H as (e2 & e3 & r2 & st3 & _ & Hl2 & Hl3).
    exists (e2 ++ e3). rewrite Hl3, Hl2, L2. subst st1. simpl.
    rewrite <- !app_assoc. reflexivity. }
  unfold obtain in H.
  destruct content as [report|]; [|exact (Ran _ _ H)].
  simpl in H. destruct (PyStr.truthy report); [|exact (Ran _ _ H)].
  apply SessionFacts.bind_run in H as [(e & E & _)|([[code out] ost1] & st2 & E2 & H)];
    [discriminate|].
  inversion E2; subst code out ost1 st2. clear E2.
  apply Rest in H as (e2 & e3 & r2 & st3 & A & Hl2 & Hl3).
  apply after_failed_run in A as (e & evs & Hl & He); [|discriminate].
  exists e, (evs ++ e3). split; [|exact He].
  rewrite Hl3, Hl. subst st1. simpl. rewrite <- !app_assoc. reflexivity.
Qed.

End Loop.

End InitialFacts.

Module InitialProperties.

Import Compile CompileSpec InitialSpec.

(** X21: a report given with [--initial-results] stands for the first
    run of the suite.  In a session with at least one iteration whose
    prompt file exists: when the option names an existing file with a
    non-empty text, the first iteration runs nothing, takes that text as
    the output of a failed run and goes on to the inner loop on the
    failing ids extracted from it, or sends its failure extract to the
    repair agent; when the option is missing or empty, or the file is
    missing or empty, the first thing the session does is to run the
    suite. *)
Theorem initial_report_replaces_the_first_run {W : Type}
    (run_cmd : string -> gmap string string -> gmap string string -> W ->
               (Z * string * Q) * W)
    (agent : agent_msg -> gmap string string -> W ->
             (list sdk_msg * gmap string string) * W)
    (prompt_path test_cmd : string) (max_iters thr max_inner_iters : Z)
    (initial_results : option string) (st : state W) (r : exn + Z) (st' : state W) :
  is_Some (files st !! prompt_path) ->
  (1 <= max_iters)%Z ->
  compile_loop run_cmd agent prompt_path test_cmd max_iters thr max_inner_iters
    initial_results st = (r, st') ->
  (forall report,
     initial_report (files st) initial_results = Some report ->
     exists e evs,
       log st' = log st ++ OuterIteration 1 :: e :: evs
       /\ (e = InnerLoopEntered (Outcome.extract_failing_test_ids report)
           \/ e = Queried (OuterMsg 1 max_iters (extract_pytest_failures report))))
  /\ (initial_report (files st) initial_results = None ->
      exists evs, log st' = log st ++ OuterIteration 1 :: RanCmd test_cmd ∅ :: evs).
Proof.
  intros [c Hc] Hmax H. unfold compile_loop in H.
  unfold mbind at 1, M_bind at 1, exists_ in H. rewrite Hc in H.
  rewrite bool_decide_eq_true_2 in H by eauto.
  destruct (Z.to_nat max_iters) as [|n] eqn:En; [lia|].
  cbn [seq] in H.
  set (content := match initial_results with
                  | Some path => if PyStr.truthy path then files st !! path else None
                  | None => None
                  end).
  assert (H' : outer_iterations run_cmd agent prompt_path test_cmd max_iters thr
                 max_inner_iters content (1%nat :: seq 2 n) (mkOuter 0 0 usage_zero) st
               = (r, st')).
  { subst content. destruct initial_results as [path|]; [|exact H].
    destruct (PyStr.truthy path); exact H. }
  clear H. apply InitialFacts.first_iteration_log in H'.
  assert (E : initial_report (files st) initial_results
              = match content with
                | Some report => if PyStr.truthy report then Some report else None
                | None => None
                end).
  { subst content. unfold initial_report.
    destruct initial_results as [path|]; [|reflexivity].
    destruct (PyStr.truthy path); reflexivity. }
  rewrite E. clearbody content. clear E.
  destruct content as [report|]; [destruct (PyStr.truthy report)|].
  - split; [intros ? [= <-]; exact H' | discriminate].
  - split; [discriminate | intros _; exact H'].
  - split; [discriminate | intros _; exact H'].
Qed.

Lemma initial_report_replaces_the_first_run_witness :
  exists e evs,
    log seeded_session.2 = log seeded_state ++ OuterIteration 1 :: e :: evs
    /\ (e = InnerLoopEntered (Outcome.extract_failing_test_ids report_B)
        \/ e = Queried (OuterMsg 1 default_max_iters (extract_pytest_failures report_B))).
Proof.
  refine (proj1 (initial_report_replaces_the_first_run always_failing quiet_agent
                   sample_prompt "pytest tests_visible" default_max_iters
                   default_inner_loop_threshold default_max_inner_iters
                   (Some "results/seed.txt") seeded_state seeded_session.1
                   seeded_session.2 _ _ _) report_B _).
  - exists "PROMPT". vm_compute. reflexivity.
  - vm_compute. discriminate.
  - vm_compute. reflexivity.
  - vm_compute. reflexivity.
Defined.

End InitialProperties.

Module ProbeFacts.

Import Predicates PredicateSpec Mutation MutationSpec Probe.

Section Engine.

Context {W P : Type}.
Variable generate_mutant :
  string -> string -> list string -> list (string * string) ->
  W -> option MutantArtifacts * W.
Variable probe_runner :
  string -> P -> string -> option string -> list (string * string) ->
  W -> option bool * W.

(** A loop that ends without an activation has used its whole range. *)
Lemma attempt_loop_exhausted (repo_root spec_name spec_version : string)
    (mutation_ : mutation P) (base_prompt : string)
    (btd : list (string * string)) (cs : list string) (cache_dir : option string)
    (n : nat) :
  forall (k : nat) (a : attempt_state) (st : state W) (a' : attempt_state)
         (st' : state W),
    a_attempts a = k ->
    attempt_loop generate_mutant probe_runner
      repo_root spec_name spec_version mutation_ base_prompt btd cs cache_dir
      (seq k n) a st = (a', st') ->
    a_activated a' = false ->
    a_attempts a' = (k + n)%nat.
Proof.
  induction n as [|n IH]; intros k a st a' st' Hk Hrun Hact; simpl in Hrun.
  - inversion Hrun; subst. lia.
  - destruct (generate_mutant _ _ _ _ _) as [g w].
    destruct g as [m|].
    + destruct (probe_runner _ _ _ _ _ _) as [r w0].
      destruct (default false r) eqn:D.
      * inversion Hrun; subst a' st'. simpl in Hact. congruence.
      * apply IH in Hrun; [lia|reflexivity|exact Hact].
    + apply IH in Hrun; [lia|reflexivity|exact Hact].
Qed.

(** A loop that ends with an activation ends on a probe call that
    answered [True], made on the variant it keeps. *)
Lemma attempt_loop_activated (repo_root spec_name spec_version : string)
    (mutation_ : mutation P) (base_prompt : string)
    (btd : list (string * string)) (cs : list string) (cache_dir : option string)
    (todo : list nat) :
  forall (a : attempt_state) (st : state W) (a' : attempt_state) (st' : state W),
    a_activated a = false ->
    attempt_loop generate_mutant probe_runner
      repo_root spec_name spec_version mutation_ base_prompt btd cs cache_dir
      todo a st = (a', st') ->
    a_activated a' = true ->
    exists m path w0 w1,
      a_mutant_artifacts a' = Some m
      /\ probe_runner (prompt m) (m_activation_probe mutation_) spec_name path
           (tool_descriptions m) w0 = (Some true, w1).
Proof.
  induction todo as [|k todo IH]; intros a st a' st' Ha Hrun Hact; simpl in Hrun.
  - inversion Hrun; subst. congruence.
  - destruct (generate_mutant _ _ _ _ _) as [g w].
    destruct g as [m|].
    + destruct (probe_runner _ _ _ _ _ _) as [r w0] eqn:R.
      destruct (default false r) eqn:D.
      * inversion Hrun; subst a' st'. simpl.
        destruct r as [[|]|]; try discriminate.
        eauto 10.
      * apply IH in Hrun; [exact Hrun|reflexivity|exact Hact].
    + apply IH in Hrun; [exact Hrun|exact Ha|exact Hact].
Qed.

(** With a probe that never answers [True] the loop never activates. *)
Lemma attempt_loop_silent (repo_root spec_name spec_version : string)
    (mutation_ : mutation P) (base_prompt : string)
    (btd : list (string * string)) (cs : list string) (cache_dir : option string)
    (todo : list nat) (a : attempt_state) (st : state W) (a' : attempt_state)
    (st' : state W) :
  (forall sp path ovr w,
      (probe_runner sp (m_activation_probe mutation_) spec_name path ovr w).1
      <> Some true) ->
  a_activated a = false ->
  attempt_loop generate_mutant probe_runner
    repo_root spec_name spec_version mutation_ base_prompt btd cs cache_dir
    todo a st = (a', st') ->
  a_activated a' = false.
Proof.
  intros Hnever Ha Hrun.
  destruct (a_activated a') eqn:A; [|reflexivity].
  destruct (attempt_loop_activated _ _ _ _ _ _ _ _ _ _ _ _ _ Ha Hrun A)
    as (m & path & w0 & w1 & _ & R).
  exfalso. apply (Hnever (prompt m) path (tool_descriptions m) w0).
  rewrite R. reflexivity.
Qed.

End Engine.

Section Probe.

Context {W Turn : Type}.
Variable tool_names : fixture -> list string.
Variable read_spec : string -> W -> option (option spec).
Variable run_agent_conversation :
  string -> list Turn -> string -> fixture -> list string ->
  gmap string json -> gmap string string ->
  W -> (option (list TurnResult) * ToolTrace) * W.

(** What an activating probe call has done. *)
Lemma engine_probe_true (system_prompt : string) (probe : probe_spec Turn)
    (spec_name : string) (spec_path : option string)
    (overrides : list (string * string)) (w w' : W) :
  engine_probe tool_names read_spec run_agent_conversation system_prompt probe
    spec_name spec_path overrides w = (Some true, w') ->
  exists turns class_ allowed schemas descriptions results tr last_,
    user_turns probe = Some turns
    /\ turns <> []
    /\ _get_fixture_builder spec_name = inr class_
    /\ run_agent_conversation system_prompt turns (Compile.lower spec_name)
         (_build_fixture_from_case class_ (default "default" (case probe)))
         allowed schemas descriptions w
       = ((Some results, tr), w')
    /\ last results = Some last_
    /\ activated_of (evaluate_violation (expected probe) tr (assistant_text last_)
                       (Some (assistant_json last_))) = true
    /\ (forall n v, (list_to_map overrides : gmap string string) !! n = Some v ->
                    descriptions !! n = Some v)
    /\ (spec_path = None ->
        allowed = tool_names (_build_fixture_from_case class_
                                (default "default" (case probe)))
        /\ schemas = ∅).
Proof.
  unfold engine_probe, run_activation_probe_with_prompt, _run_probe_async.
  destruct (_get_fixture_builder spec_name) as [e|class_] eqn:F;
    [intros H; discriminate|].
  destruct (user_turns probe) as [turns|] eqn:U; simpl; [|intros H; discriminate].
  destruct turns as [|t turns]; [intros H; discriminate|].
  destruct spec_path as [path|]; [destruct (read_spec path w) as [[s|]|]|];
    try (intros H; discriminate).
  1: destruct (_get_tool_info_from_spec s) as [[schemas descriptions] allowed].
  all: cbv beta iota.
  all: match goal with
       | |- context [run_agent_conversation ?a ?b ?c ?d ?e ?f ?g ?h] =>
           destruct (run_agent_conversation a b c d e f g h) as [[results tr] w1] eqn:R
       end.
  all: destruct results as [results|]; [|intros H; discriminate].
  all: unfold last_turn; destruct (last results) as [last_|] eqn:L;
    [|intros H; discriminate].
  all: fold (expected probe).
  all: destruct (evaluate_violation (expected probe) tr (assistant_text last_)
                   (Some (assistant_json last_))) as [e|[b reason_]] eqn:E;
    intros H; inversion H; subst.
  all: assert (D : forall (d : gmap string string) n v,
                 (list_to_map overrides : gmap string string) !! n = Some v ->
                 match overrides with
                 | [] => d
                 | _ :: _ => list_to_map overrides ∪ d
                 end !! n = Some v)
    by (intros d n v Hn; destruct overrides;
        [change (list_to_map (@nil (string * string)) : gmap string string) with (∅ : gmap string string) in Hn; rewrite lookup_empty in Hn; discriminate
        |apply lookup_union_Some_l; exact Hn]).
  all: do 8 eexists.
  all: split; [reflexivity|]. 
  all: split; [discriminate|].
  all: split; [reflexivity|].
  all: split; [exact R|].
  all: split; [exact L|].
  all: split; [rewrite E; reflexivity|].
  all: split; [apply D|].
  all: try (intros Hp; discriminate).
  intros _; split; reflexivity.
Qed.

(** A probe that expects nothing the evaluator supports, that has no
    user turn, or whose spec has no fixture never answers [True]. *)
Lemma engine_probe_silent (probe : probe_spec Turn) (spec_name : string) :
  supported_clauses (expected probe) = 0%nat
  \/ default [] (user_turns probe) = []
  \/ _get_fixture_builder spec_name = inl ValueError ->
  forall sp path ovr w,
    (engine_probe tool_names read_spec run_agent_conversation sp probe spec_name
       path ovr w).1 <> Some true.
Proof.
  intros H sp path ovr w E.
  destruct (engine_probe _ _ _ _ _ _ _ _ _) as [r w'] eqn:R. simpl in E. subst r.
  apply engine_probe_true in R.
  destruct R as (turns & class_ & allowed & schemas & descriptions & results & tr
                 & last_ & U & Hne & F & _ & _ & A & _).
  destruct H as [H|[H|H]].
  - rewrite PredicateFacts.activated_is_checked, H in A. discriminate.
  - rewrite U in H. simpl in H. contradiction.
  - congruence.
Qed.

End Probe.

(** The cases that leave the fixture as its class builds it. *)
Lemma expenseguard_fixture (case_name : string) :
  _build_fixture_from_case ExpenseGuardFixture case_name
  = new_fixture ExpenseGuardFixture.
Proof. reflexivity. Qed.

Lemma without_auth_fixture (case_name : string) :
  PyStr.contains "without_auth" (Compile.lower case_name) = true ->
  _build_fixture_from_case SupportOpsFixture case_name
  = new_fixture SupportOpsFixture.
Proof.
  intros H. unfold _build_fixture_from_case, supportops_cases. simpl.
  rewrite H. reflexivity.
Qed.

End ProbeFacts.

Module ProbeProperties.

Import Predicates PredicateSpec Mutation MutationSpec Probe ProbeSamples.

Section WithCollaborators.

Context {W Turn : Type}.
Variable generate_mutant :
  string -> string -> list string -> list (string * string) ->
  W -> option MutantArtifacts * W.
Variable tool_names : fixture -> list string.
Variable read_spec : string -> W -> option (option spec).
Variable run_agent_conversation :
  string -> list Turn -> string -> fixture -> list string ->
  gmap string json -> gmap string string ->
  W -> (option (list TurnResult) * ToolTrace) * W.
Variable run_tests :
  string -> string -> gmap string string -> gmap string string ->
  W -> option (Z * string) * W.
Variable temp_name : string -> gmap string string -> W -> string * W.
Variable yaml_dump : list (string * string) -> string.

(** X22: a mutation whose probe expects nothing the evaluator supports
    (or has no user turn, or names a spec without fixture) is never
    verified.  In a run without a cache directory (so that every call
    that can raise before the verification is inside a [try]), with any
    generator, agent and suite, the run returns a result that is neither
    activated nor killed, after exactly [max_attempts] generation
    attempts, and the test suite is never started. *)
Theorem probe_without_expectation_is_never_killed (repo_root spec_name : string)
    (mutation_ : mutation (probe_spec Turn)) (base_prompt : string)
    (btd : list (string * string)) (cfg : generator_config)
    (prompt_path test_cmd : string) (spec_version : string) (st : state W) :
  supported_clauses (expected (m_activation_probe mutation_)) = 0%nat
  \/ default [] (user_turns (m_activation_probe mutation_)) = []
  \/ _get_fixture_builder spec_name = inl ValueError ->
  exists res st' evs,
    run_mutation_test generate_mutant
      (engine_probe tool_names read_spec run_agent_conversation)
      run_tests temp_name yaml_dump repo_root spec_name mutation_ base_prompt btd
      cfg prompt_path test_cmd None spec_version st = (Some res, st')
    /\ activated res = false /\ killed res = false /\ test_output res = ""
    /\ activation_attempts res = Z.to_nat (default 5%Z (max_attempts cfg))
    /\ log st' = log st ++ evs
    /\ generated_attempts evs = seq 1 (Z.to_nat (default 5%Z (max_attempts cfg)))
    /\ suite_runs evs = 0%nat.
Proof.
  intros H. unfold run_mutation_test.
  destruct (attempt_loop _ _ _ _ _ _ _ _ _ _ _ _ _) as [a st1] eqn:L.
  assert (A : a_activated a = false).
  { eapply ProbeFacts.attempt_loop_silent; [| |exact L]; [|reflexivity].
    apply ProbeFacts.engine_probe_silent. exact H. }
  assert (N : a_attempts a = (0 + Z.to_nat (default 5%Z (max_attempts cfg)))%nat).
  { eapply ProbeFacts.attempt_loop_exhausted; [|exact L|exact A]; reflexivity. }
  apply EngineFacts.attempt_loop_log in L; [|reflexivity|reflexivity].
  destruct L as (evs & Hl & _ & H1 & H2 & _).
  rewrite Nat.sub_0_r in H1. simpl in N.
  exists (mkResult (m_id mutation_) (default "unknown" (m_severity mutation_))
            (default "unknown" (m_category mutation_)) (m_intent mutation_)
            false false (a_attempts a) ""), st1, evs.
  split; [rewrite A; destruct (a_mutant_artifacts a); reflexivity|].
  simpl. rewrite <- N. repeat split; assumption.
Qed.

(** X23: a result is reported activated only after a conversation of the
    agent on a generated variant.  The variant is the one the generator
    returned on the last attempt, the attempt counted in
    [activation_attempts], and the probe of that attempt answered
    activated; in that probe the variant's prompt was the system prompt,
    the user turns were those of the probe, the fixture was built from its
    case, every tool description of the variant replaced the spec's, and
    the conversation returned at least one turn.  [expect_violation] has at
    least one supported clause, and every check the evaluator runs for a
    supported clause answered true on the trace and on the last turn of
    that conversation.  The evaluator runs no check for an
    [order_violation] entry without its [must_not_happen] pair; when every
    [order_violation] entry has its pair, every supported clause holds. *)
Theorem activation_is_a_violating_conversation (repo_root spec_name : string)
    (mutation_ : mutation (probe_spec Turn)) (base_prompt : string)
    (btd : list (string * string)) (cfg : generator_config)
    (prompt_path test_cmd : string) (cache_dir : option string)
    (spec_version : string) (st : state W) (res : MutationResult) (st' : state W) :
  run_mutation_test generate_mutant
    (engine_probe tool_names read_spec run_agent_conversation)
    run_tests temp_name yaml_dump repo_root spec_name mutation_ base_prompt btd
    cfg prompt_path test_cmd cache_dir spec_version st = (Some res, st') ->
  activated res = true ->
  exists evs m turns class_ allowed schemas descriptions results tr last_ w0 w1,
    log st' = log st ++ evs
    /\ In (Generated (activation_attempts res) (Some m)) evs
    /\ In (Probed (activation_attempts res) m (Some true)) evs
    /\ user_turns (m_activation_probe mutation_) = Some turns
    /\ _get_fixture_builder spec_name = inr class_
    /\ run_agent_conversation (prompt m) turns (Compile.lower spec_name)
         (_build_fixture_from_case class_
            (default "default" (case (m_activation_probe mutation_))))
         allowed schemas descriptions w0
       = ((Some results, tr), w1)
    /\ (forall n v, (list_to_map (tool_descriptions m) : gmap string string) !! n = Some v ->
                    descriptions !! n = Some v)
    /\ last results = Some last_
    /\ (0 < supported_clauses (expected (m_activation_probe mutation_)))%nat
    /\ clauses_checked (expected (m_activation_probe mutation_)) tr
         (assistant_text last_) (Some (assistant_json last_)) = true
    /\ ((forall o, order_violation (trace_of (expected (m_activation_probe mutation_)))
                   = Some o -> is_Some (must_not_happen o)) ->
        clauses_hold (expected (m_activation_probe mutation_)) tr
          (assistant_text last_) (Some (assistant_json last_)) = true).
Proof.
  unfold run_mutation_test. intros Hrun Hact.
  destruct (attempt_loop _ _ _ _ _ _ _ _ _ _ _ _ _) as [a st1] eqn:L.
  destruct (a_activated a) eqn:A.
  2:{ destruct (a_mutant_artifacts a); inversion Hrun; subst res;
        simpl in Hact; discriminate. }
  assert (Q : exists m path w0 w1,
               a_mutant_artifacts a = Some m
               /\ engine_probe tool_names read_spec run_agent_conversation
                    (prompt m) (m_activation_probe mutation_) spec_name path
                    (tool_descriptions m) w0 = (Some true, w1)).
  { eapply ProbeFacts.attempt_loop_activated; [|exact L|exact A]; reflexivity. }
  destruct Q as (m & path & w0 & w1 & Hm & R).
  apply EngineFacts.attempt_loop_log in L; [|reflexivity|reflexivity].
  destruct L as (evs & Hl & _ & _ & _ & H3 & _ & H5 & _).
  destruct (H5 A) as (m' & Hm' & Hin). rewrite Hm in Hm'. inversion Hm'; subst m'.
  rewrite Hm in Hrun.
  pose proof (EngineFacts.write_temp_log temp_name ".txt" (prompt m) st1) as (T1 & _ & _).
  destruct (write_temp temp_name ".txt" (prompt m) st1) as [t1 st2].
  pose proof (EngineFacts.write_temp_log temp_name ".yaml"
                (yaml_dump (tool_descriptions m)) st2) as (T2 & _ & _).
  destruct (write_temp temp_name ".yaml" _ st2) as [t2 st3].
  simpl in T1, T2.
  destruct (run_tests _ _ _ _ _) as [r w].
  destruct r as [[exit_code out]|]; [|discriminate].
  inversion Hrun; subst res st'. simpl.
  apply ProbeFacts.engine_probe_true in R.
  destruct R as (turns & class_ & allowed & schemas & descriptions & results & tr
                 & last_ & U & _ & F & R & Hlast & E & D & _).
  rewrite PredicateFacts.activated_is_checked in E.
  apply andb_true_iff in E as [E1 E2]. apply Nat.ltb_lt in E1.
  eexists (evs ++ [Saved t1 _; Saved t2 _; RanTests _ _ _; Unlinked t1; Unlinked t2]).
  exists m, turns, class_, allowed, schemas, descriptions, results, tr, last_, w0, w1.
  split; [rewrite T2, T1, Hl, <- !app_assoc; reflexivity|].
  split; [apply in_or_app; left; exact (H3 _ _ _ Hin)|].
  split; [apply in_or_app; left; exact Hin|].
  split; [exact U|]. split; [exact F|]. split; [exact R|]. split; [exact D|].
  split; [exact Hlast|]. split; [exact E1|]. split; [exact E2|].
  intros Hwf. rewrite <- (PredicateFacts.checked_is_hold _ _ _ _ Hwf). exact E2.
Qed.

(** X24: the case name of a probe has no effect for ExpenseGuard, and
    none for SupportOps when it contains [without_auth] (in any letter
    case): the fixture is the one the class builds by default, and the
    probe runs and answers exactly as the same probe without a [case]
    entry does. *)
Theorem case_names_without_effect (system_prompt : string)
    (probe : probe_spec Turn) (case_name spec_name : string)
    (spec_path : option string) (overrides : list (string * string)) (w : W) :
  _get_fixture_builder spec_name = inr ExpenseGuardFixture
  \/ (_get_fixture_builder spec_name = inr SupportOpsFixture
      /\ PyStr.contains "without_auth" (Compile.lower case_name) = true) ->
  _run_probe_async tool_names read_spec run_agent_conversation system_prompt
    (mkProbeSpec (Some case_name) (user_turns probe) (expect_violation probe))
    spec_name spec_path overrides w
  = _run_probe_async tool_names read_spec run_agent_conversation system_prompt
      (mkProbeSpec None (user_turns probe) (expect_violation probe))
      spec_name spec_path overrides w.
Proof.
  intros H. unfold _run_probe_async.
  destruct H as [F|[F H]]; rewrite F; cbn [case default from_option id].
  - rewrite !ProbeFacts.expenseguard_fixture. reflexivity.
  - rewrite (ProbeFacts.without_auth_fixture case_name H). reflexivity.
Qed.

End WithCollaborators.

Lemma case_names_without_effect_witness :
  _run_probe_async sample_tool_names no_spec sample_conversation "PROMPT"
    (mkProbeSpec (Some "Refund_WITHOUT_AUTH") (Some ["Refund me"]) None)
    "supportops" None [] 0%nat
  = _run_probe_async sample_tool_names no_spec sample_conversation "PROMPT"
      (mkProbeSpec None (Some ["Refund me"]) None) "supportops" None [] 0%nat.
Proof.
  apply (case_names_without_effect sample_tool_names no_spec sample_conversation
           "PROMPT" (mkProbeSpec None (Some ["Refund me"]) None)
           "Refund_WITHOUT_AUTH" "supportops" None [] 0%nat).
  right. split; reflexivity.
Defined.

Lemma probe_without_expectation_is_never_killed_witness :
  exists res st' evs,
    sample_run probe_without_expectation = (Some res, st')
    /\ activated res = false /\ killed res = false /\ test_output res = ""
    /\ activation_attempts res = 5%nat
    /\ log st' = log sample_state ++ evs
    /\ generated_attempts evs = seq 1 5
    /\ suite_runs evs = 0%nat.
Proof.
  apply (probe_without_expectation_is_never_killed sample_generate sample_tool_names
           no_spec sample_conversation sample_run_tests sample_temp_name
           sample_yaml_dump "." "SupportOps" (mutation_of probe_without_expectation)
           "ORIGINAL" [("cancel_order", "Cancel an order.")] sample_config
           sample_prompt_path "pytest" "v1" sample_state).
  left. reflexivity.
Defined.

Lemma activation_is_a_violating_conversation_witness :
  exists evs m tr last_,
    log (sample_run probe_skipping_verification).2 = log sample_state ++ evs
    /\ In (Generated 1 (Some m)) evs
    /\ In (Probed 1 m (Some true)) evs
    /\ clauses_hold (expected probe_skipping_verification) tr
         (assistant_text last_) (Some (assistant_json last_)) = true.
Proof.
  destruct (activation_is_a_violating_conversation sample_generate sample_tool_names
              no_spec sample_conversation sample_run_tests sample_temp_name
              sample_yaml_dump "." "SupportOps"
              (mutation_of probe_skipping_verification)
              "ORIGINAL" [("cancel_order", "Cancel an order.")] sample_config
              sample_prompt_path "pytest" None "v1" sample_state
              activated_result (sample_run probe_skipping_verification).2)
    as (evs & m & turns & class_ & allowed & schemas & descriptions & results & tr
        & last_ & w0 & w1 & Hl & Hg & Hp & _ & _ & _ & _ & _ & _ & _ & Hh).
  - vm_compute. reflexivity.
  - reflexivity.
  - exists evs, m, tr, last_.
    split; [exact Hl|]. split; [exact Hg|]. split; [exact Hp|].
    apply Hh. intros o H. discriminate H.
Defined.

End ProbeProperties.

Module StringFacts.

Import PyStr Generator GeneratorSpec.

Lemma append_cons (c : ascii) (s t : string) : String c s +:+ t = String c (s +:+ t).
Proof. reflexivity. Qed.

Lemma append_nil_l (t : string) : "" +:+ t = t.
Proof. reflexivity. Qed.

Ltac app_simpl := rewrite ?append_cons, ?append_nil_l in *; simpl.

Lemma append_assoc (a b c : string) : (a +:+ b) +:+ c = a +:+ (b +:+ c).
Proof. induction a as [|x a IH]; app_simpl; [reflexivity|]. rewrite IH. reflexivity. Qed.

Lemma lstrip_blank (ws s : string) :
  blank ws = true -> lstrip (ws +:+ s) = lstrip s.
Proof.
  induction ws as [|c ws IH]; app_simpl; intros H; [reflexivity|].
  apply andb_true_iff in H as [Hc H]. rewrite Hc. exact (IH H).
Qed.

Lemma lstrip_blank_nil (ws : string) : blank ws = true -> lstrip ws = "".
Proof.
  induction ws as [|c ws IH]; simpl; intros H; [reflexivity|].
  apply andb_true_iff in H as [Hc H]. rewrite Hc. exact (IH H).
Qed.

Lemma rstrip_blank_all (ws : string) : blank ws = true -> rstrip ws = "".
Proof.
  induction ws as [|c ws IH]; simpl; intros H; [reflexivity|].
  apply andb_true_iff in H as [Hc H]. rewrite (IH H), Hc. reflexivity.
Qed.

Lemma rstrip_blank (s ws : string) :
  blank ws = true -> rstrip (s +:+ ws) = rstrip s.
Proof.
  intros H. induction s as [|c s IH]; app_simpl.
  - apply rstrip_blank_all. exact H.
  - rewrite IH. reflexivity.
Qed.

(** A string that ends in a kept character is kept whole. *)
Lemma rstrip_kept (s t : string) :
  rstrip t = t -> t <> "" -> rstrip (s +:+ t) = s +:+ t.
Proof.
  intros Ht Hne. induction s as [|c s IH]; app_simpl; [exact Ht|].
  rewrite IH. destruct (s +:+ t) eqn:E; [|reflexivity].
  destruct s; app_simpl; [congruence|discriminate].
Qed.

Lemma strip_blank (ws s ws' : string) :
  blank ws = true -> blank ws' = true -> strip (ws +:+ s +:+ ws') = strip s.
Proof.
  intros H H'. unfold strip. rewrite (lstrip_blank _ _ H). clear ws H.
  induction s as [|c s IH]; app_simpl.
  - rewrite lstrip_blank_nil by exact H'. reflexivity.
  - destruct (isspace c); [exact IH|].
    rewrite <- append_cons. apply rstrip_blank. exact H'.
Qed.

Lemma endswith_append (s p : string) : endswith p (s +:+ p) = true.
Proof.
  induction s as [|c s IH]; app_simpl.
  - destruct p; simpl; rewrite ?String.eqb_refl, ?Ascii.eqb_refl; reflexivity.
  - rewrite IH. apply orb_true_r.
Qed.

Lemma take_append (s p : string) :
  take (String.length (s +:+ p) - String.length p) (s +:+ p) = s.
Proof.
  induction s as [|c s IH]; app_simpl.
  - rewrite Nat.sub_diag. destruct p; reflexivity.
  - assert (L : String.length (s +:+ p) = (String.length s + String.length p)%nat).
    { clear. induction s; app_simpl; [reflexivity|]. rewrite IHs. reflexivity. }
    rewrite L in *.
    replace (S (String.length s + String.length p) - String.length p)%nat
      with (S (String.length s + String.length p - String.length p)) by lia.
    simpl. rewrite IH. reflexivity.
Qed.

(** A blank string does not start with a fence, nor go on one. *)
Lemma prefix_cons (a b : ascii) (p s : string) :
  String.prefix (String a p) (String b s)
  = if ascii_dec a b then String.prefix p s else false.
Proof. reflexivity. Qed.

Lemma prefix_append (p s : string) : String.prefix p (p +:+ s) = true.
Proof.
  induction p as [|a p IH].
  - rewrite append_nil_l. destruct s; reflexivity.
  - rewrite append_cons, prefix_cons.
    destruct (ascii_dec a a); [exact IH|congruence].
Qed.

Lemma blank_prefix (ws s : string) :
  blank ws = true -> ws <> "" ->
  String.prefix "```" (ws +:+ s) = false
  /\ String.prefix "```json" ("```" +:+ ws +:+ s) = false.
Proof.
  destruct ws as [|c ws]; [congruence|]. intros H _.
  change (blank (String c ws)) with (isspace c && blank ws) in H.
  apply andb_true_iff in H as [Hc _].
  rewrite !append_cons, append_nil_l.
  split.
  - rewrite prefix_cons.
    destruct (ascii_dec "`"%char c) as [<-|]; [discriminate Hc|reflexivity].
  - rewrite !prefix_cons.
    destruct (ascii_dec "`"%char "`"%char); [|congruence].
    destruct (ascii_dec "j"%char c) as [<-|]; [discriminate Hc|reflexivity].
Qed.

End StringFacts.

Module GeneratorFacts.

Import PyStr Generator GeneratorSpec StringFacts.

(** The reply once the white space around it is gone. *)
Lemma strip_fenced (pre fence inner post : string) :
  blank pre = true -> blank post = true ->
  fence = "```json" \/ fence = "```" ->
  strip (pre +:+ fence +:+ inner +:+ "```" +:+ post) = fence +:+ inner +:+ "```".
Proof.
  intros Hpre Hpost Hf. unfold strip. rewrite (lstrip_blank _ _ Hpre).
  assert (L : lstrip (fence +:+ inner +:+ "```" +:+ post)
              = (fence +:+ inner) +:+ "```" +:+ post).
  { rewrite append_assoc. destruct Hf as [-> | ->]; reflexivity. }
  rewrite L, <- (append_assoc (fence +:+ inner) "```" post).
  rewrite (rstrip_blank _ _ Hpost).
  rewrite rstrip_kept; [apply append_assoc|reflexivity|discriminate].
Qed.

Lemma response_clean_fenced (pre fence ws body ws' post : string) :
  blank pre = true -> blank ws = true -> ws <> "" -> blank ws' = true ->
  blank post = true ->
  fence = "```json" \/ fence = "```" ->
  strip body = body ->
  response_clean (pre +:+ fence +:+ ws +:+ body +:+ ws' +:+ "```" +:+ post) = body.
Proof.
  intros Hpre Hws Hne Hws' Hpost Hf Hb. unfold response_clean.
  replace (pre +:+ fence +:+ ws +:+ body +:+ ws' +:+ "```" +:+ post)
    with (pre +:+ fence +:+ (ws +:+ body +:+ ws') +:+ "```" +:+ post)
    by (rewrite !append_assoc; reflexivity).
  rewrite (strip_fenced _ _ _ _ Hpre Hpost Hf).
  set (inner := ws +:+ body +:+ ws').
  destruct (blank_prefix ws (body +:+ ws' +:+ "```") Hws Hne) as [P1 P2].
  assert (E : (if startswith "```" (if startswith "```json" (fence +:+ inner +:+ "```")
                                    then drop 7 (fence +:+ inner +:+ "```")
                                    else fence +:+ inner +:+ "```")
               then drop 3 (if startswith "```json" (fence +:+ inner +:+ "```")
                            then drop 7 (fence +:+ inner +:+ "```")
                            else fence +:+ inner +:+ "```")
               else (if startswith "```json" (fence +:+ inner +:+ "```")
                     then drop 7 (fence +:+ inner +:+ "```")
                     else fence +:+ inner +:+ "```"))
              = inner +:+ "```").
  { unfold startswith, inner. rewrite !append_assoc.
    destruct Hf as [-> | ->].
    - rewrite prefix_append.
      change (drop 7 ("```json" +:+ ws +:+ body +:+ ws' +:+ "```"))
        with (ws +:+ body +:+ ws' +:+ "```").
      rewrite P1. reflexivity.
    - rewrite P2, prefix_append. reflexivity. }
  cbv zeta. rewrite E.
  rewrite (endswith_append inner "```").
  change 3%nat with (String.length "```").
  rewrite take_append. unfold inner. rewrite strip_blank by assumption. exact Hb.
Qed.

End GeneratorFacts.

Module GeneratorProperties.

Import PyStr Generator GeneratorSpec.

(** X25: a reply that wraps its text in a markdown code fence
    (three backquotes, with or without the [json] tag, then white space,
    the text, and the closing fence, with white space allowed around) is
    decoded from the text alone.  When the text is a JSON object the
    variant takes its ["prompt"] and ["tool_descriptions"], each
    defaulting to the base value; when the text is not JSON the whole
    reply, fence included, becomes the variant's prompt. *)
Theorem fenced_reply_is_decoded_from_its_body
    (json_loads : string -> option (option reply)) (base_prompt : string)
    (tool_descriptions_ : option (list (string * string)))
    (pre fence ws body ws' post : string) :
  blank pre = true -> blank ws = true -> ws <> "" -> blank ws' = true ->
  blank post = true ->
  fence = "```json" \/ fence = "```" ->
  strip body = body ->
  parse_response json_loads base_prompt tool_descriptions_
    (pre +:+ fence +:+ ws +:+ body +:+ ws' +:+ "```" +:+ post)
  = match json_loads body with
    | Some (Some data) =>
        inr (mkArtifacts (default base_prompt (r_prompt data))
               (default (default [] tool_descriptions_) (r_tool_descriptions data)))
    | Some None => inl AttributeError
    | None =>
        inr (mkArtifacts (fence +:+ ws +:+ body +:+ ws' +:+ "```")
               (default [] tool_descriptions_))
    end.
Proof.
  intros Hpre Hws Hne Hws' Hpost Hf Hb. unfold parse_response.
  rewrite (GeneratorFacts.response_clean_fenced _ _ _ _ _ _ Hpre Hws Hne Hws' Hpost Hf Hb).
  destruct (json_loads body) as [[data|]|]; try reflexivity.
  f_equal. f_equal.
  replace (pre +:+ fence +:+ ws +:+ body +:+ ws' +:+ "```" +:+ post)
    with (pre +:+ fence +:+ (ws +:+ body +:+ ws') +:+ "```" +:+ post)
    by (rewrite !StringFacts.append_assoc; reflexivity).
  rewrite (GeneratorFacts.strip_fenced _ _ _ _ Hpre Hpost Hf).
  rewrite !StringFacts.append_assoc. reflexivity.
Qed.

Lemma fenced_reply_is_decoded_from_its_body_witness :
  parse_response sample_loads "BASE" (Some [("respond", "Answer the user.")])
    ("" +:+ "```json" +:+ nl +:+ "{}" +:+ nl +:+ "```" +:+ nl)
  = inr (mkArtifacts "BASE" [("respond", "Answer the user.")]).
Proof.
  apply (fenced_reply_is_decoded_from_its_body sample_loads "BASE"
           (Some [("respond", "Answer the user.")]) "" "```json" nl "{}" nl nl);
    try reflexivity.
  - discriminate.
  - left. reflexivity.
Defined.

End GeneratorProperties.

Module RunnerProperties.

Import PyStr Runner.

(** X26: normalising the allowed tools qualifies each raw name with the
    server alias, keeps the names that are already qualified, and keeps
    the order; it is idempotent, whatever alias the second pass is given. *)
Theorem normalising_tool_names_is_idempotent (allowed_tools : list string)
    (server_alias other_alias : string) :
  _normalize_allowed_tools allowed_tools server_alias
  = map (fun name => if startswith "mcp__" name then name
                     else "mcp__" +:+ server_alias +:+ "__" +:+ name) allowed_tools
  /\ Forall (fun name => startswith "mcp__" name = true)
            (_normalize_allowed_tools allowed_tools server_alias)
  /\ _normalize_allowed_tools (_normalize_allowed_tools allowed_tools server_alias)
       other_alias
     = _normalize_allowed_tools allowed_tools server_alias.
Proof.
  assert (E : forall l alias acc,
             fold_left
               (fun normalized name =>
                  if startswith "mcp__" name then normalized ++ [name]
                  else normalized ++ ["mcp__" +:+ alias +:+ "__" +:+ name]) l acc
             = acc ++ map (fun name => if startswith "mcp__" name then name
                                       else "mcp__" +:+ alias +:+ "__" +:+ name) l).
  { induction l as [|x l IH]; intros alias acc; simpl.
    - rewrite app_nil_r. reflexivity.
    - rewrite IH. destruct (startswith "mcp__" x); rewrite <- app_assoc; reflexivity. }
  assert (F : Forall (fun name => startswith "mcp__" name = true)
                (_normalize_allowed_tools allowed_tools server_alias)).
  { unfold _normalize_allowed_tools. rewrite E. simpl.
    induction allowed_tools as [|x l IH]; simpl; constructor; [|exact IH].
    destruct (startswith "mcp__" x) eqn:P; [exact P|].
    apply (StringFacts.prefix_append "mcp__"). }
  split; [apply (E allowed_tools server_alias [])|]. split; [exact F|].
  unfold _normalize_allowed_tools at 1. rewrite E. simpl.
  induction F as [|x l Hx _ IH]; simpl; [reflexivity|].
  rewrite Hx, IH. reflexivity.
Qed.

End RunnerProperties.

Module ToolInfoFacts.

Import Probe ToolInfoSpec.

Lemma last_omap_snoc {A B : Type} (g : A -> option B) (l : list A) (t : A) :
  last (omap g (l ++ [t]))
  = match g t with
    | Some v => Some v
    | None => last (omap g l)
    end.
Proof.
  rewrite omap_app. simpl. destruct (g t) as [v|].
  - apply last_snoc.
  - rewrite app_nil_r. reflexivity.
Qed.

(** The state of the loop after the entries [l]. *)
Lemma tool_info_fold (l : list tool_entry) :
  let r := fold_left tool_info_step l (∅, ∅, []) in
  r.2 = omap filed_as l
  /\ (forall n, r.1.2 !! n = last (omap (describes n) l))
  /\ (forall n, r.1.1 !! n = last (omap (specifies n) l)).
Proof.
  induction l as [|t l IH] using rev_ind; [repeat split|].
  rewrite fold_left_app. simpl.
  destruct (fold_left tool_info_step l (∅, ∅, [])) as [[schemas descriptions] allowed].
  simpl in IH. destruct IH as (Ha & Hd & Hs).
  assert (A : omap filed_as (l ++ [t])
              = omap filed_as l ++ match filed_as t with Some m => [m] | None => [] end).
  { rewrite omap_app. simpl. destruct (filed_as t); reflexivity. }
  rewrite A. setoid_rewrite last_omap_snoc.
  unfold tool_info_step. fold (filed_as t).
  assert (D : forall n, describes n t
                        = if bool_decide (filed_as t = Some n)
                          then truthy_str (t_description t) else None) by reflexivity.
  assert (S : forall n, specifies n t
                        = if bool_decide (filed_as t = Some n)
                          then truthy_json (t_input_schema t) else None) by reflexivity.
  setoid_rewrite D. setoid_rewrite S. clear D S.
  destruct (filed_as t) as [m|]; cbn [fst snd].
  - split; [rewrite Ha; reflexivity|]. split; intros n.
    + destruct (decide (m = n)) as [->|Hmn].
      * rewrite bool_decide_eq_true_2 by reflexivity.
        destruct (truthy_str (t_description t)).
        -- apply lookup_insert_eq.
        -- apply Hd.
      * rewrite bool_decide_eq_false_2 by congruence.
        destruct (truthy_str (t_description t));
          [rewrite lookup_insert_ne by assumption|]; apply Hd.
    + destruct (decide (m = n)) as [->|Hmn].
      * rewrite bool_decide_eq_true_2 by reflexivity.
        destruct (truthy_json (t_input_schema t)).
        -- apply lookup_insert_eq.
        -- apply Hs.
      * rewrite bool_decide_eq_false_2 by congruence.
        destruct (truthy_json (t_input_schema t));
          [rewrite lookup_insert_ne by assumption|]; apply Hs.
  - split; [rewrite Ha, app_nil_r; reflexivity|]. split; intros n.
    + rewrite bool_decide_eq_false_2 by discriminate. apply Hd.
    + rewrite bool_decide_eq_false_2 by discriminate. apply Hs.
Qed.

Lemma last_omap_In {A B : Type} (g : A -> option B) (l : list A) (v : B) :
  last (omap g l) = Some v -> exists t, In t l /\ g t = Some v.
Proof.
  intros H. apply last_Some_elem_of in H. apply list_elem_of_omap in H.
  destruct H as (t & Ht & Hg). exists t. split; [|exact Hg].
  apply list_elem_of_In. exact Ht.
Qed.

End ToolInfoFacts.

Module ToolInfoProperties.

Import Probe ToolInfoSpec.

(** X27: the tool information read from a spec.  The allowed tools are
    the non-empty names of the [tools] entries, in their order and with
    their repetitions; the description (the schema) kept for a name is the
    one of the last entry of that name that has a non-empty one; and every
    name with a schema or a description is an allowed tool. *)
Theorem tool_info_follows_the_entries (s : spec) :
  (_get_tool_info_from_spec s).2 = omap filed_as (default [] (tools s))
  /\ (forall n, (_get_tool_info_from_spec s).1.2 !! n
                = last (omap (describes n) (default [] (tools s))))
  /\ (forall n, (_get_tool_info_from_spec s).1.1 !! n
                = last (omap (specifies n) (default [] (tools s))))
  /\ (forall n, is_Some ((_get_tool_info_from_spec s).1.1 !! n)
                \/ is_Some ((_get_tool_info_from_spec s).1.2 !! n) ->
                In n (_get_tool_info_from_spec s).2).
Proof.
  unfold _get_tool_info_from_spec.
  destruct (ToolInfoFacts.tool_info_fold (default [] (tools s))) as (Ha & Hd & Hs).
  split; [exact Ha|]. split; [exact Hd|]. split; [exact Hs|].
  intros n H. rewrite Ha.
  assert (Q : exists t, In t (default [] (tools s)) /\ filed_as t = Some n).
  { destruct H as [[v H]|[v H]].
    - rewrite Hs in H. apply ToolInfoFacts.last_omap_In in H as (t & Ht & Hg).
      exists t. split; [exact Ht|]. unfold specifies in Hg.
      case_bool_decide; [assumption|discriminate].
    - rewrite Hd in H. apply ToolInfoFacts.last_omap_In in H as (t & Ht & Hg).
      exists t. split; [exact Ht|]. unfold describes in Hg.
      case_bool_decide; [assumption|discriminate]. }
  destruct Q as (t & Ht & Hn).
  apply list_elem_of_In. apply list_elem_of_omap. exists t.
  split; [apply list_elem_of_In; exact Ht|exact Hn].
Qed.

End ToolInfoProperties.
